(** * fire-challenge: the incremental ETL engine (src/etl)

    A shallow embedding of [etl/extract.py], [etl/transform.py],
    [etl/utils.py], [etl/load.py] and [etl/main.py].

    - A pandas DataFrame is a list of column labels and a list of rows
      (positional cells); a missing value (NaN, None, pd.NA, NaT) is [NA].
    - Python control flow (exceptions, [sys.exit], early [return]) and
      the effects on the outside world (HTTP requests, the watermark
      file, the staging table, log warnings) are threaded through a
      small state-and-outcome monad [M]; every effect is appended to a
      trace of events.
    - Library functions whose behaviour the code only relies on
      abstractly (pandas' timestamp parser, [datetime.fromisoformat],
      [pd.to_numeric]) are fields of a record [PyLib]; the remote API,
      the database availability and injected faults are fields of
      [Env]. *)

From Stdlib Require Import ZArith List String Ascii Bool Arith Lia.
From Stdlib Require Import Permutation Sorted.
Import ListNotations.
Open Scope string_scope.
Open Scope nat_scope.

(* ================================================================== *)
(** ** Strings *)

Definition is_upper (c : ascii) : bool :=
  (65 <=? nat_of_ascii c) && (nat_of_ascii c <=? 90).

(** [str.lower()] on ASCII text. *)
Definition lower_char (c : ascii) : ascii :=
  if is_upper c then ascii_of_nat (nat_of_ascii c + 32) else c.

Fixpoint lower (s : string) : string :=
  match s with
  | EmptyString => EmptyString
  | String c s' => String (lower_char c) (lower s')
  end.

(** [s.replace(a, b)] for a one-character pattern [a]. *)
Fixpoint replace_char (a : ascii) (b : string) (s : string) : string :=
  match s with
  | EmptyString => EmptyString
  | String c s' =>
      if Ascii.eqb c a then b ++ replace_char a b s'
      else String c (replace_char a b s')
  end.

(** [str.isspace()] on ASCII: blank, tab to carriage return, and the
    four separators 28..31. *)
Definition is_space (c : ascii) : bool :=
  let n := nat_of_ascii c in
  ((9 <=? n) && (n <=? 13)) || ((28 <=? n) && (n <=? 32)).

Fixpoint lstrip (s : string) : string :=
  match s with
  | EmptyString => EmptyString
  | String c s' => if is_space c then lstrip s' else s
  end.

Fixpoint rstrip (s : string) : string :=
  match s with
  | EmptyString => EmptyString
  | String c s' =>
      match rstrip s' with
      | EmptyString => if is_space c then EmptyString else String c EmptyString
      | r => String c r
      end
  end.

(** [str.strip()]. *)
Definition strip (s : string) : string := rstrip (lstrip s).

(** Python truthiness of a string. *)
Definition nonempty (s : string) : bool :=
  match s with EmptyString => false | _ => true end.

Definition digit (d : nat) : ascii := ascii_of_nat (48 + d mod 10).

Definition is_digit (c : ascii) : bool :=
  (48 <=? nat_of_ascii c) && (nat_of_ascii c <=? 57).

Fixpoint nat_digits (fuel n : nat) (acc : string) : string :=
  match fuel with
  | O => acc
  | S f =>
      let acc' := String (digit n) acc in
      if n / 10 =? 0 then acc' else nat_digits f (n / 10) acc'
  end.

(** [str(n)] for a natural number. *)
Definition str_of_nat (n : nat) : string := nat_digits (S n) n EmptyString.

(** [n] printed on exactly [w] decimal digits, zero padded. *)
Fixpoint pad (w n : nat) : string :=
  match w with
  | O => EmptyString
  | S w' => pad w' (n / 10) ++ String (digit n) EmptyString
  end.


(** [s[:-k]]. *)
Definition drop_last (k : nat) (s : string) : string :=
  substring 0 (String.length s - k) s.

Definition str_in (s : string) (l : list string) : bool :=
  existsb (String.eqb s) l.

(* ================================================================== *)
(** ** Values, timestamps and DataFrames *)

(** A cell of a DataFrame: missing, a text value, or a number.  A
    number is given as a multiple of 2^-1074, the smallest float step:
    every integer and every finite float is one, and the order of
    numbers is the order of [Z]. *)
Inductive Cell : Type :=
| NA
| Str (s : string)
| Num (q : Z).

Definition Cell_eqb (a b : Cell) : bool :=
  match a, b with
  | NA, NA => true
  | Str s, Str t => String.eqb s t
  | Num q, Num q' => Z.eqb q q'
  | _, _ => false
  end.

Definition isnull (c : Cell) : bool :=
  match c with NA => true | _ => false end.

(** A pandas Timestamp (timezone-naive), by its calendar fields. *)
Record Timestamp : Type := mkTs {
  year : nat; month : nat; day : nat;
  hour : nat; minute : nat; second : nat; microsecond : nat
}.

Definition ts_fields (t : Timestamp) : list nat :=
  [year t; month t; day t; hour t; minute t; second t; microsecond t].

Fixpoint lex_leb (a b : list nat) : bool :=
  match a, b with
  | x :: a', y :: b' => (x <? y) || ((x =? y) && lex_leb a' b')
  | _, _ => true
  end.

Definition ts_leb (a b : Timestamp) : bool := lex_leb (ts_fields a) (ts_fields b).

Definition ts_max (a b : Timestamp) : Timestamp := if ts_leb a b then b else a.

(** [t.strftime('%Y-%m-%dT%H:%M:%S.%f')].  pandas Timestamps have years
    1677..2262 and in-range fields, which print on exactly these
    widths. *)
Definition strftime (t : Timestamp) : string :=
  pad 4 (year t) ++ "-" ++ pad 2 (month t) ++ "-" ++ pad 2 (day t) ++ "T" ++
  pad 2 (hour t) ++ ":" ++ pad 2 (minute t) ++ ":" ++ pad 2 (second t) ++ "." ++
  pad 6 (microsecond t).





Definition Row := list Cell.

Record DataFrame : Type := mkDF {
  columns : list string;
  rows : list Row
}.

(** [pd.DataFrame()]. *)
Definition empty_frame : DataFrame := mkDF [] [].

(** [df.empty]: an axis of length 0. *)
Definition df_empty (df : DataFrame) : bool :=
  (List.length (columns df) =? 0) || (List.length (rows df) =? 0).

(** [col in df.columns]. *)
Definition has_column (col : string) (df : DataFrame) : bool :=
  str_in col (columns df).

Fixpoint index_of (col : string) (cols : list string) : option nat :=
  match cols with
  | [] => None
  | c :: cols' =>
      if String.eqb col c then Some 0
      else option_map S (index_of col cols')
  end.

Definition cell_at (i : nat) (r : Row) : Cell := nth i r NA.

(** The values of [df[col]] (first column carrying the label). *)
Definition column_values (col : string) (df : DataFrame) : list Cell :=
  match index_of col (columns df) with
  | Some i => map (cell_at i) (rows df)
  | None => []
  end.

Fixpoint set_nth (i : nat) (v : Cell) (r : Row) : Row :=
  match i, r with
  | O, _ :: r' => v :: r'
  | S i', c :: r' => c :: set_nth i' v r'
  | _, [] => []
  end.

Fixpoint set_cells (i : nat) (vs : list Cell) (rs : list Row) : list Row :=
  match vs, rs with
  | v :: vs', r :: rs' => set_nth i v r :: set_cells i vs' rs'
  | _, _ => rs
  end.

(** [df[col] = f(df[col])] for a label that occurs once. *)
Definition assign_column (col : string) (f : list Cell -> list Cell)
  (df : DataFrame) : DataFrame :=
  match index_of col (columns df) with
  | Some i => mkDF (columns df) (set_cells i (f (map (cell_at i) (rows df))) (rows df))
  | None => df
  end.

(** A raw record: a JSON object, keys in insertion order. *)
Definition Record_ := list (string * Cell).

Fixpoint lookup (k : string) (r : Record_) : Cell :=
  match r with
  | [] => NA
  | (k', v) :: r' => if String.eqb k k' then v else lookup k r'
  end.

Fixpoint add_keys (seen : list string) (ks : list string) : list string :=
  match ks with
  | [] => seen
  | k :: ks' => add_keys (if str_in k seen then seen else (seen ++ [k])%list) ks'
  end.

Definition all_keys (recs : list Record_) : list string :=
  fold_left (fun seen r => add_keys seen (map fst r)) recs [].

(** [pd.DataFrame(list_of_dicts)]: the columns are the keys in order of
    first appearance, absent keys give missing cells. *)
Definition DataFrame_of_records (recs : list Record_) : DataFrame :=
  let cols := all_keys recs in
  mkDF cols (map (fun r => map (fun c => lookup c r) cols) recs).

(* ================================================================== *)
(** ** The outside world *)

(** What the code relies on from pandas and the standard library
    without fixing it: which strings [datetime.fromisoformat] accepts,
    how [pd.to_datetime(..., errors='coerce')] reads one value of a
    column (the whole column is given too: pandas may infer the format
    from its first value), how [pd.to_numeric] reads a text, and how a
    float prints. *)
Record PyLib : Type := mkLib {
  fromisoformat : string -> bool;
  to_datetime_elem : list Cell -> Cell -> option Timestamp;
  to_numeric_elem : string -> option Z;
  float_repr : Z -> string
}.

(** The query parameters of one [requests.get]. *)
Record Request : Type := mkReq {
  req_limit : Z;
  req_offset : Z;
  req_where : option string
}.

(** [HttpError]: [requests.get], [raise_for_status] or [json] raised. *)
Inductive Response : Type :=
| HttpError
| Page (data_batch : list Record_).

(** The staging table: its columns, its primary key, its rows
    (cells in the order of [tcols]). *)
Record Table : Type := mkTable {
  tcols : list string;
  tkey : string;
  trows : list Row
}.

(** Configuration and everything outside the process: the batch size,
    the optional application token, the remote API (answer to the
    request of each loop iteration), whether the database can be
    reached at each step ([ddl_ok]: by [create_staging_table],
    [conn_ok]: by [upsert_data]; [page_fault i]: the link breaks while
    page [i] is executed), whether the state file can be written. *)
Record Env : Type := mkEnv {
  BATCH_SIZE : Z;
  API_APP_TOKEN : option string;
  api : nat -> Request -> Response;
  engine_ok : bool;
  ddl_ok : bool;
  conn_ok : bool;
  page_fault : nat -> bool;
  commit_ok : bool;
  file_writable : bool
}.

(** The calls of [logger.warning]. *)
Inductive Warning : Type :=
| WNoAppToken
| WMaxIterations
| WDuplicateColumnName (original renamed : string)
| WConvertFailed (col : string)
| WExpectedColumnMissing (col : string)
| WDatetimeParseFailed (col : string)
| WDatetimeColumnMissing (col : string)
| WMissingPK (n : nat)
| WDuplicatePK (n : nat)
| WDQIssues
| WDroppedColumns (cols : list string)
| WEmptyFrameSchema
| WNoLatestTimestamp
| WIncrementalColumnMissing
| WWatermarkNotUpdated.

(** What a run does to the outside, in order: the requests sent, the
    warnings logged, the entry into [load_data_to_staging], the
    statements and transaction steps on the database, the writes of the
    state file, the disposal of the engine. *)
Inductive Event : Type :=
| EvRequest (iteration : nat) (r : Request)
| EvWarn (w : Warning)
| EvLoad
| EvCreateTable (cols : list string)
| EvConnect
| EvExecute (page : nat)
| EvCommit
| EvRollback
| EvClose
| EvSaveWatermark (ts : string)
| EvDispose.

(** [wm_file]: content of LAST_RUN_TIMESTAMP_FILE ([None]: no file).
    [db]: committed state of the staging table ([None]: no such table).
    [txn]: working state of the open transaction, if one is open. *)
Record World : Type := mkWorld {
  wm_file : option string;
  db : option Table;
  txn : option (option Table);
  trace : list Event
}.

Inductive Exn : Type :=
| ValueError (msg : string)
| TypeError (msg : string)
| SQLAlchemyError (msg : string)
| DatabaseError (msg : string).

(** How a Python call ends: it returns, raises, calls [sys.exit], or
    ([Stuck]) the model's loop fuel ran out. *)
Inductive Outcome (A : Type) : Type :=
| Ret (a : A)
| Raise (e : Exn)
| Exit (code : Z)
| Stuck.

Arguments Ret {A} a.
Arguments Raise {A} e.
Arguments Exit {A} code.
Arguments Stuck {A}.

Definition M (A : Type) : Type := World -> Outcome A * World.

Definition ret {A} (a : A) : M A := fun w => (Ret a, w).

Definition bind {A B} (m : M A) (k : A -> M B) : M B :=
  fun w =>
    match m w with
    | (Ret a, w') => k a w'
    | (Raise e, w') => (Raise e, w')
    | (Exit c, w') => (Exit c, w')
    | (Stuck, w') => (Stuck, w')
    end.

Definition raise {A} (e : Exn) : M A := fun w => (Raise e, w).
Definition sys_exit {A} (c : Z) : M A := fun w => (Exit c, w).
Definition stuck {A} : M A := fun w => (Stuck, w).

(** [try: m except Exception as e: h e] ([sys.exit] is not caught). *)
Definition try_except {A} (m : M A) (h : Exn -> M A) : M A :=
  fun w =>
    match m w with
    | (Raise e, w') => h e w'
    | r => r
    end.

(** [try: m finally: f]. *)
Definition try_finally {A} (m : M A) (f : M unit) : M A :=
  fun w =>
    match m w with
    | (o, w') =>
        match f w' with
        | (Ret _, w'') => (o, w'')
        | (Raise e, w'') => (Raise e, w'')
        | (Exit c, w'') => (Exit c, w'')
        | (Stuck, w'') => (Stuck, w'')
        end
    end.

Definition emit (ev : Event) : M unit :=
  fun w => (Ret tt, mkWorld (wm_file w) (db w) (txn w) (trace w ++ [ev])%list).

Definition warn (x : Warning) : M unit := emit (EvWarn x).

Definition get_world : M World := fun w => (Ret w, w).

Definition set_wm_file (f : option string) : M unit :=
  fun w => (Ret tt, mkWorld f (db w) (txn w) (trace w)).

Definition set_db (d : option Table) : M unit :=
  fun w => (Ret tt, mkWorld (wm_file w) d (txn w) (trace w)).

Definition set_txn (t : option (option Table)) : M unit :=
  fun w => (Ret tt, mkWorld (wm_file w) (db w) t (trace w)).

Declare Scope py_scope.
Delimit Scope py_scope with py.
Notation "x <- m ;; k" := (bind m (fun x => k))
  (at level 61, m at next level, right associativity) : py_scope.
Notation "m ;; k" := (bind m (fun _ => k))
  (at level 61, right associativity) : py_scope.
Open Scope py_scope.

Definition when (b : bool) (m : M unit) : M unit := if b then m else ret tt.

(* ================================================================== *)
(** ** etl/config.py *)

Definition INCREMENTAL_COLUMN : string := "response_timestamp".
Definition unique_key : string := "incident_number".

(* ================================================================== *)
(** ** etl/extract.py *)

Section Extract.
Variable L : PyLib.
Variable E : Env.

Definition max_iterations : nat := 10.

(** The [while True] loop of [fetch_fire_data]; [None] is the
    [return None] of the [except] clauses.  [fuel] bounds the unfolding
    of the loop; [fetch_fire_data] gives it [max_iterations]. *)
Fixpoint fetch_loop (fuel iteration_count : nat) (offset : Z)
  (where_ : option string) (all_data : list Record_)
  : M (option (list Record_)) :=
  match fuel with
  | O => stuck
  | S fuel' =>
      let limit := BATCH_SIZE E in
      let params := mkReq limit offset where_ in
      emit (EvRequest iteration_count params) ;;
      match api E iteration_count params with
      | HttpError => ret None
      | Page data_batch =>
          match data_batch with
          | [] => ret (Some all_data)
          | _ =>
              let all_data := (all_data ++ data_batch)%list in
              if (Z.of_nat (List.length data_batch) <? limit)%Z
              then ret (Some all_data)
              else
                let iteration_count := iteration_count + 1 in
                if max_iterations <=? iteration_count
                then warn WMaxIterations ;; ret (Some all_data)
                else fetch_loop fuel' iteration_count (offset + limit)%Z
                       where_ all_data
          end
      end
  end.

Definition where_clause (ts : string) : string :=
  INCREMENTAL_COLUMN ++ " > '" ++ ts ++ "'".

(** The end of [fetch_fire_data]: no record gives [pd.DataFrame()]. *)
Definition frame_of (all_data : list Record_) : DataFrame :=
  match all_data with
  | [] => empty_frame
  | _ => DataFrame_of_records all_data
  end.

Definition paginate (where_ : option string) : M (option DataFrame) :=
  r <- fetch_loop max_iterations 0 0%Z where_ [] ;;
  match r with
  | None => ret None
  | Some all_data => ret (Some (frame_of all_data))
  end.

(** [if config.API_APP_TOKEN:] *)
Definition token_set : bool :=
  match API_APP_TOKEN E with
  | Some t => nonempty t
  | None => false
  end.

(** [fetch_fire_data(last_run_timestamp)]; [None] is Python's [None].
    The conversion of the records to a frame at the end does not
    fail. *)
Definition fetch_fire_data (last_run_timestamp : option string)
  : M (option DataFrame) :=
  when (negb token_set) (warn WNoAppToken) ;;
  match last_run_timestamp with
  | Some ts =>
      if nonempty ts then
        if fromisoformat L ts then paginate (Some (where_clause ts))
        else ret None
      else paginate None
  | None => paginate None
  end.

End Extract.

(* ================================================================== *)
(** ** etl/transform.py *)

Inductive Dtype : Type := DString | DInt64 | DFloat64.

Definition EXPECTED_DTYPES : list (string * Dtype) :=
  [ ("incident_number", DString);
    ("exposure_number", DInt64);
    ("id", DString);
    ("address", DString);
    ("incident_date", DString);
    ("call_number", DString);
    ("alarm_dttm", DString);
    ("arrival_dttm", DString);
    ("close_dttm", DString);
    ("city", DString);
    ("zipcode", DString);
    ("battalion", DString);
    ("station_area", DString);
    ("box", DString);
    ("suppression_units", DInt64);
    ("suppression_personnel", DInt64);
    ("ems_units", DInt64);
    ("ems_personnel", DInt64);
    ("other_units", DInt64);
    ("other_personnel", DInt64);
    ("first_unit_on_scene", DString);
    ("estimated_property_loss", DFloat64);
    ("estimated_contents_loss", DFloat64);
    ("fire_fatalities", DInt64);
    ("fire_injuries", DInt64);
    ("civilian_fatalities", DInt64);
    ("civilian_injuries", DInt64);
    ("number_of_alarms", DInt64);
    ("primary_situation", DString);
    ("mutual_aid", DString);
    ("action_taken_primary", DString);
    ("action_taken_secondary", DString);
    ("action_taken_other", DString);
    ("detector_alerted_occupants", DString);
    ("property_use", DString);
    ("area_of_fire_origin", DString);
    ("ignition_cause", DString);
    ("ignition_factor_primary", DString);
    ("ignition_factor_secondary", DString);
    ("heat_source", DString);
    ("item_first_ignited", DString);
    ("human_factors_associated_with_ignition", DString);
    ("structure_type", DString);
    ("structure_status", DString);
    ("floor_of_fire_origin", DInt64);
    ("fire_spread", DString);
    ("no_flame_spead", DString);
    ("number_of_floors_with_minimum_damage", DInt64);
    ("number_of_floors_with_significant_damage", DInt64);
    ("number_of_floors_with_heavy_damage", DInt64);
    ("number_of_floors_with_extreme_damage", DInt64);
    ("detectors_present", DString);
    ("detector_type", DString);
    ("detector_operation", DString);
    ("detector_effectiveness", DString);
    ("detector_failure_reason", DString);
    ("automatic_extinguishing_system_present", DString);
    ("automatic_extinguishing_sytem_type", DString);
    ("automatic_extinguishing_sytem_perfomance", DString);
    ("automatic_extinguishing_sytem_failure_reason", DString);
    ("number_of_sprinkler_heads_operating", DInt64);
    ("supervisor_district", DString);
    ("neighborhood_district", DString);
    ("point", DString);
    ("data_as_of", DString);
    ("data_loaded_at", DString) ].

Definition DATETIME_COLUMNS : list string :=
  ["incident_date"; "alarm_dttm"; "arrival_dttm"; "close_dttm"; "data_as_of"].

(** [col.lower().replace(' ', '_').replace('-', '_').replace('?', '').replace('.', '')] *)
Definition clean_name (col : string) : string :=
  replace_char "."%char ""
    (replace_char "?"%char ""
       (replace_char "-"%char "_"
          (replace_char " "%char "_" (lower col)))).

Fixpoint seen_get (col : string) (seen : list (string * nat)) : option nat :=
  match seen with
  | [] => None
  | (k, n) :: seen' => if String.eqb col k then Some n else seen_get col seen'
  end.

Fixpoint seen_set (col : string) (n : nat) (seen : list (string * nat))
  : list (string * nat) :=
  match seen with
  | [] => [(col, n)]
  | (k, m) :: seen' =>
      if String.eqb col k then (k, n) :: seen' else (k, m) :: seen_set col n seen'
  end.

(** The de-duplication loop of [clean_column_names] over the cleaned
    names: the final names. *)
Fixpoint final_names (seen : list (string * nat)) (new_columns : list string)
  : list string :=
  match new_columns with
  | [] => []
  | col :: rest =>
      match seen_get col seen with
      | Some n =>
          (col ++ "_" ++ str_of_nat (n + 1))
            :: final_names (seen_set col (n + 1) seen) rest
      | None => col :: final_names (seen_set col 0 seen) rest
      end
  end.

(** The warnings of that loop, one per renamed column. *)
Fixpoint rename_warnings (original final new_columns : list string)
  : list Warning :=
  match original, final, new_columns with
  | o :: original', f :: final', c :: new' =>
      (if String.eqb f c then [] else [WDuplicateColumnName o f])
        ++ rename_warnings original' final' new'
  | _, _, _ => []
  end.

Fixpoint warn_all (ws : list Warning) : M unit :=
  match ws with
  | [] => ret tt
  | x :: ws' => warn x ;; warn_all ws'
  end.

Definition clean_frame (df : DataFrame) : DataFrame :=
  mkDF (final_names [] (map clean_name (columns df))) (rows df).

Definition clean_column_names (df : DataFrame) : M DataFrame :=
  let new_columns := map clean_name (columns df) in
  let final_columns := final_names [] new_columns in
  warn_all (rename_warnings (columns df) final_columns new_columns) ;;
  ret (mkDF final_columns (rows df)).

(** Apply [f] to the cells of [r] that stand under the label [col]. *)
Fixpoint map_labelled (col : string) (f : Cell -> Cell)
  (cols : list string) (r : Row) : Row :=
  match r, cols with
  | v :: r', c :: cols' =>
      (if String.eqb c col then f v else v) :: map_labelled col f cols' r'
  | _, _ => r
  end.

Definition count_label (col : string) (cols : list string) : nat :=
  List.length (filter (String.eqb col) cols).

(** Order of the values of a sorted column: texts by code points,
    numbers by value, missing values last.  A text is never compared
    with a number ([sort_values] raises before); the order puts texts
    first to be total. *)
Definition cell_leb (a b : Cell) : bool :=
  match a, b with
  | _, NA => true
  | NA, _ => false
  | Str s, Str t => String.leb s t
  | Num x, Num y => (x <=? y)%Z
  | Str _, Num _ => true
  | Num _, Str _ => false
  end.

Definition is_str (c : Cell) : bool := match c with Str _ => true | _ => false end.
Definition is_num (c : Cell) : bool := match c with Num _ => true | _ => false end.

Section Sorting.
Variable i : nat.

Fixpoint insert_row (r : Row) (sorted : list Row) : list Row :=
  match sorted with
  | [] => [r]
  | r' :: rest =>
      if cell_leb (cell_at i r) (cell_at i r') then r :: r' :: rest
      else r' :: insert_row r rest
  end.

Fixpoint sort_rows (rs : list Row) : list Row :=
  match rs with
  | [] => []
  | r :: rs' => insert_row r (sort_rows rs')
  end.

(** [drop_duplicates(subset=[key], keep='first')] on rows, [i] the
    position of the key; missing keys are equal to each other. *)
Fixpoint keep_first (seen : list Cell) (rs : list Row) : list Row :=
  match rs with
  | [] => []
  | r :: rs' =>
      if existsb (Cell_eqb (cell_at i r)) seen then keep_first seen rs'
      else r :: keep_first (cell_at i r :: seen) rs'
  end.

(** [drop_duplicates(subset=[key], keep='last')]. *)
Fixpoint keep_last (rs : list Row) : list Row :=
  match rs with
  | [] => []
  | r :: rs' =>
      if existsb (fun r' => Cell_eqb (cell_at i r) (cell_at i r')) rs'
      then keep_last rs'
      else r :: keep_last rs'
  end.

(** [df.duplicated(subset=[key], keep=False)] selects these rows. *)
Definition duplicated_rows (rs : list Row) : list Row :=
  filter (fun r =>
            1 <? List.length (filter (fun r' => Cell_eqb (cell_at i r) (cell_at i r')) rs))
         rs.

End Sorting.

(** Texts and numbers in one column. *)
Definition mixed_types (vs : list Cell) : bool :=
  existsb is_str vs && existsb is_num vs.

(** [df.sort_values(col)]: ascending, missing values last; comparing a
    text with a number raises TypeError ([None]).  Rows with equal
    values keep their order here; pandas' default sort leaves the order
    of such ties open. *)
Definition sort_values (col : string) (df : DataFrame) : option DataFrame :=
  match index_of col (columns df) with
  | Some i =>
      if mixed_types (map (cell_at i) (rows df)) then None
      else Some (mkDF (columns df) (sort_rows i (rows df)))
  | None => None
  end.

Inductive Keep := KeepFirst | KeepLast.

Definition drop_duplicates (col : string) (keep : Keep) (df : DataFrame)
  : DataFrame :=
  match index_of col (columns df) with
  | Some i =>
      mkDF (columns df)
        (match keep with
         | KeepFirst => keep_first i [] (rows df)
         | KeepLast => keep_last i (rows df)
         end)
  | None => df
  end.

Section Transform.
Variable L : PyLib.

(** [pd.to_numeric(x, errors='coerce')] on one value. *)
Definition to_numeric (c : Cell) : Cell :=
  match c with
  | NA => NA
  | Num q => Num q
  | Str s => match to_numeric_elem L s with Some q => Num q | None => NA end
  end.

(** [astype(pd.StringDtype())] on one value. *)
Definition astype_string (c : Cell) : Cell :=
  match c with
  | NA => NA
  | Str s => Str s
  | Num q => Str (float_repr L q)
  end.

(** [pd.to_datetime(col, errors='coerce')]: a missing value is NaT. *)
Definition to_datetime (col : list Cell) : list (option Timestamp) :=
  map (fun c => match c with
                | NA => None
                | _ => to_datetime_elem L col c
                end) col.

(** [.dt.strftime('%Y-%m-%dT%H:%M:%S.%f').fillna('')] on one value. *)
Definition format_or_empty (t : option Timestamp) : Cell :=
  match t with
  | Some ts => Str (strftime ts)
  | None => Str ""
  end.

(** One turn of the first loop of [convert_data_types].  With the label
    repeated, [df[col]] is a frame: [pd.to_numeric] raises (caught, the
    columns stay as they are) and [astype] converts each of them. *)
Definition convert_column (cd : string * Dtype) (df : DataFrame) : M DataFrame :=
  let (col, dtype) := cd in
  if has_column col df then
    match dtype with
    | DInt64 | DFloat64 =>
        if count_label col (columns df) =? 1
        then ret (mkDF (columns df)
                    (map (map_labelled col to_numeric (columns df)) (rows df)))
        else warn (WConvertFailed col) ;; ret df
    | DString =>
        ret (mkDF (columns df)
               (map (map_labelled col astype_string (columns df)) (rows df)))
    end
  else warn (WExpectedColumnMissing col) ;; ret df.

(** One turn of the second loop: parse and print back a datetime
    column.  On one column [pd.to_datetime(errors='coerce')] gives a
    datetime column, missing where a value does not parse, and neither
    it nor [strftime] raises; with the label repeated [df[col]] is a
    frame and [pd.to_datetime] raises (caught, the columns stay). *)
Definition convert_datetime (col : string) (df : DataFrame) : M DataFrame :=
  if has_column col df then
    if count_label col (columns df) =? 1
    then ret (assign_column col
                (fun vs => map format_or_empty (to_datetime vs)) df)
    else warn (WDatetimeParseFailed col) ;; ret df
  else warn (WDatetimeColumnMissing col) ;; ret df.

Fixpoint for_each {A} (f : A -> DataFrame -> M DataFrame) (l : list A)
  (df : DataFrame) : M DataFrame :=
  match l with
  | [] => ret df
  | a :: l' => df' <- f a df ;; for_each f l' df'
  end.

Definition convert_data_types (df : DataFrame) : M DataFrame :=
  df <- for_each convert_column EXPECTED_DTYPES df ;;
  for_each convert_datetime DATETIME_COLUMNS df.

Definition count_null (vs : list Cell) : nat :=
  List.length (filter isnull vs).

(** Step 2 of [perform_data_quality_checks]: duplicate keys. *)
Definition resolve_duplicates (df : DataFrame) : M DataFrame :=
  match index_of unique_key (columns df) with
  | Some i =>
      let duplicates := duplicated_rows i (rows df) in
      match duplicates with
      | [] => ret df
      | _ =>
          warn (WDuplicatePK (List.length duplicates)) ;;
          if has_column INCREMENTAL_COLUMN df then
            match sort_values INCREMENTAL_COLUMN df with
            | Some sorted => ret (drop_duplicates unique_key KeepLast sorted)
            | None => raise (TypeError "'<' not supported")
            end
          else ret (drop_duplicates unique_key KeepFirst df)
      end
  | None => ret df
  end.

(** [perform_data_quality_checks]: the returned frame together with the
    final value of the local flag [issues_found]. *)
Definition quality_checks (df : DataFrame) : M (DataFrame * bool) :=
  if df_empty df then ret (df, false)
  else
    issues_found <-
      (if has_column unique_key df then
         let missing_pk := count_null (column_values unique_key df) in
         if 0 <? missing_pk
         then warn (WMissingPK missing_pk) ;; ret true
         else ret false
       else raise (ValueError "Missing critical column: incident_number")) ;;
    df <- resolve_duplicates df ;;
    when issues_found (warn WDQIssues) ;;
    ret (df, issues_found).

Definition perform_data_quality_checks (df : DataFrame) : M DataFrame :=
  r <- quality_checks df ;; ret (fst r).

(** [transform_data(df)] for a frame ([df is None] does not arise: the
    orchestrator exits before). *)
Definition transform_data (df : DataFrame) : M DataFrame :=
  if df_empty df then ret empty_frame
  else
    df <- clean_column_names df ;;
    df <- convert_data_types df ;;
    perform_data_quality_checks df.

End Transform.

(* ================================================================== *)
(** ** The database server: PostgreSQL's side of the statements *)

Module Pg.

(** The row a VALUES tuple stands for: its values under the listed
    columns, NULL elsewhere. *)
Definition row_of (tc cols : list string) (tuple : Row) : Row :=
  map (fun c => match index_of c cols with
                | Some j => cell_at j tuple
                | None => NA
                end) tc.

(** [DO UPDATE SET c = EXCLUDED.c] for every listed column but the key. *)
Fixpoint merge (cols : list string) (key : string) (tc : list string)
  (old new : Row) : Row :=
  match tc, old, new with
  | c :: tc', o :: old', n :: new' =>
      (if str_in c cols && negb (String.eqb c key) then n else o)
        :: merge cols key tc' old' new'
  | _, _, _ => old
  end.

Fixpoint put (cols : list string) (key : string) (tc : list string)
  (ki : nat) (new : Row) (rs : list Row) : list Row :=
  match rs with
  | [] => [new]
  | r :: rs' =>
      if Cell_eqb (cell_at ki r) (cell_at ki new)
      then merge cols key tc r new :: rs'
      else r :: put cols key tc ki new rs'
  end.

(** The tuples of one statement, in order.  A NULL key violates the
    primary key; a key proposed twice in one statement is refused
    ("cannot affect row a second time"). *)
Fixpoint apply (cols : list string) (key : string) (tc : list string)
  (ki : nat) (affected : list Cell) (tuples : list Row) (rs : list Row)
  : option (list Row) :=
  match tuples with
  | [] => Some rs
  | t :: tuples' =>
      let new := row_of tc cols t in
      let kv := cell_at ki new in
      if isnull kv then None
      else if existsb (Cell_eqb kv) affected then None
      else apply cols key tc ki (kv :: affected) tuples'
             (put cols key tc ki new rs)
  end.

Fixpoint nodup_labels (cols : list string) : bool :=
  match cols with
  | [] => true
  | c :: cols' => negb (str_in c cols') && nodup_labels cols'
  end.

(** [INSERT INTO t (cols) VALUES tuples ON CONFLICT (key) DO UPDATE SET
    update_cols] against the working state; [None]: the server raises. *)
Definition insert_on_conflict (cols : list string) (key : string)
  (update_cols : list string) (tuples : list Row) (t : option Table)
  : option Table :=
  match t with
  | None => None
  | Some tb =>
      match cols, update_cols, index_of key (tcols tb) with
      | _ :: _, _ :: _, Some ki =>
          if forallb (fun c => str_in c (tcols tb)) cols
             && nodup_labels cols
             && String.eqb key (tkey tb)
             && forallb (fun tu => List.length tu =? List.length cols) tuples
          then option_map (mkTable (tcols tb) (tkey tb))
                 (apply cols key (tcols tb) ki [] tuples (trows tb))
          else None
      | _, _, _ => None
      end
  end.

(** [CREATE TABLE IF NOT EXISTS t (incident_number TEXT PRIMARY KEY,
    others TEXT)]: nothing happens when the table exists. *)
Definition create_if_not_exists (others : list string) (t : option Table)
  : option (option Table) :=
  match t with
  | Some tb => Some (Some tb)
  | None =>
      if nodup_labels (unique_key :: others)
      then Some (Some (mkTable (unique_key :: others) unique_key []))
      else None
  end.

End Pg.

(* ================================================================== *)
(** ** etl/utils.py, etl/load.py, etl/main.py *)

Fixpoint pages_of {A} (fuel page_size : nat) (l : list A) : list (list A) :=
  match fuel, l with
  | _, [] => []
  | O, _ => [l]
  | S fuel', _ => firstn page_size l :: pages_of fuel' page_size (skipn page_size l)
  end.

Section Pipeline.
Variable L : PyLib.
Variable E : Env.

Definition get_db_engine : M unit :=
  if engine_ok E then ret tt
  else raise (SQLAlchemyError "could not connect").

(** [get_last_run_timestamp()]: [None] without a file or with a blank one. *)
Definition get_last_run_timestamp : M (option string) :=
  w <- get_world ;;
  match wm_file w with
  | Some content =>
      let timestamp := strip content in
      if nonempty timestamp then ret (Some timestamp) else ret None
  | None => ret None
  end.

(** [save_last_run_timestamp(timestamp)]: an IOError is logged only. *)
Definition save_last_run_timestamp (timestamp : string) : M unit :=
  if file_writable E
  then set_wm_file (Some timestamp) ;; emit (EvSaveWatermark timestamp)
  else ret tt.

(** [create_staging_table(engine, df, table_name)].  For a non-empty
    frame whose only column is the key the statement ends in
    ["PRIMARY KEY, );"], which the server does not parse.  The statement
    takes effect at once: it is not part of the transaction of
    [upsert_data]. *)
Definition create_staging_table (df : DataFrame) : M unit :=
  (r <-
     (if df_empty df
      then warn WEmptyFrameSchema ;; ret (Some [])
      else
        let column_defs :=
          filter (fun col => negb (String.eqb col unique_key)) (columns df) in
        match column_defs with
        | [] => ret None
        | _ => ret (Some column_defs)
        end) ;;
   if ddl_ok E then
     match r with
     | None => raise (SQLAlchemyError "syntax error")
     | Some others =>
         w <- get_world ;;
         match Pg.create_if_not_exists others (db w) with
         | Some d => set_db d ;; emit (EvCreateTable (unique_key :: others))
         | None => raise (SQLAlchemyError "column specified more than once")
         end
     end
   else raise (SQLAlchemyError "connection failed")).

(** [execute_values(cursor, sql, data_tuples, page_size=500)]: one
    statement per page, inside the open transaction. *)
Fixpoint execute_values (cols : list string) (key : string)
  (update_cols : list string) (page : nat) (pages : list (list Row))
  : M unit :=
  match pages with
  | [] => ret tt
  | p :: pages' =>
      w <- get_world ;;
      if page_fault E page then raise (DatabaseError "connection lost")
      else
        match txn w with
        | None => raise (DatabaseError "connection closed")
        | Some working =>
            match Pg.insert_on_conflict cols key update_cols p working with
            | None => raise (DatabaseError "statement failed")
            | Some tb =>
                set_txn (Some (Some tb)) ;;
                emit (EvExecute page) ;;
                execute_values cols key update_cols (page + 1) pages'
            end
        end
  end.

Definition conn_commit : M unit :=
  w <- get_world ;;
  match txn w with
  | Some working =>
      if commit_ok E then set_db working ;; emit EvCommit
      else raise (DatabaseError "commit failed")
  | None => raise (DatabaseError "connection closed")
  end.

Definition conn_rollback : M unit :=
  w <- get_world ;; set_txn (Some (db w)) ;; emit EvRollback.

Definition conn_close : M unit := set_txn None ;; emit EvClose.

(** [upsert_data(engine, df, table_name, unique_key)]. *)
Definition upsert_data (df : DataFrame) (key : string) : M unit :=
  if df_empty df then ret tt
  else if conn_ok E then
    try_finally
      (try_except
         (w <- get_world ;;
          set_txn (Some (db w)) ;; emit EvConnect ;;
          let db_columns :=
            match db w with
            | Some tb => tcols tb
            | None => columns df     (* the inspection raised: fallback *)
            end in
          let original_cols := columns df in
          let cols_to_upsert := filter (fun col => str_in col db_columns) original_cols in
          let dropped_cols := filter (fun col => negb (str_in col db_columns)) original_cols in
          when (negb (List.length dropped_cols =? 0)) (warn (WDroppedColumns dropped_cols)) ;;
          let data_tuples := rows df in
          let update_cols := filter (fun col => negb (String.eqb col key)) cols_to_upsert in
          execute_values cols_to_upsert key update_cols 0
            (pages_of (List.length data_tuples) 500 data_tuples) ;;
          conn_commit)
         (fun e => conn_rollback ;; raise e))
      conn_close
  else raise (DatabaseError "could not connect").

(** [load_data_to_staging(engine, df)]. *)
Definition load_data_to_staging (df : DataFrame) : M unit :=
  emit EvLoad ;;
  if df_empty df then ret tt
  else if negb (has_column unique_key df)
  then raise (ValueError "Unique key column 'incident_number' missing.")
  else
    try_except
      (create_staging_table df ;; upsert_data df unique_key)
      (fun e => raise e).

Fixpoint max_timestamp (acc : option Timestamp) (ts : list (option Timestamp))
  : option Timestamp :=
  match ts with
  | [] => acc
  | None :: ts' => max_timestamp acc ts'
  | Some t :: ts' =>
      max_timestamp (Some (match acc with
                           | Some a => ts_max a t
                           | None => t
                           end)) ts'
  end.

(** The [latest_processed_timestamp] computed from the fetched frame. *)
Definition latest_timestamp (raw_data_df : DataFrame) : M (option string) :=
  if has_column INCREMENTAL_COLUMN raw_data_df then
    let timestamps := to_datetime L (column_values INCREMENTAL_COLUMN raw_data_df) in
    match max_timestamp None timestamps with
    | Some t => ret (Some (drop_last 3 (strftime t)))
    | None => warn WNoLatestTimestamp ;; ret None
    end
  else warn WIncrementalColumnMissing ;; ret None.

Definition opt_str_eqb (a b : option string) : bool :=
  match a, b with
  | Some x, Some y => String.eqb x y
  | None, None => true
  | _, _ => false
  end.

(** [if latest_processed_timestamp and last_run_ts != latest_processed_timestamp] *)
Definition should_save (last_run_ts latest : option string) : bool :=
  match latest with
  | Some l => nonempty l && negb (opt_str_eqb last_run_ts latest)
  | None => false
  end.

(** The state update of the branch for a frame empty after
    transformation. *)
Definition save_if_new (last_run_ts latest : option string) : M unit :=
  match latest with
  | Some l => when (should_save last_run_ts latest) (save_last_run_timestamp l)
  | None => ret tt
  end.

(** Python truthiness of [latest_processed_timestamp]. *)
Definition truthy (latest : option string) : bool :=
  match latest with
  | Some l => nonempty l
  | None => false
  end.

(** The state update after a successful load. *)
Definition update_state (last_run_ts latest : option string) : M unit :=
  match latest with
  | Some l =>
      if should_save last_run_ts latest then save_last_run_timestamp l
      else if negb (truthy latest) then warn WWatermarkNotUpdated
      else ret tt
  | None => warn WWatermarkNotUpdated
  end.

(** [run_etl()].  A normal return ends the process with status 0. *)
Definition run_etl : M unit :=
  try_finally
    (try_except
       (get_db_engine ;;
        last_run_ts <- get_last_run_timestamp ;;
        r <- fetch_fire_data L E last_run_ts ;;
        match r with
        | None => sys_exit 1%Z
        | Some raw_data_df =>
            if df_empty raw_data_df then sys_exit 0%Z
            else
              latest_processed_timestamp <- latest_timestamp raw_data_df ;;
              transformed_df <- transform_data L raw_data_df ;;
              if df_empty transformed_df then
                save_if_new last_run_ts latest_processed_timestamp ;;
                sys_exit 0%Z
              else
                load_data_to_staging transformed_df ;;
                update_state last_run_ts latest_processed_timestamp
        end)
       (fun _ => sys_exit 1%Z))
    (when (engine_ok E) (emit EvDispose)).

End Pipeline.

(** The status the process ends with. *)
Definition exit_status (o : Outcome unit) : option Z :=
  match o with
  | Ret _ => Some 0%Z
  | Exit c => Some c
  | _ => None
  end.

(* ================================================================== *)
(** ** A concrete library and concrete worlds, for the examples *)

Fixpoint parse_nat_acc (acc : nat) (s : string) : option nat :=
  match s with
  | EmptyString => Some acc
  | String c s' =>
      if is_digit c then parse_nat_acc (10 * acc + (nat_of_ascii c - 48)) s'
      else None
  end.

Definition parse_nat (s : string) : option nat :=
  match s with
  | EmptyString => None
  | _ => parse_nat_acc 0 s
  end.

Definition char_is (i : nat) (c : ascii) (s : string) : bool :=
  match String.get i s with
  | Some c' => Ascii.eqb c c'
  | None => false
  end.

(** Fraction of a second, [.f] to [.ffffff], in microseconds. *)
Definition parse_fraction (s : string) : option nat :=
  match s with
  | EmptyString => Some 0
  | String "."%char f =>
      if (1 <=? String.length f) && (String.length f <=? 6)
      then option_map (fun n => n * 10 ^ (6 - String.length f)) (parse_nat f)
      else None
  | _ => None
  end.

(** Reads [YYYY-MM-DDTHH:MM:SS] with an optional fraction. *)
Definition parse_iso (s : string) : option Timestamp :=
  if char_is 4 "-" s && char_is 7 "-" s && char_is 10 "T" s
     && char_is 13 ":" s && char_is 16 ":" s
  then
    match parse_nat (substring 0 4 s), parse_nat (substring 5 2 s),
          parse_nat (substring 8 2 s), parse_nat (substring 11 2 s),
          parse_nat (substring 14 2 s), parse_nat (substring 17 2 s),
          parse_fraction (substring 19 (String.length s - 19) s) with
    | Some y, Some mo, Some d, Some h, Some mi, Some se, Some us =>
        if (1 <=? mo) && (mo <=? 12) && (1 <=? d) && (d <=? 31)
           && (h <? 24) && (mi <? 60) && (se <? 60)
        then Some (mkTs y mo d h mi se us)
        else None
    | _, _, _, _, _, _, _ => None
    end
  else None.

Definition float_unit : Z := (2 ^ 1074)%Z.

(** A library that reads ISO-8601 timestamps and unsigned integers. *)
Definition sample_lib : PyLib :=
  mkLib
    (fun s => match parse_iso s with Some _ => true | None => false end)
    (fun _ c => match c with Str s => parse_iso s | _ => None end)
    (fun s => option_map (fun n => (Z.of_nat n * float_unit)%Z) (parse_nat s))
    (fun q => str_of_nat (Z.to_nat (q / float_unit))).

(** The API serving the records [data] by [$offset] and [$limit]. *)
Definition slice_api (data : list Record_) : nat -> Request -> Response :=
  fun _ r =>
    Page (firstn (Z.to_nat (req_limit r)) (skipn (Z.to_nat (req_offset r)) data)).

(** Everything reachable and writable, a token set; [a] is the remote
    API. *)
Definition healthy_env (batch_size : Z) (a : nat -> Request -> Response) : Env :=
  mkEnv batch_size (Some "app-token") a true true true (fun _ => false) true true.

Definition world0 (wm : option string) (d : option Table) : World :=
  mkWorld wm d None [].

Definition incident (number : Cell) (ts : Cell) (addr : string) : Record_ :=
  [("incident_number", number); ("response_timestamp", ts); ("address", Str addr)].

Definition numbered (n : nat) : Record_ :=
  [("incident_number", Str (str_of_nat n))].

(* ================================================================== *)
(** ** Observations on worlds and traces *)

Definition add_events (w : World) (evs : list Event) : World :=
  mkWorld (wm_file w) (db w) (txn w) (trace w ++ evs).

Definition is_request (ev : Event) : bool :=
  match ev with EvRequest _ _ => true | _ => false end.

Definition is_save (ev : Event) : bool :=
  match ev with EvSaveWatermark _ => true | _ => false end.

Definition count_requests (evs : list Event) : nat :=
  List.length (filter is_request evs).

Definition count_saves (evs : list Event) : nat :=
  List.length (filter is_save evs).

Definition table_rows (d : option Table) : list Row :=
  match d with
  | Some tb => trows tb
  | None => []
  end.

(** Every row has one cell per column. *)
Definition well_formed (df : DataFrame) : bool :=
  forallb (fun r => List.length r =? List.length (columns df)) (rows df).

(** No page is longer than the [$limit] asked for. *)
Definition honours_limit (E : Env) : Prop :=
  forall k r d, api E k r = Page d -> List.length d <= Z.to_nat (req_limit r).

(** The requests of iterations [from .. from + n - 1]: offsets advance by
    the limit. *)
Definition request_events (limit : Z) (where_ : option string) (from n : nat)
  : list Event :=
  map (fun k => EvRequest k (mkReq limit (Z.of_nat k * limit)%Z where_))
      (seq from n).

Definition ceil_div (t b : nat) : nat := (t + b - 1) / b.

(** The warning of the page cap, logged when ten full pages were read. *)
Definition cap_warning (b total : nat) : list Event :=
  if 10 * b <=? total then [EvWarn WMaxIterations] else [].

(** What the fetch loop may leave in the trace. *)
Definition fetch_event (ev : Event) : Prop :=
  match ev with
  | EvRequest _ _ => True
  | EvWarn WMaxIterations => True
  | EvWarn WNoAppToken => True
  | _ => False
  end.

(** The warning [fetch_fire_data] starts with when no token is set. *)
Definition token_warning (E : Env) : list Event :=
  if token_set E then [] else [EvWarn WNoAppToken].

(** The watermark is absent (or blank), or it parses. *)
Definition accepted (L : PyLib) (ts : option string) : bool :=
  match ts with
  | Some s => negb (nonempty s) || fromisoformat L s
  | None => true
  end.

(** The [$where] parameter of an accepted watermark. *)
Definition where_of (ts : option string) : option string :=
  match ts with
  | Some s => if nonempty s then Some (where_clause s) else None
  | None => None
  end.

(** A source answering every request with three records. *)
Definition oversized_api : nat -> Request -> Response :=
  fun _ _ => Page [numbered 1; numbered 2; numbered 3].


(** Row by row the same lengths, under the same labels. *)
Definition same_shape (df df' : DataFrame) : Prop :=
  columns df' = columns df /\
  map (@List.length Cell) (rows df') = map (@List.length Cell) (rows df).




(** What the quality checks log around the resolution of duplicates,
    given the number of missing keys. *)
Definition missing_key_warning (missing : nat) : list Warning :=
  if 0 <? missing then [WMissingPK missing] else [].

Definition issues_warning (missing : nat) : list Warning :=
  if 0 <? missing then [WDQIssues] else [].

(** Key 123 twice, the later version first; key 456 once. *)
Definition dup_frame : DataFrame :=
  mkDF ["incident_number"; "response_timestamp"; "address"]
       [ [Str "123"; Str "2024-03-02T00:00:00.000"; Str "new"];
         [Str "123"; Str "2024-03-01T00:00:00.000"; Str "old"];
         [Str "456"; Str "2024-03-01T00:00:00.000"; Str "other"] ].


(** [w'] is [w] after the events [evs], the watermark file untouched. *)
Definition runs_to (w w' : World) (evs : list Event) : Prop :=
  wm_file w' = wm_file w /\ trace w' = (trace w ++ evs)%list.

(** The columns [upsert_data] finds in the table ([db_columns]), those
    it lists in the statement and those it reports as ignored. *)
Definition db_columns_of (d : option Table) (df : DataFrame) : list string :=
  match d with
  | Some tb => tcols tb
  | None => columns df
  end.

Definition cols_to_upsert_of (d : option Table) (df : DataFrame) : list string :=
  filter (fun col => str_in col (db_columns_of d df)) (columns df).

Definition dropped_cols_of (d : option Table) (df : DataFrame) : list string :=
  filter (fun col => negb (str_in col (db_columns_of d df))) (columns df).

(** The statements [upsert_data] sends, started in the world [w1]. *)
Definition upsert_statements (E : Env) (d : option Table) (df : DataFrame)
  (key : string) : M unit :=
  execute_values E (cols_to_upsert_of d df) key
    (filter (fun col => negb (String.eqb col key)) (cols_to_upsert_of d df))
    0 (pages_of (List.length (rows df)) 500 (rows df)).

(** The world in which the statements start: connected, the given
    trace. *)
Definition connected (w : World) (tr : list Event) : World :=
  mkWorld (wm_file w) (db w) (Some (db w)) tr.

(** A table that lags behind the source: it has no [address] column. *)
Definition lagging_table : Table :=
  mkTable ["incident_number"; "response_timestamp"] "incident_number"
          [[Str "1"; Str "2024-01-01T00:00:00.000"]].

Definition drifted_frame : DataFrame :=
  mkDF ["incident_number"; "response_timestamp"; "address"]
       [[Str "2"; Str "2024-02-01T00:00:00.000"; Str "1 Main St"]].

(** 500 keyed rows followed by a row without key: two pages, the second
    of which the server refuses. *)
Definition two_page_frame : DataFrame :=
  mkDF ["incident_number"; "address"]
       (map (fun n => [Str (str_of_nat n); Str "x"]) (seq 0 500)
          ++ [[NA; Str "y"]]).

Definition small_table : Table :=
  mkTable ["incident_number"; "address"] "incident_number"
          [[Str "7"; Str "before"]].


(** The watermark [get_last_run_timestamp] reads in the world [w]. *)
Definition read_watermark (w : World) : option string :=
  match wm_file w with
  | Some content => if nonempty (strip content) then Some (strip content) else None
  | None => None
  end.

(** One fetched record with a missing key next to a keyed one. *)
Definition missing_key_records : list Record_ :=
  [ incident (Str "1") (Str "2024-01-01T00:00:00.000") "x";
    incident NA (Str "2024-02-01T00:00:00.000") "y" ].

(** Two records older than the watermark 2024-06-01. *)
Definition old_records : list Record_ :=
  [ incident (Str "1") (Str "2024-01-01T00:00:00.000") "x";
    incident (Str "2") (Str "2024-02-01T00:00:00.000") "y" ].

Definition save_events (saved : option string) : list Event :=
  match saved with
  | Some ts => [EvSaveWatermark ts]
  | None => []
  end.

(** The ways a run can go, with what each step returned: the outcome,
    the final world and the events of the run. *)
Inductive run_path (L : PyLib) (E : Env) (w : World)
  : Outcome unit -> World -> list Event -> Prop :=
| path_no_engine :
    engine_ok E = false ->
    run_path L E w (Exit 1) w []
| path_fetch_failed evs1 :
    engine_ok E = true ->
    fetch_fire_data L E (read_watermark w) w = (Ret None, add_events w evs1) ->
    Forall fetch_event evs1 ->
    run_path L E w (Exit 1) (add_events w (evs1 ++ [EvDispose]))
      (evs1 ++ [EvDispose])
| path_no_new_data evs1 raw :
    engine_ok E = true ->
    fetch_fire_data L E (read_watermark w) w = (Ret (Some raw), add_events w evs1) ->
    Forall fetch_event evs1 ->
    df_empty raw = true ->
    run_path L E w (Exit 0) (add_events w (evs1 ++ [EvDispose]))
      (evs1 ++ [EvDispose])
| path_transform_failed evs1 raw latest ws2 e ws3 :
    engine_ok E = true ->
    fetch_fire_data L E (read_watermark w) w = (Ret (Some raw), add_events w evs1) ->
    Forall fetch_event evs1 ->
    df_empty raw = false ->
    latest_timestamp L raw (add_events w evs1)
      = (Ret latest, add_events w (evs1 ++ map EvWarn ws2)) ->
    transform_data L raw (add_events w (evs1 ++ map EvWarn ws2))
      = (Raise e, add_events w (evs1 ++ map EvWarn ws2 ++ map EvWarn ws3)) ->
    run_path L E w (Exit 1)
      (add_events w (evs1 ++ map EvWarn ws2 ++ map EvWarn ws3 ++ [EvDispose]))
      (evs1 ++ map EvWarn ws2 ++ map EvWarn ws3 ++ [EvDispose])
| path_load_failed evs1 raw latest ws2 df ws3 e w4 evs4 :
    engine_ok E = true ->
    fetch_fire_data L E (read_watermark w) w = (Ret (Some raw), add_events w evs1) ->
    Forall fetch_event evs1 ->
    df_empty raw = false ->
    latest_timestamp L raw (add_events w evs1)
      = (Ret latest, add_events w (evs1 ++ map EvWarn ws2)) ->
    transform_data L raw (add_events w (evs1 ++ map EvWarn ws2))
      = (Ret df, add_events w (evs1 ++ map EvWarn ws2 ++ map EvWarn ws3)) ->
    df_empty df = false ->
    load_data_to_staging E df (add_events w (evs1 ++ map EvWarn ws2 ++ map EvWarn ws3))
      = (Raise e, w4) ->
    runs_to (add_events w (evs1 ++ map EvWarn ws2 ++ map EvWarn ws3)) w4 evs4 ->
    count_saves evs4 = 0 -> In EvLoad evs4 -> ~ In EvCommit evs4 ->
    table_rows (db w4) = table_rows (db w) ->
    run_path L E w (Exit 1) (add_events w4 [EvDispose])
      (evs1 ++ map EvWarn ws2 ++ map EvWarn ws3 ++ evs4 ++ [EvDispose])
| path_loaded evs1 raw latest ws2 df ws3 w4 evs4 saved ws5 w5 :
    engine_ok E = true ->
    fetch_fire_data L E (read_watermark w) w = (Ret (Some raw), add_events w evs1) ->
    Forall fetch_event evs1 ->
    df_empty raw = false ->
    latest_timestamp L raw (add_events w evs1)
      = (Ret latest, add_events w (evs1 ++ map EvWarn ws2)) ->
    transform_data L raw (add_events w (evs1 ++ map EvWarn ws2))
      = (Ret df, add_events w (evs1 ++ map EvWarn ws2 ++ map EvWarn ws3)) ->
    df_empty df = false ->
    load_data_to_staging E df (add_events w (evs1 ++ map EvWarn ws2 ++ map EvWarn ws3))
      = (Ret tt, w4) ->
    runs_to (add_events w (evs1 ++ map EvWarn ws2 ++ map EvWarn ws3)) w4 evs4 ->
    count_saves evs4 = 0 -> In EvLoad evs4 -> In EvCommit evs4 ->
    update_state E (read_watermark w) latest w4 = (Ret tt, w5) ->
    match saved with
    | Some ts =>
        latest = Some ts /\ should_save (read_watermark w) latest = true /\
        ws5 = [] /\
        w5 = mkWorld (Some ts) (db w4) (txn w4) (trace w4 ++ [EvSaveWatermark ts])
    | None => w5 = add_events w4 (map EvWarn ws5)
    end ->
    run_path L E w (Ret tt) (add_events w5 [EvDispose])
      (evs1 ++ map EvWarn ws2 ++ map EvWarn ws3 ++ evs4
         ++ save_events saved ++ map EvWarn ws5 ++ [EvDispose]).

(* ================================================================== *)
(** ** Proof steps used throughout *)

(** Membership in a concatenation of event lists. *)
Ltac find_in :=
  first [ assumption
        | now left
        | apply in_or_app; first [ left; find_in | right; find_in ]
        | right; find_in ].

Ltac not_in H :=
  repeat (apply in_app_or in H as [H | H]); try contradiction;
  simpl in H; intuition discriminate.

(* ================================================================== *)
(** ** Observations on the requests of a fetch *)

(** The request of iteration [k]: the limit is the batch size, the
    offset has advanced by it [k] times. *)
Definition request_of (E : Env) (where_ : option string) (k : nat) : Request :=
  mkReq (BATCH_SIZE E) (Z.of_nat k * BATCH_SIZE E)%Z where_.

(** The records the source sends back at iteration [k]. *)
Definition page_of (E : Env) (where_ : option string) (k : nat) : list Record_ :=
  match api E k (request_of E where_ k) with
  | Page d => d
  | HttpError => []
  end.

Definition request_fails (E : Env) (where_ : option string) (k : nat) : bool :=
  match api E k (request_of E where_ k) with
  | HttpError => true
  | Page _ => false
  end.

(** The page of iteration [k] is neither empty nor shorter than the
    limit: the loop goes on after it. *)
Definition full_page (E : Env) (where_ : option string) (k : nat) : bool :=
  match api E k (request_of E where_ k) with
  | HttpError => false
  | Page d =>
      negb (List.length d =? 0)
      && negb (Z.of_nat (List.length d) <? BATCH_SIZE E)%Z
  end.

(** The pages of iterations [0 .. n - 1], one after the other. *)
Definition pages_upto (E : Env) (where_ : option string) (n : nat)
  : list Record_ :=
  List.concat (map (page_of E where_) (seq 0 n)).

(** A source whose third answer is an error; full pages of two records
    before. *)
Definition flaky_api : nat -> Request -> Response :=
  fun k _ => if k =? 2 then HttpError else Page [numbered (2 * k); numbered (2 * k + 1)].

(* ================================================================== *)
(** ** Observations on column names and conversions *)

Fixpoint all_chars (p : ascii -> bool) (s : string) : bool :=
  match s with
  | EmptyString => true
  | String c s' => p c && all_chars p s'
  end.


(** The final name of column [i], given all the cleaned names: a name
    that [k] earlier columns have too gets the suffix [_k]. *)
Definition renamed (new_columns : list string) (i : nat) : string :=
  let col := nth i new_columns "" in
  let k := count_label col (firstn i new_columns) in
  if k =? 0 then col else col ++ "_" ++ str_of_nat k.

(** The entry of [EXPECTED_DTYPES] for a label. *)
Definition dtype_of (l : list (string * Dtype)) (col : string) : option Dtype :=
  option_map snd (find (fun cd => String.eqb col (fst cd)) l).

(** What the first loop of [convert_data_types] makes of a value of the
    column [col]. *)
Definition convert_value (L : PyLib) (l : list (string * Dtype)) (col : string)
  (v : Cell) : Cell :=
  match dtype_of l col with
  | Some DString => astype_string L v
  | Some DInt64 | Some DFloat64 => to_numeric L v
  | None => v
  end.

(** What both loops make of the values of the column [col]. *)
Definition convert_values (L : PyLib) (col : string) (vs : list Cell)
  : list Cell :=
  let vs := map (convert_value L EXPECTED_DTYPES col) vs in
  if str_in col DATETIME_COLUMNS
  then map format_or_empty (to_datetime L vs)
  else vs.

(** The warnings of [clean_column_names], column by column. *)
Definition rename_warning_at (original new_columns : list string) (i : nat)
  : list Warning :=
  if count_label (nth i new_columns "") (firstn i new_columns) =? 0 then []
  else [WDuplicateColumnName (nth i original "") (renamed new_columns i)].


(* ================================================================== *)
(** ** Observations on the watermark *)

Definition first_char (s : string) : option ascii :=
  match s with
  | EmptyString => None
  | String c _ => Some c
  end.



(** The state file cannot be written; all else as in [healthy_env]. *)
Definition readonly_env (batch_size : Z) (a : nat -> Request -> Response) : Env :=
  mkEnv batch_size (Some "app-token") a true true true (fun _ => false) true false.

(* ================================================================== *)
(** ** Observations on the staging table *)

(** The value a row laid out by [cols] holds under the label [c]. *)
Definition field (cols : list string) (c : string) (r : Row) : Cell :=
  match index_of c cols with
  | Some j => cell_at j r
  | None => NA
  end.



(** The rows after the new rows were put one after the other. *)
Definition put_all (cols : list string) (key : string) (tc : list string)
  (ki : nat) (news : list Row) (rs : list Row) : list Row :=
  fold_left (fun rs new => Pg.put cols key tc ki new rs) news rs.

(** The statements of [execute_values], page after page, against the
    working state [t]; [None]: the server refuses one of them. *)
Fixpoint run_statements (cols : list string) (key : string)
  (update_cols : list string) (pages : list (list Row)) (t : option Table)
  : option (option Table) :=
  match pages with
  | [] => Some t
  | p :: pages' =>
      match Pg.insert_on_conflict cols key update_cols p t with
      | Some tb => run_statements cols key update_cols pages' (Some tb)
      | None => None
      end
  end.

(** No fault of the link while the pages [from .. from + n - 1] are
    executed. *)
Definition no_fault (E : Env) (from n : nat) : bool :=
  forallb (fun i => negb (page_fault E i)) (seq from n).

(** The pages [upsert_data] hands to [execute_values] and the columns
    it lists in the SET clause. *)
Definition pages_of_frame (df : DataFrame) : list (list Row) :=
  pages_of (List.length (rows df)) 500 (rows df).

Definition update_cols_of (d : option Table) (df : DataFrame) (key : string)
  : list string :=
  filter (fun col => negb (String.eqb col key)) (cols_to_upsert_of d df).

(** What a successful [upsert_data] leaves in the trace. *)
Definition upsert_events (d : option Table) (df : DataFrame) : list Event :=
  ([EvConnect]
     ++ (if List.length (dropped_cols_of d df) =? 0 then []
         else [EvWarn (WDroppedColumns (dropped_cols_of d df))])
     ++ map EvExecute (seq 0 (List.length (pages_of_frame df)))
     ++ [EvCommit; EvClose])%list.

(** What the server checks of the statement itself: columns listed and
    columns to update, all of them columns of the table and none twice,
    the conflict target the primary key. *)
Definition statement_ok (cols : list string) (key : string)
  (update_cols : list string) (tb : Table) : bool :=
  negb (List.length cols =? 0) && negb (List.length update_cols =? 0)
  && str_in key (tcols tb)
  && forallb (fun c => str_in c (tcols tb)) cols
  && Pg.nodup_labels cols && String.eqb key (tkey tb).

(** What it checks of the keys of one statement: none missing, none
    among the keys [affected] so far, none twice. *)
Fixpoint keys_fresh (cols : list string) (key : string) (affected : list Cell)
  (tuples : list Row) : bool :=
  match tuples with
  | [] => true
  | t :: tuples' =>
      let kv := field cols key t in
      negb (isnull kv) && negb (existsb (Cell_eqb kv) affected)
      && keys_fresh cols key (kv :: affected) tuples'
  end.

(** Every page is accepted: as many values as columns in each tuple,
    and its keys in order. *)
Definition batch_ok (cols : list string) (key : string)
  (pages : list (list Row)) : bool :=
  forallb (fun p => forallb (fun t => List.length t =? List.length cols) p
                    && keys_fresh cols key [] p) pages.

(** A new version of incident 7 and a new incident 8. *)
Definition revised_frame : DataFrame :=
  mkDF ["incident_number"; "address"]
       [[Str "7"; Str "after"]; [Str "8"; Str "new"]].


(** The end of [upsert_data] after the events [pre] on the connection:
    the handler rolls back and the [finally] clause closes. *)
Ltac not_on_connection Hnot :=
  let Hin := fresh "Hin" in
  intro Hin; apply in_app_or in Hin as [Hin | [Hin | []]]; [|discriminate];
  revert Hin; now apply Hnot.

Ltac rolled_back_and_closed pre Hpre Hnot :=
  cbv [conn_close conn_rollback conn_commit bind get_world set_txn set_db
       raise emit];
  cbn [wm_file db txn trace];
  eexists _, _, (pre ++ [EvRollback])%list; split; [reflexivity|];
  cbn [trace txn]; rewrite Hpre;
  split; [now rewrite <- !app_assoc|]; split; [reflexivity|];
  split; [|split];
  [ not_on_connection Hnot
  | not_on_connection Hnot
  | right; eexists _, pre; split; [reflexivity|]; split; [reflexivity|];
    now apply Hnot ].
(* ================================================================== *)
(** * Properties *)

(** ** The monad *)

Lemma add_events_nil w : add_events w [] = w.
Proof. destruct w; unfold add_events; simpl. now rewrite app_nil_r. Qed.

Lemma add_events_app w a b :
  add_events (add_events w a) b = add_events w (a ++ b).
Proof. unfold add_events; simpl. now rewrite app_assoc. Qed.

Lemma emit_eq ev w : emit ev w = (Ret tt, add_events w [ev]).
Proof. reflexivity. Qed.

Lemma count_requests_app a b :
  count_requests (a ++ b) = count_requests a + count_requests b.
Proof. unfold count_requests. now rewrite filter_app, length_app. Qed.

Lemma count_saves_app a b :
  count_saves (a ++ b) = count_saves a + count_saves b.
Proof. unfold count_saves. now rewrite filter_app, length_app. Qed.

(** ** Extraction *)

Section ExtractFacts.
Variable L : PyLib.
Variable E : Env.

Lemma fetch_loop_bounded fuel : forall ic off wh acc w,
  max_iterations <= ic + fuel -> 1 <= fuel ->
  exists r evs,
    fetch_loop E fuel ic off wh acc w = (Ret r, add_events w evs) /\
    1 <= count_requests evs <= fuel /\
    Forall fetch_event evs /\
    (honours_limit E ->
     forall data, r = Some data ->
       List.length data <= List.length acc + fuel * Z.to_nat (BATCH_SIZE E)).
Proof.
  induction fuel as [|fuel IH]; intros ic off wh acc w Hcap Hfuel; [lia|].
  cbn [fetch_loop]. unfold bind at 1. rewrite emit_eq.
  set (rq := mkReq (BATCH_SIZE E) off wh).
  assert (Hone : count_requests [EvRequest ic rq] = 1) by reflexivity.
  assert (Hone' : count_requests [EvRequest ic rq; EvWarn WMaxIterations] = 1)
    by reflexivity.
  destruct (api E ic rq) as [|d] eqn:Hapi.
  - exists None, [EvRequest ic rq].
    split; [reflexivity|]. split; [lia|]. split.
    + constructor; simpl; auto.
    + discriminate.
  - destruct d as [|r0 d'].
    + exists (Some acc), [EvRequest ic rq].
      split; [reflexivity|]. split; [lia|]. split.
      * constructor; simpl; auto.
      * intros HL data [= <-]. nia.
    + set (d := r0 :: d') in *.
      cbv zeta.
      destruct (Z.of_nat (List.length d) <? BATCH_SIZE E)%Z eqn:Hshort.
      * exists (Some (acc ++ d)%list), [EvRequest ic rq].
        split; [reflexivity|]. split; [lia|]. split.
        -- constructor; simpl; auto.
        -- intros HL data [= <-]. apply HL in Hapi. simpl req_limit in Hapi.
           rewrite length_app. nia.
      * destruct (max_iterations <=? ic + 1) eqn:Hmax.
        -- exists (Some (acc ++ d)%list), [EvRequest ic rq; EvWarn WMaxIterations].
           unfold bind, warn. rewrite emit_eq, add_events_app.
           split; [reflexivity|]. split; [lia|]. split.
           ++ repeat constructor; simpl; auto.
           ++ intros HL data [= <-]. apply HL in Hapi. simpl req_limit in Hapi.
              rewrite length_app. nia.
        -- apply Nat.leb_gt in Hmax.
           destruct (IH (ic + 1) (off + BATCH_SIZE E)%Z wh (acc ++ d)%list
                        (add_events w [EvRequest ic rq]))
             as (r & evs & Heq & Hcnt & Hall & Hlen); [lia | lia |].
           exists r, ([EvRequest ic rq] ++ evs)%list.
           rewrite Heq, add_events_app.
           split; [reflexivity|]. rewrite count_requests_app, Hone.
           split; [lia|]. split.
           ++ constructor; simpl; auto.
           ++ intros HL data Hd. pose proof (Hlen HL data Hd) as H1.
              apply HL in Hapi. simpl req_limit in Hapi.
              rewrite length_app in H1. nia.
Qed.


Lemma rows_frame_of recs : List.length (rows (frame_of recs)) = List.length recs.
Proof.
  destruct recs as [|r recs]; [reflexivity|].
  unfold frame_of, DataFrame_of_records. cbn [rows]. now rewrite length_map.
Qed.

Lemma paginate_cases wh w :
  exists r evs,
    paginate E wh w = (Ret r, add_events w evs) /\
    count_requests evs <= 10 /\
    Forall fetch_event evs /\
    (honours_limit E ->
     forall df, r = Some df ->
       List.length (rows df) <= 10 * Z.to_nat (BATCH_SIZE E)).
Proof.
  unfold paginate, bind.
  destruct (fetch_loop_bounded max_iterations 0 0%Z wh [] w)
    as (r & evs & Heq & Hcnt & Hall & Hlen);
    [unfold max_iterations; lia | unfold max_iterations; lia |].
  rewrite Heq. destruct r as [all_data|].
  - exists (Some (frame_of all_data)), evs.
    split; [reflexivity|]. split; [unfold max_iterations in Hcnt; lia|].
    split; [assumption|].
    intros HL df [= <-]. rewrite rows_frame_of.
    pose proof (Hlen HL all_data eq_refl) as H1.
    unfold max_iterations in H1. simpl List.length in H1. lia.
  - exists None, evs. split; [reflexivity|].
    split; [unfold max_iterations in Hcnt; lia|].
    split; [assumption|]. discriminate.
Qed.

Lemma token_warning_requests : count_requests (token_warning E) = 0.
Proof. unfold token_warning. destruct (token_set E); reflexivity. Qed.

Lemma token_warning_fetch : Forall fetch_event (token_warning E).
Proof.
  unfold token_warning. destruct (token_set E); repeat constructor.
Qed.

(** [fetch_fire_data]: the token warning, then either the failure value
    for a watermark that does not parse, or the pagination. *)
Lemma fetch_fire_data_unfold ts w :
  fetch_fire_data L E ts w
  = if accepted L ts
    then paginate E (where_of ts) (add_events w (token_warning E))
    else (Ret None, add_events w (token_warning E)).
Proof.
  unfold fetch_fire_data, token_warning, accepted, where_of, when.
  unfold bind at 1.
  assert (Hw : (if negb (token_set E) then warn WNoAppToken else ret tt) w
               = (Ret tt, add_events w (if token_set E then [] else [EvWarn WNoAppToken]))).
  { destruct (token_set E); simpl.
    - unfold ret. now rewrite add_events_nil.
    - reflexivity. }
  rewrite Hw. destruct ts as [s|]; [|reflexivity].
  destruct (nonempty s); [|reflexivity]. simpl.
  destruct (fromisoformat L s); reflexivity.
Qed.

(** [fetch_fire_data] always returns, leaving requests, the token
    warning and the cap warning only. *)
Lemma fetch_fire_data_returns ts w :
  exists r evs,
    fetch_fire_data L E ts w = (Ret r, add_events w evs) /\
    Forall fetch_event evs.
Proof.
  rewrite fetch_fire_data_unfold. destruct (accepted L ts).
  - destruct (paginate_cases (where_of ts) (add_events w (token_warning E)))
      as (r & evs & Heq & _ & Hall & _).
    exists r, (token_warning E ++ evs)%list. rewrite Heq, add_events_app.
    split; [reflexivity|]. apply Forall_app. split; [apply token_warning_fetch | exact Hall].
  - exists None, (token_warning E). split; [reflexivity | apply token_warning_fetch].
Qed.

(** C9 (as amended).  Whatever the watermark, the configuration and the
    answers of the source, [fetch_fire_data] returns (the loop never
    exhausts its fuel) after at most [max_iterations] = 10 requests and
    leaves only requests, the token warning and the cap warning in the
    trace; when the source honours [$limit], the returned batch has at
    most 10 * BATCH_SIZE rows (BATCH_SIZE read as 0 when negative). *)
Theorem fetch_at_most_ten_pages : forall ts w,
  exists r evs,
    fetch_fire_data L E ts w = (Ret r, add_events w evs) /\
    count_requests evs <= max_iterations /\
    max_iterations = 10 /\
    Forall fetch_event evs /\
    (honours_limit E ->
     forall df, r = Some df ->
       List.length (rows df) <= 10 * Z.to_nat (BATCH_SIZE E)).
Proof.
  intros ts w. rewrite fetch_fire_data_unfold. destruct (accepted L ts).
  - destruct (paginate_cases (where_of ts) (add_events w (token_warning E)))
      as (r & evs & Heq & Hc & Hall & Hlen).
    exists r, (token_warning E ++ evs)%list. rewrite Heq, add_events_app.
    split; [reflexivity|].
    rewrite count_requests_app, token_warning_requests.
    split; [unfold max_iterations; lia|]. split; [reflexivity|].
    split; [|exact Hlen].
    apply Forall_app. split; [apply token_warning_fetch | exact Hall].
  - exists None, (token_warning E). split; [reflexivity|].
    rewrite token_warning_requests. split; [lia|]. split; [reflexivity|].
    split; [apply token_warning_fetch | discriminate].
Qed.

End ExtractFacts.

(** Witness of [fetch_at_most_ten_pages]: a source of five records
    served two at a time. *)
Lemma fetch_at_most_ten_pages_witness :
  let E := healthy_env 2 (slice_api (map numbered (seq 0 5))) in
  exists r evs,
    fetch_fire_data sample_lib E None (world0 None None)
      = (Ret r, add_events (world0 None None) evs) /\
    count_requests evs <= 10 /\
    exists df, r = Some df /\
      List.length (rows df) <= 10 * Z.to_nat (BATCH_SIZE E).
Proof.
  intro E.
  destruct (fetch_at_most_ten_pages sample_lib E None (world0 None None))
    as (r & evs & Heq & Hcnt & _ & _ & Hlen).
  exists r, evs. split; [exact Heq|]. split; [exact Hcnt|].
  assert (HL : honours_limit E).
  { intros k rq d Hd. unfold E, healthy_env, slice_api in Hd. simpl in Hd.
    injection Hd as <-. rewrite length_firstn. apply Nat.le_min_l. }
  destruct r as [df|].
  - exists df. split; [reflexivity|]. apply (Hlen HL df eq_refl).
  - vm_compute in Heq. discriminate Heq.
Defined.

(** Counterexample to C9 as stated ("for every source response ... at
    most 10 x BATCH_SIZE records"): with BATCH_SIZE = 2 and a source
    that answers every request with three records, ten pages are
    fetched and the batch has 30 rows, more than 10 * 2. *)
Lemma batch_can_exceed_ten_batches :
  let E := healthy_env 2 oversized_api in
  exists df,
    fst (fetch_fire_data sample_lib E None (world0 None None)) = Ret (Some df) /\
    List.length (rows df) = 30 /\
    ~ List.length (rows df) <= 10 * Z.to_nat (BATCH_SIZE E).
Proof.
  intro E. eexists. split; [vm_compute; reflexivity|].
  split; [reflexivity|]. vm_compute. lia.
Qed.

(** C6.  A watermark that is present but does not parse: the extractor
    returns the failure value having at most logged the token warning
    (no request is issued), and the run started on such a state file
    ends with status 1 having only disposed of the engine: no request,
    no load, the watermark file and the table as they were. *)
Theorem unparseable_watermark_aborts : forall L E w content,
  wm_file w = Some content ->
  nonempty (strip content) = true ->
  fromisoformat L (strip content) = false ->
  fetch_fire_data L E (Some (strip content)) w
    = (Ret None, add_events w (token_warning E)) /\
  run_etl L E w
    = (Exit 1,
       add_events w (if engine_ok E then token_warning E ++ [EvDispose] else [])) /\
  exit_status (fst (run_etl L E w)) = Some 1%Z /\
  wm_file (snd (run_etl L E w)) = wm_file w /\
  db (snd (run_etl L E w)) = db w /\
  count_requests (trace (snd (run_etl L E w))) = count_requests (trace w) /\
  count_saves (trace (snd (run_etl L E w))) = count_saves (trace w) /\
  ~ In EvLoad (if engine_ok E then token_warning E ++ [EvDispose] else []).
Proof.
  intros L E w content Hfile Hne Hbad.
  assert (Hfetch : fetch_fire_data L E (Some (strip content)) w
                   = (Ret None, add_events w (token_warning E))).
  { rewrite fetch_fire_data_unfold. unfold accepted. now rewrite Hne, Hbad. }
  assert (Hrun : run_etl L E w
    = (Exit 1,
       add_events w (if engine_ok E then token_warning E ++ [EvDispose] else []))).
  { cbv [run_etl try_finally try_except bind get_db_engine
           get_last_run_timestamp get_world when ret raise sys_exit].
    destruct (engine_ok E).
    - rewrite Hfile, Hne, Hfetch. now rewrite emit_eq, add_events_app.
    - now rewrite add_events_nil. }
  split; [exact Hfetch|]. split; [exact Hrun|]. rewrite Hrun. simpl.
  split; [reflexivity|]. split; [reflexivity|]. split; [reflexivity|].
  assert (Htok : forall ev, In ev (token_warning E) -> ev = EvWarn WNoAppToken).
  { intros ev. unfold token_warning. destruct (token_set E); simpl; intuition. }
  split; [|split].
  - rewrite count_requests_app.
    destruct (engine_ok E); [|unfold count_requests; simpl; lia].
    rewrite count_requests_app, token_warning_requests. unfold count_requests. simpl. lia.
  - rewrite count_saves_app.
    destruct (engine_ok E); [|unfold count_saves; simpl; lia].
    rewrite count_saves_app. unfold token_warning.
    destruct (token_set E); unfold count_saves; simpl; lia.
  - destruct (engine_ok E); [|intros []].
    intro Hin. apply in_app_or in Hin as [Hin | [Hin | []]]; [|discriminate].
    apply Htok in Hin. discriminate.
Qed.

(** Witness of [unparseable_watermark_aborts]: the state file holds
    ["yesterday"]. *)
Lemma unparseable_watermark_aborts_witness :
  let E := healthy_env 2000 (slice_api [numbered 1]) in
  let w := world0 (Some "yesterday") None in
  run_etl sample_lib E w = (Exit 1, add_events w [EvDispose]) /\
  wm_file (snd (run_etl sample_lib E w)) = Some "yesterday".
Proof.
  intros E w.
  destruct (@unparseable_watermark_aborts sample_lib E w "yesterday"
              eq_refl eq_refl eq_refl) as (_ & Hrun & _ & Hwm & _).
  split; [exact Hrun | exact Hwm].
Defined.

(** ** Pagination against a source that serves slices *)

Lemma firstn_add {A} (a b : nat) (l : list A) :
  firstn (a + b) l = (firstn a l ++ firstn b (skipn a l))%list.
Proof.
  revert l; induction a as [|a IH]; intros [|x l]; simpl; auto.
  - now rewrite firstn_nil.
  - now rewrite IH.
Qed.

Lemma request_events_cons limit wh from n :
  request_events limit wh from (S n)
  = EvRequest from (mkReq limit (Z.of_nat from * limit)%Z wh)
      :: request_events limit wh (S from) n.
Proof. reflexivity. Qed.

Section SliceSource.
Variable E : Env.
Variable b : nat.
Variable data : list Record_.
Hypothesis Hb : 0 < b.
Hypothesis Hsize : BATCH_SIZE E = Z.of_nat b.
Hypothesis Hapi : api E = slice_api data.

Variable L : PyLib.


Lemma fetch_loop_slices fuel : forall ic wh w,
  ic + fuel = 10 -> 1 <= fuel -> ic * b <= (List.length data) ->
  fetch_loop E fuel ic (Z.of_nat ic * Z.of_nat b)%Z wh (firstn (ic * b) data) w
  = (Ret (Some (firstn (10 * b) data)),
     add_events w
       (request_events (Z.of_nat b) wh ic (Nat.min ((List.length data) / b + 1) 10 - ic)
          ++ cap_warning b (List.length data))).
Proof.
  induction fuel as [|fuel IH]; intros ic wh w Hsum Hfuel Hic; [lia|].
  cbn [fetch_loop]. unfold bind at 1. rewrite emit_eq.
  rewrite Hsize, Hapi. unfold slice_api at 1. cbn [req_limit req_offset].
  rewrite Nat2Z.id, <- Nat2Z.inj_mul, Nat2Z.id.
  set (p := firstn b (skipn (ic * b) data)).
  assert (Hlen : List.length p = Nat.min b ((List.length data) - ic * b)).
  { unfold p. now rewrite length_firstn, length_skipn. }
  assert (Happ : (firstn (ic * b) data ++ p)%list = firstn ((ic + 1) * b) data).
  { unfold p. rewrite <- firstn_add. f_equal. lia. }
  assert (Hall : forall n, (List.length data) <= n -> firstn n data = data).
  { intros n Hn. now apply firstn_all2. }
  destruct p as [|r0 p'] eqn:Hp.
  - (* an empty page *)
    simpl in Hlen. assert (HT : (List.length data) = ic * b) by lia.
    assert (Hdiv : (List.length data) / b = ic) by (rewrite HT; apply Nat.div_mul; lia).
    rewrite Hdiv. replace (Nat.min (ic + 1) 10 - ic) with 1 by lia.
    unfold cap_warning. replace (10 * b <=? (List.length data)) with false
      by (symmetry; apply Nat.leb_gt; nia).
    rewrite !Hall by nia. rewrite Nat2Z.inj_mul. reflexivity.
  - rewrite <- Hp in *. clear Hp. cbv zeta. rewrite Happ.
    destruct (Z.of_nat (List.length p) <? Z.of_nat b)%Z eqn:Hshort.
    + (* a short page *)
      apply Z.ltb_lt in Hshort.
      assert (Hdiv : (List.length data) / b = ic).
      { symmetry. apply (Nat.div_unique (List.length data) b ic ((List.length data) - ic * b)); lia. }
      rewrite Hdiv. replace (Nat.min (ic + 1) 10 - ic) with 1 by lia.
      unfold cap_warning. replace (10 * b <=? (List.length data)) with false
        by (symmetry; apply Nat.leb_gt; nia).
      rewrite !Hall by nia. rewrite Nat2Z.inj_mul. reflexivity.
    + (* a full page *)
      apply Z.ltb_ge in Hshort.
      assert (Hfull : (ic + 1) * b <= (List.length data)) by nia.
      assert (Hdiv : ic + 1 <= (List.length data) / b).
      { apply Nat.div_le_lower_bound; lia. }
      destruct (max_iterations <=? ic + 1) eqn:Hmax.
      * apply Nat.leb_le in Hmax. unfold max_iterations in Hmax.
        assert (ic = 9) by lia. subst ic.
        replace (Nat.min ((List.length data) / b + 1) 10 - 9) with 1 by lia.
        unfold cap_warning. replace (10 * b <=? (List.length data)) with true
          by (symmetry; apply Nat.leb_le; lia).
        unfold bind, warn. rewrite emit_eq, add_events_app.
        rewrite Nat2Z.inj_mul. reflexivity.
      * apply Nat.leb_gt in Hmax. unfold max_iterations in Hmax.
        replace (Z.of_nat (ic * b) + Z.of_nat b)%Z
          with (Z.of_nat (ic + 1) * Z.of_nat b)%Z by lia.
        rewrite IH by lia. rewrite add_events_app.
        replace (Nat.min ((List.length data) / b + 1) 10 - ic)
          with (S (Nat.min ((List.length data) / b + 1) 10 - (ic + 1))) by lia.
        rewrite request_events_cons.
        replace (S ic) with (ic + 1) by lia.
        rewrite Nat2Z.inj_mul. reflexivity.
Qed.


Lemma count_request_events limit wh n : forall from,
  count_requests (request_events limit wh from n) = n.
Proof.
  induction n as [|n IH]; intro from; [reflexivity|].
  rewrite request_events_cons. unfold count_requests in *. simpl.
  now rewrite IH.
Qed.

Lemma ceil_div_cases :
  ((List.length data) mod b <> 0 -> ceil_div (List.length data) b = (List.length data) / b + 1) /\
  ((List.length data) mod b = 0 -> ceil_div (List.length data) b = (List.length data) / b).
Proof.
  unfold ceil_div. pose proof (Nat.div_mod_eq (List.length data) b) as Hdm.
  pose proof (Nat.mod_upper_bound (List.length data) b ltac:(lia)) as Hlt.
  split; intro Hm.
  - symmetry. apply (Nat.div_unique _ b _ ((List.length data) mod b - 1)); lia.
  - symmetry. apply (Nat.div_unique _ b _ (b - 1)); lia.
Qed.

(** Against the slice source the fetch is determined: the first ten
    pages in order, one request per page and one for the page that
    stops the loop. *)
Lemma fetch_fire_data_slices ts w :
  accepted L ts = true ->
  fetch_fire_data L E ts w
  = (Ret (Some (frame_of (firstn (10 * b) data))),
     add_events w
       (token_warning E
          ++ request_events (Z.of_nat b) (where_of ts) 0
               (Nat.min (List.length data / b + 1) 10)
          ++ cap_warning b (List.length data))).
Proof.
  intro Hacc. rewrite fetch_fire_data_unfold, Hacc.
  unfold paginate, bind.
  pose proof (@fetch_loop_slices max_iterations 0 (where_of ts)
                (add_events w (token_warning E)) eq_refl) as H.
  simpl firstn in H. simpl Z.mul in H. rewrite H.
  - now rewrite Nat.sub_0_r, add_events_app.
  - unfold max_iterations; lia.
  - lia.
Qed.

(** C7 (as amended).  Against a source that holds T records and serves
    them by offset and limit, with batch size b > 0 and an absent or
    valid watermark, [fetch_fire_data] issues exactly
    min (T / b + 1, 10) requests, at offsets 0, b, 2b, ...: it stops at
    the first page that is empty or shorter than b, or at the cap.
    That is ceil(T/b) requests when b does not divide T, and one more
    (the empty page) when it does.  The batch is the first 10 * b
    records in source order: all of them, with no warning of the cap,
    when T < 10 * b. *)
Theorem pagination_of_slices : forall ts w,
  accepted L ts = true ->
  let T := List.length data in
  let n := Nat.min (T / b + 1) 10 in
  let evs := (token_warning E
                ++ request_events (Z.of_nat b) (where_of ts) 0 n
                ++ cap_warning b T)%list in
  fetch_fire_data L E ts w
    = (Ret (Some (frame_of (firstn (10 * b) data))), add_events w evs) /\
  count_requests evs = n /\
  (T mod b <> 0 -> n = Nat.min (ceil_div T b) 10) /\
  (T mod b = 0 -> n = Nat.min (ceil_div T b + 1) 10) /\
  (T < 10 * b -> firstn (10 * b) data = data /\ cap_warning b T = []) /\
  (10 * b <= T -> n = 10 /\ cap_warning b T = [EvWarn WMaxIterations]).
Proof.
  intros ts w Hacc T n evs.
  split; [now apply fetch_fire_data_slices|].
  split.
  { unfold evs.
    rewrite !count_requests_app, count_request_events, token_warning_requests.
    unfold cap_warning. destruct (10 * b <=? T); unfold count_requests; simpl; lia. }
  destruct ceil_div_cases as [Hc1 Hc2]. fold T in Hc1, Hc2.
  split; [intro Hm; unfold n; now rewrite Hc1|].
  split; [intro Hm; unfold n; now rewrite Hc2|].
  split.
  - intro Hlt. split; [now apply firstn_all2; unfold T in Hlt; lia|].
    unfold cap_warning. replace (10 * b <=? T) with false; [reflexivity|].
    symmetry; apply Nat.leb_gt; lia.
  - intro Hge. split.
    + unfold n. assert (10 <= T / b) by (apply Nat.div_le_lower_bound; lia). lia.
    + unfold cap_warning. replace (10 * b <=? T) with true; [reflexivity|].
      symmetry; apply Nat.leb_le; lia.
Qed.

End SliceSource.

(** Witness of [pagination_of_slices]: five records, two per page, no
    watermark: three requests, the last page short, all five rows. *)
Lemma pagination_of_slices_witness :
  let data := map numbered (seq 0 5) in
  let E := healthy_env 2 (slice_api data) in
  let w := world0 None None in
  fetch_fire_data sample_lib E None w
    = (Ret (Some (frame_of data)),
       add_events w (request_events 2 None 0 3)).
Proof.
  intros data E w.
  destruct (@pagination_of_slices E 2 data ltac:(lia) eq_refl eq_refl
              sample_lib None w eq_refl) as [H _].
  exact H.
Defined.

(** The scenario of the specification: 4450 records at limit 2000 are
    served as pages of 2000, 2000 and 450 rows; the extractor returns
    4450 rows after three requests and logs no warning. *)
Lemma three_pages_scenario :
  let data := map numbered (seq 0 4450) in
  let E := healthy_env 2000 (slice_api data) in
  let w := world0 None None in
  exists df,
    fetch_fire_data sample_lib E None w
      = (Ret (Some df), add_events w (request_events 2000 None 0 3)) /\
    List.length (rows df) = 4450.
Proof.
  intros data E w.
  assert (HT : List.length data = 4450)
    by (unfold data; now rewrite length_map, length_seq).
  pose proof (@fetch_fire_data_slices E 2000 data ltac:(lia) eq_refl eq_refl
                sample_lib None w eq_refl) as H.
  rewrite HT in H.
  replace (firstn (10 * 2000) data) with data in H
    by (symmetry; apply firstn_all2; rewrite HT; lia).
  exists (frame_of data). split.
  - rewrite H.
    replace (Nat.min (4450 / 2000 + 1) 10) with 3 by (vm_compute; reflexivity).
    replace (cap_warning 2000 4450) with (@nil Event) by (vm_compute; reflexivity).
    now rewrite app_nil_r.
  - now rewrite rows_frame_of.
Qed.

(** Counterexample to C7 as stated ("terminates within ceil(T/B)
    pages"): with T = 4 records and B = 2, ceil(T/B) = 2 but three pages
    are requested, the third one being the empty page that stops the
    loop. *)
Lemma exact_multiple_needs_one_more_page :
  let data := map numbered (seq 0 4) in
  let E := healthy_env 2 (slice_api data) in
  let w := world0 None None in
  exists evs,
    snd (fetch_fire_data sample_lib E None w) = add_events w evs /\
    evs = request_events 2 None 0 3 /\
    api E 2 (mkReq 2 4 None) = Page [] /\
    ~ count_requests evs <= Nat.min (ceil_div (List.length data) 2) 10.
Proof.
  intros data E w. eexists. split; [vm_compute; reflexivity|].
  split; [reflexivity|]. split; [reflexivity|]. vm_compute. lia.
Qed.

(** ** Strings and the timestamp format *)











(** ** Column names after cleaning *)

Lemma seen_get_set c col n seen :
  seen_get c (seen_set col n seen)
  = if String.eqb c col then Some n else seen_get c seen.
Proof.
  induction seen as [|[k m] seen IH]; simpl.
  - reflexivity.
  - destruct (String.eqb col k) eqn:Hck; simpl.
    + apply String.eqb_eq in Hck. subst k.
      destruct (String.eqb c col); reflexivity.
    + rewrite IH. destruct (String.eqb c k) eqn:Hk; [|reflexivity].
      apply String.eqb_eq in Hk. subst k.
      destruct (String.eqb c col) eqn:Hcc; [|reflexivity].
      apply String.eqb_eq in Hcc. subst c. rewrite String.eqb_refl in Hck.
      discriminate.
Qed.

Lemma count_label_cons c x l :
  count_label c (x :: l) = (if String.eqb c x then 1 else 0) + count_label c l.
Proof. unfold count_label. simpl. destruct (String.eqb c x); reflexivity. Qed.

Lemma final_names_length news : forall seen,
  List.length (final_names seen news) = List.length news.
Proof.
  induction news as [|col news IH]; intro seen; simpl; [reflexivity|].
  destruct (seen_get col seen); simpl; now rewrite IH.
Qed.


Lemma has_column_count c cols :
  str_in c cols = true -> 1 <= count_label c cols.
Proof.
  induction cols as [|x cols IH]; simpl; [discriminate|].
  rewrite count_label_cons. destruct (String.eqb c x); simpl; [lia|].
  intro H. specialize (IH H). lia.
Qed.


(** ** Shapes of frames *)

Lemma index_of_spec c cols i :
  index_of c cols = Some i -> i < List.length cols /\ nth i cols "" = c.
Proof.
  revert i. induction cols as [|x cols IH]; intros i H; simpl in H; [discriminate|].
  destruct (String.eqb c x) eqn:Hc.
  - injection H as <-. apply String.eqb_eq in Hc. simpl. split; [lia | now subst].
  - destruct (index_of c cols) as [j|]; [|discriminate].
    injection H as <-. destruct (IH j eq_refl). simpl. split; [lia | assumption].
Qed.

Lemma index_of_has c cols :
  str_in c cols = true -> exists i, index_of c cols = Some i.
Proof.
  induction cols as [|x cols IH]; simpl; [discriminate|].
  destruct (String.eqb c x); [eauto|]. simpl. intro H.
  destruct (IH H) as [i ->]. simpl. eauto.
Qed.

Lemma index_of_some_has c cols i : index_of c cols = Some i -> str_in c cols = true.
Proof.
  revert i; induction cols as [|x cols IH]; intros i H; simpl in *; [discriminate|].
  destruct (String.eqb c x); [reflexivity|]. simpl.
  destruct (index_of c cols) as [j|]; [|discriminate]. eauto.
Qed.

Lemma set_nth_length i v r : List.length (set_nth i v r) = List.length r.
Proof.
  revert i; induction r as [|c r IH]; intros [|i]; simpl; auto.
Qed.

Lemma cell_at_set_nth_same i v r : i < List.length r -> cell_at i (set_nth i v r) = v.
Proof.
  unfold cell_at. revert i; induction r as [|c r IH]; intros [|i] H; simpl in *;
    try lia; auto. apply IH. lia.
Qed.

Lemma cell_at_set_nth_other i j v r : i <> j -> cell_at j (set_nth i v r) = cell_at j r.
Proof.
  unfold cell_at. revert i j; induction r as [|c r IH]; intros [|i] [|j] H; simpl;
    try congruence; auto.
Qed.

Lemma map_labelled_length col f cols : forall r,
  List.length (map_labelled col f cols r) = List.length r.
Proof.
  induction cols as [|c cols IH]; intros [|v r]; simpl; auto.
Qed.

Lemma same_shape_refl df : same_shape df df.
Proof. split; reflexivity. Qed.

Lemma same_shape_trans a b c : same_shape a b -> same_shape b c -> same_shape a c.
Proof. intros [H1 H2] [H3 H4]. split; congruence. Qed.

Lemma well_formed_spec df :
  well_formed df = true <->
  Forall (fun n => n = List.length (columns df)) (map (@List.length Cell) (rows df)).
Proof.
  unfold well_formed. rewrite forallb_forall, Forall_forall. split.
  - intros H n Hn. apply in_map_iff in Hn as (r & <- & Hr).
    apply Nat.eqb_eq. now apply H.
  - intros H r Hr. apply Nat.eqb_eq. apply H. now apply in_map.
Qed.

Lemma same_shape_well_formed df df' :
  same_shape df df' -> well_formed df = true -> well_formed df' = true.
Proof.
  intros [Hc Hr]. rewrite !well_formed_spec. now rewrite Hc, Hr.
Qed.

Lemma set_cells_shape i vs : forall rs,
  map (@List.length Cell) (set_cells i vs rs) = map (@List.length Cell) rs.
Proof.
  induction vs as [|v vs IH]; intros [|r rs]; simpl; auto.
  now rewrite set_nth_length, IH.
Qed.

Lemma set_cells_same i vs : forall rs,
  List.length vs = List.length rs ->
  Forall (fun r => i < List.length r) rs ->
  map (cell_at i) (set_cells i vs rs) = vs.
Proof.
  induction vs as [|v vs IH]; intros [|r rs] Hlen Hall; simpl in *; try lia; auto.
  inversion Hall; subst. rewrite cell_at_set_nth_same by assumption.
  f_equal. apply IH; [lia | assumption].
Qed.

Lemma set_cells_other i j vs : i <> j -> forall rs,
  map (cell_at j) (set_cells i vs rs) = map (cell_at j) rs.
Proof.
  intro Hij. induction vs as [|v vs IH]; intros [|r rs]; simpl; auto.
  now rewrite cell_at_set_nth_other, IH.
Qed.

Lemma assign_column_shape col f df : same_shape df (assign_column col f df).
Proof.
  unfold assign_column. destruct (index_of col (columns df)); [|apply same_shape_refl].
  split; [reflexivity|]. simpl. apply set_cells_shape.
Qed.

Lemma well_formed_rows df i :
  well_formed df = true -> i < List.length (columns df) ->
  Forall (fun r => i < List.length r) (rows df).
Proof.
  unfold well_formed. rewrite forallb_forall, Forall_forall.
  intros H Hi r Hr. apply H in Hr. apply Nat.eqb_eq in Hr. lia.
Qed.

(** Assigning a column whose label is present in a well-formed frame:
    the column reads back as assigned. *)
Lemma assign_column_same col f df :
  well_formed df = true -> has_column col df = true ->
  (forall vs, List.length (f vs) = List.length vs) ->
  column_values col (assign_column col f df) = f (column_values col df).
Proof.
  intros Hwf Hhas Hf. unfold column_values, assign_column.
  destruct (index_of_has _ _ Hhas) as [i Hi]. rewrite Hi. cbn [columns rows].
  rewrite Hi. destruct (index_of_spec _ _ _ Hi) as [Hlt _].
  apply set_cells_same.
  - now rewrite Hf, length_map.
  - now apply well_formed_rows.
Qed.

(** ... and every column under another label is untouched. *)
Lemma assign_column_other col c f df :
  col <> c -> column_values c (assign_column col f df) = column_values c df.
Proof.
  intro Hne. unfold column_values, assign_column.
  destruct (index_of col (columns df)) as [i|] eqn:Hi; [|reflexivity].
  cbn [columns rows]. destruct (index_of c (columns df)) as [j|] eqn:Hj; [|reflexivity].
  apply set_cells_other. intros ->.
  destruct (index_of_spec _ _ _ Hi) as [_ H1], (index_of_spec _ _ _ Hj) as [_ H2].
  congruence.
Qed.


Lemma clean_frame_shape df :
  well_formed df = true -> well_formed (clean_frame df) = true.
Proof.
  unfold well_formed, clean_frame. cbn [rows columns].
  now rewrite final_names_length, length_map.
Qed.

(** ** Type conversion *)

Lemma warn_all_eq ws : forall w,
  warn_all ws w = (Ret tt, add_events w (map EvWarn ws)).
Proof.
  induction ws as [|x ws IH]; intro w; simpl.
  - now rewrite add_events_nil.
  - unfold bind, warn. rewrite emit_eq, IH, add_events_app. reflexivity.
Qed.

Lemma clean_column_names_eq df w :
  exists ws,
    clean_column_names df w = (Ret (clean_frame df), add_events w (map EvWarn ws)).
Proof.
  unfold clean_column_names, bind. rewrite warn_all_eq. eexists. reflexivity.
Qed.


Section ConvertFacts.
Variable L : PyLib.

Lemma convert_column_shape cd df w :
  exists df' ws,
    convert_column L cd df w = (Ret df', add_events w (map EvWarn ws)) /\
    same_shape df df'.
Proof.
  destruct cd as [col dtype]. unfold convert_column.
  assert (Hmap : forall f,
    same_shape df (mkDF (columns df) (map (map_labelled col f (columns df)) (rows df)))).
  { intro f. split; [reflexivity|]. cbn [rows]. rewrite map_map.
    apply map_ext. intro r. apply map_labelled_length. }
  destruct (has_column col df).
  - destruct dtype.
    + eexists _, []. rewrite add_events_nil. split; [reflexivity | apply Hmap].
    + destruct (count_label col (columns df) =? 1).
      * eexists _, []. rewrite add_events_nil. split; [reflexivity | apply Hmap].
      * eexists _, [_]. split; [reflexivity | apply same_shape_refl].
    + destruct (count_label col (columns df) =? 1).
      * eexists _, []. rewrite add_events_nil. split; [reflexivity | apply Hmap].
      * eexists _, [_]. split; [reflexivity | apply same_shape_refl].
  - eexists _, [_]. split; [reflexivity | apply same_shape_refl].
Qed.

Lemma first_pass_shape l : forall df w,
  exists df' ws,
    for_each (convert_column L) l df w = (Ret df', add_events w (map EvWarn ws)) /\
    same_shape df df'.
Proof.
  induction l as [|cd l IH]; intros df w.
  - exists df, []. rewrite add_events_nil. split; [reflexivity | apply same_shape_refl].
  - cbn [for_each]. unfold bind.
    destruct (convert_column_shape cd df w) as (df1 & evs1 & -> & Hs1).
    destruct (IH df1 (add_events w (map EvWarn evs1))) as (df2 & evs2 & -> & Hs2).
    exists df2, (evs1 ++ evs2)%list. rewrite add_events_app, map_app.
    split; [reflexivity | eapply same_shape_trans; eassumption].
Qed.

Lemma to_datetime_length vs : List.length (to_datetime L vs) = List.length vs.
Proof. unfold to_datetime. apply length_map. Qed.




Lemma second_pass_shape l : forall df w,
  exists df' ws,
    for_each (convert_datetime L) l df w = (Ret df', add_events w (map EvWarn ws)) /\
    same_shape df df'.
Proof.
  induction l as [|c l IH]; intros df w.
  - exists df, []. rewrite add_events_nil. split; [reflexivity | apply same_shape_refl].
  - cbn [for_each]. unfold bind.
    assert (Hstep : exists df' ws,
      convert_datetime L c df w = (Ret df', add_events w (map EvWarn ws))
      /\ same_shape df df').
    { unfold convert_datetime. destruct (has_column c df).
      - destruct (count_label c (columns df) =? 1).
        + eexists _, []. rewrite add_events_nil.
          split; [reflexivity | apply assign_column_shape].
        + eexists _, [_]. split; [reflexivity | apply same_shape_refl].
      - eexists _, [_]. split; [reflexivity | apply same_shape_refl]. }
    destruct Hstep as (df' & ws & -> & Hs).
    destruct (IH df' (add_events w (map EvWarn ws))) as (df'' & ws' & -> & Hs').
    exists df'', (ws ++ ws')%list. rewrite add_events_app, map_app.
    split; [reflexivity | eapply same_shape_trans; eassumption].
Qed.

(** [convert_data_types] returns a frame of the same shape and logs
    warnings only. *)
Lemma convert_data_types_shape df w :
  exists df' ws,
    convert_data_types L df w = (Ret df', add_events w (map EvWarn ws)) /\
    same_shape df df'.
Proof.
  unfold convert_data_types, bind.
  destruct (first_pass_shape EXPECTED_DTYPES df w) as (df1 & ws1 & -> & Hs1).
  destruct (second_pass_shape DATETIME_COLUMNS df1 (add_events w (map EvWarn ws1)))
    as (df2 & ws2 & -> & Hs2).
  exists df2, (ws1 ++ ws2)%list. rewrite add_events_app, map_app.
  split; [reflexivity | eapply same_shape_trans; eassumption].
Qed.


End ConvertFacts.

(** ** Order of cells *)

Lemma Cell_eqb_eq a b : Cell_eqb a b = true <-> a = b.
Proof.
  destruct a, b; simpl; split; intro H; try discriminate; try reflexivity.
  - apply String.eqb_eq in H. now subst.
  - injection H as ->. apply String.eqb_refl.
  - apply Z.eqb_eq in H. now subst.
  - injection H as ->. apply Z.eqb_refl.
Qed.

Lemma Cell_eqb_neq a b : Cell_eqb a b = false <-> a <> b.
Proof.
  split.
  - intros H Heq. apply Cell_eqb_eq in Heq. congruence.
  - intro H. destruct (Cell_eqb a b) eqn:He; [|reflexivity].
    apply Cell_eqb_eq in He. contradiction.
Qed.









(** ** Sorting and de-duplication of rows *)

Section RowFacts.
Variable i j : nat.

Lemma insert_row_perm r l : Permutation (insert_row j r l) (r :: l).
Proof.
  induction l as [|x l IH]; simpl; [reflexivity|].
  destruct (cell_leb (cell_at j r) (cell_at j x)); [reflexivity|].
  rewrite IH. apply perm_swap.
Qed.

Lemma sort_rows_perm l : Permutation (sort_rows j l) l.
Proof.
  induction l as [|x l IH]; simpl; [reflexivity|].
  rewrite insert_row_perm. now constructor.
Qed.




Lemma same_key_absent r rs :
  existsb (fun r' => Cell_eqb (cell_at i r) (cell_at i r')) rs = false ->
  forall x, In x rs -> cell_at i x <> cell_at i r.
Proof.
  intros H x Hx Heq.
  assert (existsb (fun r' => Cell_eqb (cell_at i r) (cell_at i r')) rs = true).
  { apply existsb_exists. exists x. split; [assumption|].
    apply Cell_eqb_eq. congruence. }
  congruence.
Qed.

Lemma keep_last_in r rs : In r (keep_last i rs) -> In r rs.
Proof.
  induction rs as [|x rs IH]; simpl; [auto|].
  destruct (existsb _ rs); simpl; intuition.
Qed.


Lemma keep_last_nodup rs : NoDup (map (cell_at i) (keep_last i rs)).
Proof.
  induction rs as [|x rs IH]; simpl; [constructor|].
  destruct (existsb _ rs) eqn:He; [exact IH|].
  simpl. constructor; [|exact IH].
  intro Hin. apply in_map_iff in Hin as (y & Hy & Hyin).
  apply keep_last_in in Hyin. now apply (same_key_absent _ _ He y).
Qed.

Lemma keep_last_covers rs : forall r,
  In r rs -> exists r', In r' (keep_last i rs) /\ cell_at i r' = cell_at i r.
Proof.
  induction rs as [|x rs IH]; simpl; [contradiction|].
  intros r [<- | Hin].
  - destruct (existsb _ rs) eqn:He.
    + apply existsb_exists in He as (y & Hy & Hk). apply Cell_eqb_eq in Hk.
      destruct (IH y Hy) as (r' & Hr' & Hkey). exists r'. split; [assumption | congruence].
    + exists x. split; [now left | reflexivity].
  - destruct (IH r Hin) as (r' & Hr' & Hkey). exists r'.
    split; [|assumption]. destruct (existsb _ rs); [assumption | now right].
Qed.

Lemma keep_last_nonempty rs : rs <> [] -> keep_last i rs <> [].
Proof.
  destruct rs as [|x rs]; [congruence|]. intros _ H.
  destruct (keep_last_covers (x :: rs) x (or_introl eq_refl)) as (r' & Hr' & _).
  rewrite H in Hr'. contradiction.
Qed.

Lemma seen_absent k seen :
  existsb (Cell_eqb k) seen = false -> ~ In k seen.
Proof.
  intros H Hin.
  assert (existsb (Cell_eqb k) seen = true).
  { apply existsb_exists. exists k. split; [assumption | now apply Cell_eqb_eq]. }
  congruence.
Qed.

Lemma keep_first_is_first r rs : forall seen,
  In r (keep_first i seen rs) ->
  ~ In (cell_at i r) seen /\
  exists l1 l2, rs = (l1 ++ r :: l2)%list /\
                forall x, In x l1 -> cell_at i x <> cell_at i r.
Proof.
  induction rs as [|x rs IH]; intros seen; simpl; [contradiction|].
  destruct (existsb (Cell_eqb (cell_at i x)) seen) eqn:He.
  - intro H. destruct (IH seen H) as (Hs & l1 & l2 & -> & Hl1).
    split; [assumption|]. exists (x :: l1), l2. split; [reflexivity|].
    intros y [<- | Hy]; [|now apply Hl1].
    intro Heq. apply existsb_exists in He as (k & Hk & Hkk).
    apply Cell_eqb_eq in Hkk. apply Hs. congruence.
  - intros [<- | H].
    + split; [now apply seen_absent|]. exists [], rs. split; [reflexivity|].
      intros y [].
    + destruct (IH _ H) as (Hs & l1 & l2 & -> & Hl1).
      split; [intro Hin; apply Hs; now right|].
      exists (x :: l1), l2. split; [reflexivity|].
      intros y [<- | Hy]; [|now apply Hl1].
      intro Heq. apply Hs. left. assumption.
Qed.

Lemma keep_first_in r rs : forall seen, In r (keep_first i seen rs) -> In r rs.
Proof.
  induction rs as [|x rs IH]; intro seen; simpl; [auto|].
  destruct (existsb _ seen); simpl; [right; eauto|].
  intros [<- | H]; [now left | right; eauto].
Qed.

Lemma keep_first_nodup rs : forall seen,
  NoDup (map (cell_at i) (keep_first i seen rs)).
Proof.
  induction rs as [|x rs IH]; intro seen; simpl; [constructor|].
  destruct (existsb _ seen) eqn:He; [apply IH|].
  simpl. constructor; [|apply IH].
  intro Hin. apply in_map_iff in Hin as (y & Hy & Hyin).
  apply keep_first_is_first in Hyin as [Hs _]. apply Hs. left. congruence.
Qed.

Lemma keep_first_covers rs : forall r seen,
  In r rs -> ~ In (cell_at i r) seen ->
  exists r', In r' (keep_first i seen rs) /\ cell_at i r' = cell_at i r.
Proof.
  induction rs as [|x rs IH]; intros r seen; simpl; [contradiction|].
  intros Hin Hs. destruct (existsb (Cell_eqb (cell_at i x)) seen) eqn:He.
  - destruct Hin as [<- | Hin].
    + apply existsb_exists in He as (k & Hk & Hkk). apply Cell_eqb_eq in Hkk.
      exfalso. apply Hs. congruence.
    + now apply IH.
  - destruct Hin as [<- | Hin].
    + exists x. split; [now left | reflexivity].
    + destruct (Cell_eqb (cell_at i x) (cell_at i r)) eqn:Hk.
      * apply Cell_eqb_eq in Hk. exists x. split; [now left | assumption].
      * apply Cell_eqb_neq in Hk.
        destruct (IH r (cell_at i x :: seen) Hin) as (r' & Hr' & Hkey).
        -- intros [H | H]; [congruence | contradiction].
        -- exists r'. split; [now right | assumption].
Qed.

Lemma keep_first_nonempty rs : rs <> [] -> keep_first i [] rs <> [].
Proof.
  destruct rs as [|x rs]; [congruence|]. intros _. simpl. discriminate.
Qed.


End RowFacts.

(** ** The quality gate *)

Lemma resolve_duplicates_none df w i :
  index_of unique_key (columns df) = Some i ->
  duplicated_rows i (rows df) = [] ->
  resolve_duplicates df w = (Ret df, add_events w (map EvWarn [])).
Proof.
  intros Hi Hd. unfold resolve_duplicates. rewrite Hi, Hd.
  cbn [map]. now rewrite add_events_nil.
Qed.

Lemma resolve_duplicates_last df w i j :
  index_of unique_key (columns df) = Some i ->
  duplicated_rows i (rows df) <> [] ->
  index_of INCREMENTAL_COLUMN (columns df) = Some j ->
  mixed_types (map (cell_at j) (rows df)) = false ->
  resolve_duplicates df w
  = (Ret (mkDF (columns df) (keep_last i (sort_rows j (rows df)))),
     add_events w
       (map EvWarn [WDuplicatePK (List.length (duplicated_rows i (rows df)))])).
Proof.
  intros Hi Hd Hj Hmix. unfold resolve_duplicates. rewrite Hi.
  destruct (duplicated_rows i (rows df)) as [|d ds] eqn:Hdup; [congruence|].
  unfold bind, warn. rewrite emit_eq. unfold has_column.
  rewrite (index_of_some_has _ _ _ Hj). unfold sort_values. rewrite Hj, Hmix.
  unfold drop_duplicates. cbn [columns rows]. rewrite Hi. reflexivity.
Qed.

Lemma resolve_duplicates_mixed df w i j :
  index_of unique_key (columns df) = Some i ->
  duplicated_rows i (rows df) <> [] ->
  index_of INCREMENTAL_COLUMN (columns df) = Some j ->
  mixed_types (map (cell_at j) (rows df)) = true ->
  exists e ws, resolve_duplicates df w = (Raise e, add_events w (map EvWarn ws)).
Proof.
  intros Hi Hd Hj Hmix. unfold resolve_duplicates. rewrite Hi.
  destruct (duplicated_rows i (rows df)) as [|d ds] eqn:Hdup; [congruence|].
  unfold bind, warn. rewrite emit_eq. unfold has_column.
  rewrite (index_of_some_has _ _ _ Hj). unfold sort_values. rewrite Hj, Hmix.
  eexists _, [_]. reflexivity.
Qed.

Lemma index_of_none_has c cols : index_of c cols = None -> str_in c cols = false.
Proof.
  intro H. destruct (str_in c cols) eqn:Hs; [|reflexivity].
  destruct (index_of_has _ _ Hs) as [k Hk]. congruence.
Qed.

Lemma resolve_duplicates_first df w i :
  index_of unique_key (columns df) = Some i ->
  duplicated_rows i (rows df) <> [] ->
  index_of INCREMENTAL_COLUMN (columns df) = None ->
  resolve_duplicates df w
  = (Ret (mkDF (columns df) (keep_first i [] (rows df))),
     add_events w
       (map EvWarn [WDuplicatePK (List.length (duplicated_rows i (rows df)))])).
Proof.
  intros Hi Hd Hj. unfold resolve_duplicates. rewrite Hi.
  destruct (duplicated_rows i (rows df)) as [|d ds] eqn:Hdup; [congruence|].
  unfold bind, warn. rewrite emit_eq. unfold has_column.
  rewrite (index_of_none_has _ _ Hj).
  unfold drop_duplicates. rewrite Hi. reflexivity.
Qed.

(** The gate around the resolution of duplicates: a count of missing
    keys above zero is logged and raises the flag, nothing else. *)
Lemma quality_checks_around df w res ws1 :
  df_empty df = false -> has_column unique_key df = true ->
  (forall w', resolve_duplicates df w' = (Ret res, add_events w' (map EvWarn ws1))) ->
  let missing := count_null (column_values unique_key df) in
  quality_checks df w
  = (Ret (res, 0 <? missing),
     add_events w
       (map EvWarn (missing_key_warning missing ++ ws1 ++ issues_warning missing))).
Proof.
  intros Hne Hkey Hres missing. unfold quality_checks. rewrite Hne, Hkey.
  fold missing. unfold missing_key_warning, issues_warning, bind.
  destruct (0 <? missing).
  - unfold warn. rewrite emit_eq. unfold ret at 1. rewrite Hres.
    unfold when, warn. rewrite emit_eq, !add_events_app.
    cbn [app map]. rewrite map_app. reflexivity.
  - unfold ret at 1. rewrite Hres. unfold when, ret.
    rewrite app_nil_r. reflexivity.
Qed.

Lemma quality_checks_raises df w e ws1 :
  df_empty df = false -> has_column unique_key df = true ->
  (forall w', resolve_duplicates df w' = (Raise e, add_events w' (map EvWarn ws1))) ->
  let missing := count_null (column_values unique_key df) in
  quality_checks df w
  = (Raise e, add_events w (map EvWarn (missing_key_warning missing ++ ws1))).
Proof.
  intros Hne Hkey Hres missing. unfold quality_checks. rewrite Hne, Hkey.
  fold missing. unfold missing_key_warning, bind.
  destruct (0 <? missing).
  - unfold warn. rewrite emit_eq. unfold ret at 1. rewrite Hres.
    rewrite !add_events_app. reflexivity.
  - unfold ret at 1. rewrite Hres. reflexivity.
Qed.

Lemma perform_of_quality df w r w' :
  quality_checks df w = (Ret r, w') ->
  perform_data_quality_checks df w = (Ret (fst r), w').
Proof. intro H. unfold perform_data_quality_checks, bind. now rewrite H. Qed.




(** ** The load step *)

Lemma runs_to_refl w : runs_to w w [].
Proof. split; [reflexivity | now rewrite app_nil_r]. Qed.

Lemma runs_to_trans {w1 w2 w3 a b} :
  runs_to w1 w2 a -> runs_to w2 w3 b -> runs_to w1 w3 (a ++ b).
Proof.
  intros [H1 H2] [H3 H4]. split; [congruence|]. now rewrite H4, H2, app_assoc.
Qed.

Lemma runs_to_add_events w evs : runs_to w (add_events w evs) evs.
Proof. split; reflexivity. Qed.

Lemma count_saves_in_none evs :
  count_saves evs = 0 -> forall ts, ~ In (EvSaveWatermark ts) evs.
Proof.
  unfold count_saves. intros H ts Hin.
  assert (Hf : In (EvSaveWatermark ts) (filter is_save evs))
    by (apply filter_In; split; [assumption | reflexivity]).
  destruct (filter is_save evs); [contradiction | discriminate].
Qed.

Section LoadFacts.
Variable E : Env.

Lemma execute_values_outcome cols key upd pages : forall page w,
  exists o w' evs,
    execute_values E cols key upd page pages w = (o, w') /\
    db w' = db w /\ runs_to w w' evs /\ count_saves evs = 0 /\
    ~ In EvCommit evs /\
    (o = Ret tt \/ exists e, o = Raise e).
Proof.
  induction pages as [|p pages IH]; intros page w.
  - exists (Ret tt), w, []. repeat split; auto using runs_to_refl.
    now rewrite app_nil_r.
  - cbn [execute_values]. unfold bind, get_world.
    destruct (page_fault E page).
    + eexists _, w, []. split; [reflexivity|].
      repeat split; eauto using runs_to_refl. now rewrite app_nil_r.
    + destruct (txn w) as [working|].
      * destruct (Pg.insert_on_conflict cols key upd p working) as [tb|].
        -- unfold set_txn at 1. rewrite emit_eq.
           set (w1 := add_events _ _).
           destruct (IH (page + 1) w1) as (o & w' & evs & -> & Hdb & [Hwm Htr] & Hs & Hc & Ho).
           exists o, w', (EvExecute page :: evs). split; [reflexivity|].
           split; [exact Hdb|]. split.
           { split; [exact Hwm|]. rewrite Htr. unfold w1. simpl.
             now rewrite <- app_assoc. }
           split; [exact Hs|]. split; [|exact Ho].
           intros [H | H]; [discriminate | contradiction].
        -- eexists _, w, []. split; [reflexivity|].
           repeat split; eauto using runs_to_refl. now rewrite app_nil_r.
      * eexists _, w, []. split; [reflexivity|].
        repeat split; eauto using runs_to_refl. now rewrite app_nil_r.
Qed.

(** How [upsert_data] can end: it returns after a commit (or at once on
    an empty frame), or it raises, rolled back, the committed table as
    before. *)
Lemma upsert_data_cases df key w :
  exists o w' evs,
    upsert_data E df key w = (o, w') /\ runs_to w w' evs /\
    count_saves evs = 0 /\
    ((o = Ret tt /\ ((df_empty df = true /\ w' = w) \/ In EvCommit evs)) \/
     (exists e, o = Raise e /\ db w' = db w /\ ~ In EvCommit evs /\
                (conn_ok E = true -> In EvRollback evs))) /\
    (df_empty df = false -> conn_ok E = true ->
     (dropped_cols_of (db w) df <> [] ->
      In (EvWarn (WDroppedColumns (dropped_cols_of (db w) df))) evs) /\
     ((forall tr, exists e wx,
         upsert_statements E (db w) df key (connected w tr) = (Raise e, wx)) ->
      exists e, o = Raise e)).
Proof.
  unfold upsert_data. destruct (df_empty df) eqn:Hempty.
  { exists (Ret tt), w, []. split; [reflexivity|]. split; [apply runs_to_refl|].
    split; [reflexivity|]. split; [left; auto | discriminate]. }
  destruct (conn_ok E) eqn:Hconn.
  2:{ eexists _, w, []. split; [reflexivity|]. split; [apply runs_to_refl|].
      split; [reflexivity|]. split; [|discriminate].
      right. eexists. repeat split; auto. discriminate. }
  cbv [try_finally try_except bind get_world set_txn emit when warn ret raise
       conn_commit conn_rollback conn_close set_db].
  match goal with |- context [if negb ?c then _ else _] =>
    destruct (negb c) eqn:Hdrop end;
    cbn [wm_file db txn trace];
    match goal with
    | |- context [execute_values E ?a ?b ?c ?d ?e ?f] =>
        destruct (execute_values_outcome a b c e d f)
          as (o2 & w2 & evs2 & Hex & Hdb2 & [Hwm2 Htr2] & Hs2 & Hc2 & Ho2);
        rewrite Hex; cbn [wm_file db txn trace] in Hdb2, Hwm2, Htr2
    end;
    (destruct Ho2 as [-> | [e ->]];
     [destruct (txn w2) as [working|]; [destruct (commit_ok E)|]|]);
    cbn [wm_file db txn trace];
    eexists _, _, _; (split; [reflexivity|]); cbn [wm_file db txn trace];
    (split; [split; [exact Hwm2|]; cbn [trace]; rewrite Htr2;
             rewrite <- !app_assoc; reflexivity|]);
    (split; [rewrite !count_saves_app, Hs2; reflexivity|]);
    (split;
     [| intros _ _; split;
        [ intros Hd; first [ find_in
                           | exfalso; apply negb_false_iff, Nat.eqb_eq in Hdrop;
                             apply Hd; now apply length_zero_iff_nil ]
        | intros Hfail; first [ eexists; reflexivity
                              | exfalso;
                                match type of Hex with
                                | execute_values _ _ _ _ _ _ ?wx = _ =>
                                    destruct (Hfail (trace wx)) as (e' & wx' & Hf)
                                end;
                                unfold upsert_statements, connected,
                                  cols_to_upsert_of, db_columns_of in Hf;
                                cbn [trace] in Hf; rewrite Hex in Hf;
                                discriminate Hf ] ] ]).
  all: try (left; split; [reflexivity|]; right; find_in).
  all: right; eexists; (split; [reflexivity|]); cbn [db];
    (split; [exact Hdb2|]); (split; [intro H; not_in H|]);
    intros _; find_in.
Qed.


(** How [create_staging_table] can end: the table is there afterwards
    with the rows it had (none if it was created), or it raises and
    nothing changed. *)
Lemma create_staging_table_cases df w :
  exists o w' evs,
    create_staging_table E df w = (o, w') /\ runs_to w w' evs /\
    count_saves evs = 0 /\ ~ In EvCommit evs /\ ~ In EvLoad evs /\
    table_rows (db w') = table_rows (db w) /\
    (forall tb, db w = Some tb -> db w' = db w) /\
    ((o = Ret tt /\ db w' <> None) \/ (exists e, o = Raise e /\ db w' = db w)).
Proof.
  unfold create_staging_table.
  cbv [bind get_world set_db emit warn ret raise].
  destruct (df_empty df);
    [| destruct (filter _ (columns df)) as [|c0 cs] ];
    destruct (ddl_ok E); cbn [wm_file db txn trace];
    try (destruct (db w) as [tb0|] eqn:Hdb; cbn [Pg.create_if_not_exists];
         [| match goal with |- context [if ?c then _ else _] => destruct c end ]);
    cbn [wm_file db txn trace];
    eexists _, _, _; (split; [reflexivity|]); cbn [wm_file db txn trace];
    (split; [split; [reflexivity|]; cbn [trace];
             rewrite <- ?app_assoc;
             first [reflexivity | symmetry; apply app_nil_r]|]);
    (split; [reflexivity|]);
    (split; [intro H; simpl in H; intuition discriminate|]);
    (split; [intro H; simpl in H; intuition discriminate|]);
    (split; [try rewrite Hdb; reflexivity|]);
    (split; [intros tb Htb; try rewrite Hdb in *; try reflexivity; try discriminate|]).
  all: first [ left; split; [reflexivity | try rewrite Hdb; discriminate]
             | right; eexists; split; [reflexivity | try rewrite Hdb; reflexivity] ].
Qed.

(** How [load_data_to_staging] can end. *)
Lemma load_data_to_staging_cases df w :
  exists o w' evs,
    load_data_to_staging E df w = (o, w') /\ runs_to w w' evs /\
    count_saves evs = 0 /\ In EvLoad evs /\
    ((o = Ret tt /\ ((df_empty df = true /\ w' = add_events w [EvLoad])
                     \/ In EvCommit evs)) \/
     (exists e, o = Raise e /\ ~ In EvCommit evs /\
                table_rows (db w') = table_rows (db w) /\
                (forall tb, db w = Some tb -> db w' = db w))).
Proof.
  unfold load_data_to_staging. unfold bind at 1. rewrite emit_eq.
  destruct (df_empty df) eqn:Hempty.
  { eexists _, _, [EvLoad]. split; [reflexivity|].
    split; [apply runs_to_add_events|]. split; [reflexivity|].
    split; [now left|]. left. auto. }
  destruct (has_column unique_key df) eqn:Hkey; cbn [negb].
  2:{ eexists _, _, [EvLoad]. split; [reflexivity|].
      split; [apply runs_to_add_events|]. split; [reflexivity|].
      split; [now left|]. right. eexists. split; [reflexivity|].
      split; [intro H; simpl in H; intuition discriminate|]. auto. }
  unfold try_except, bind.
  destruct (create_staging_table_cases df (add_events w [EvLoad]))
    as (o1 & w1 & evs1 & -> & Hr1 & Hs1 & Hc1 & Hl1 & Hrows1 & Hsame1 & Ho1).
  pose proof (runs_to_trans (runs_to_add_events w [EvLoad]) Hr1) as Hr01.
  destruct Ho1 as [[-> Hex1] | (e & -> & Hdb1)].
  - destruct (upsert_data_cases df unique_key w1)
      as (o2 & w2 & evs2 & -> & Hr2 & Hs2 & Ho2 & _).
    pose proof (runs_to_trans Hr01 Hr2) as Hr02.
    destruct Ho2 as [[-> Hc2] | (e & -> & Hdb2 & Hc2 & _)].
    + eexists _, _, _. split; [reflexivity|]. split; [exact Hr02|].
      split; [rewrite !count_saves_app, Hs1, Hs2; reflexivity|].
      split; [find_in|]. left. split; [reflexivity|]. right.
      destruct Hc2 as [[Hc2 _] | Hc2]; [congruence|].
      apply in_or_app. now right.
    + eexists _, _, _. split; [reflexivity|]. split; [exact Hr02|].
      split; [rewrite !count_saves_app, Hs1, Hs2; reflexivity|].
      split; [find_in|]. right. eexists. split; [reflexivity|].
      split; [intro H; not_in H|].
      split; [rewrite Hdb2; exact Hrows1|].
      intros tb Htb. rewrite Hdb2. eapply Hsame1. exact Htb.
  - eexists _, _, _. split; [reflexivity|]. split; [exact Hr01|].
    split; [rewrite !count_saves_app, Hs1; reflexivity|].
    split; [find_in|]. right. eexists. split; [reflexivity|].
    split; [intro H; not_in H|].
    split; [now rewrite Hdb1 | intros; exact Hdb1].
Qed.

End LoadFacts.

Lemma filter_shorter {A} (f : A -> bool) l :
  (exists c, In c l /\ f c = false) -> List.length (filter f l) < List.length l.
Proof.
  intros (c & Hin & Hc). induction l as [|x l IH]; [contradiction|].
  simpl. pose proof (filter_length_le f l) as Hle.
  destruct Hin as [-> | Hin].
  - rewrite Hc. lia.
  - specialize (IH Hin). destruct (f x); simpl; lia.
Qed.

(** With a frame column missing from the table, the first statement has
    more values per tuple than columns: the server refuses it. *)
Lemma arity_mismatch_raises E df key tb w tr :
  df_empty df = false -> well_formed df = true -> db w = Some tb ->
  (exists c, In c (columns df) /\ str_in c (tcols tb) = false) ->
  exists e wx,
    upsert_statements E (db w) df key (connected w tr) = (Raise e, wx).
Proof.
  intros Hne Hwf Hdb Hextra. rewrite Hdb.
  unfold upsert_statements, cols_to_upsert_of, db_columns_of.
  set (cols := filter (fun col => str_in col (tcols tb)) (columns df)).
  assert (Hshort : List.length cols < List.length (columns df))
    by (apply filter_shorter; exact Hextra).
  destruct (rows df) as [|r rs] eqn:Hrows.
  { unfold df_empty in Hne. rewrite Hrows in Hne. simpl in Hne.
    rewrite orb_true_r in Hne. discriminate. }
  assert (Hr : List.length r = List.length (columns df)).
  { unfold well_formed in Hwf. rewrite Hrows in Hwf. simpl in Hwf.
    apply andb_true_iff in Hwf as [Hwf _]. now apply Nat.eqb_eq in Hwf. }
  cbn [List.length pages_of firstn execute_values].
  unfold bind, get_world, connected. cbn [txn]. rewrite Hdb.
  destruct (page_fault E 0); [eexists _, _; reflexivity|].
  assert (Hnone : forall upd,
    Pg.insert_on_conflict cols key upd (r :: firstn 499 rs) (Some tb) = None).
  { intro upd. unfold Pg.insert_on_conflict.
    destruct cols as [|c0 cs] eqn:Hcols; [reflexivity|].
    destruct upd; [reflexivity|].
    destruct (index_of key (tcols tb)); [|reflexivity].
    cbn [forallb]. replace (List.length r =? List.length (c0 :: cs)) with false
      by (symmetry; apply Nat.eqb_neq; lia).
    cbn [andb]. now rewrite !andb_false_r. }
  rewrite Hnone. eexists _, _. reflexivity.
Qed.

(** C1 (the code against the claim).  A non-empty, well-formed batch
    with a column the target table lacks: [upsert_data] logs the
    dropped columns and then raises, rolled back, the table as before.
    The tuples sent still hold every column of the batch. *)
Theorem extra_columns_make_upsert_fail : forall E df key w tb,
  df_empty df = false -> well_formed df = true -> db w = Some tb ->
  (exists c, In c (columns df) /\ str_in c (tcols tb) = false) ->
  exists e w' evs,
    upsert_data E df key w = (Raise e, w') /\
    db w' = db w /\ runs_to w w' evs /\ ~ In EvCommit evs /\
    (conn_ok E = true ->
     In (EvWarn (WDroppedColumns (dropped_cols_of (db w) df))) evs /\
     In EvRollback evs).
Proof.
  intros E df key w tb Hne Hwf Hdb Hextra.
  destruct (upsert_data_cases E df key w)
    as (o & w' & evs & Heq & Hrun & _ & Hcases & Hmore).
  assert (Hraise : exists e, o = Raise e).
  { destruct (conn_ok E) eqn:Hconn.
    - destruct (Hmore Hne eq_refl) as [_ Hfail]. apply Hfail.
      intro tr. eapply arity_mismatch_raises; eassumption.
    - unfold upsert_data in Heq. rewrite Hne, Hconn in Heq.
      injection Heq as <- _. eexists. reflexivity. }
  destruct Hraise as [e ->].
  destruct Hcases as [[H _] | (e' & He' & Hdbk & Hnc & Hrb)]; [discriminate|].
  exists e, w', evs. split; [exact Heq|]. split; [exact Hdbk|].
  split; [exact Hrun|]. split; [exact Hnc|].
  intro Hconn. split; [|now apply Hrb].
  destruct (Hmore Hne Hconn) as [Hwarn _]. apply Hwarn.
  destruct Hextra as (c & Hin & Hc). intro Hnil.
  assert (Hc' : In c (dropped_cols_of (db w) df)).
  { unfold dropped_cols_of, db_columns_of. rewrite Hdb.
    apply filter_In. split; [exact Hin | now rewrite Hc]. }
  rewrite Hnil in Hc'. contradiction.
Qed.

(** Witness of [extra_columns_make_upsert_fail]: the batch has an
    [address] column, the table does not. *)
Lemma extra_columns_make_upsert_fail_witness :
  let E := healthy_env 2000 (slice_api []) in
  let w := world0 None (Some lagging_table) in
  exists e w',
    upsert_data E drifted_frame unique_key w = (Raise e, w') /\
    db w' = Some lagging_table /\
    In (EvWarn (WDroppedColumns ["address"])) (trace w').
Proof.
  intros E w.
  destruct (extra_columns_make_upsert_fail E drifted_frame unique_key w
              lagging_table eq_refl eq_refl eq_refl)
    as (e & w' & evs & Heq & Hdb & [_ Htr] & _ & Hconn).
  - exists "address". split; [simpl; auto | reflexivity].
  - exists e, w'. split; [exact Heq|]. split; [exact Hdb|].
    rewrite Htr. apply in_or_app. right. now apply Hconn.
Defined.






(** ** The orchestrator *)

Lemma warnings_no_saves ws : count_saves (map EvWarn ws) = 0.
Proof. induction ws; [reflexivity | exact IHws]. Qed.

Lemma warnings_not_in ws ev :
  (forall x, ev <> EvWarn x) -> ~ In ev (map EvWarn ws).
Proof.
  intros Hev Hin. apply in_map_iff in Hin as (x & Hx & _).
  now apply (Hev x).
Qed.

Lemma fetch_events_no_saves evs : Forall fetch_event evs -> count_saves evs = 0.
Proof.
  induction 1 as [|ev evs Hev _ IH]; [reflexivity|].
  unfold count_saves in *. simpl.
  destruct ev; simpl in *; try contradiction; exact IH.
Qed.

Lemma fetch_events_not_in evs ev :
  fetch_event ev -> False -> ~ In ev evs.
Proof. intros _ []. Qed.

Lemma fetch_events_only evs ev :
  Forall fetch_event evs -> ~ fetch_event ev -> ~ In ev evs.
Proof.
  intros Hall Hev Hin. rewrite Forall_forall in Hall. now apply Hev, Hall.
Qed.

Lemma get_last_run_timestamp_eq w :
  get_last_run_timestamp w = (Ret (read_watermark w), w).
Proof.
  unfold get_last_run_timestamp, read_watermark, bind, get_world.
  destruct (wm_file w) as [content|]; [|reflexivity].
  destruct (nonempty (strip content)); reflexivity.
Qed.

Lemma latest_timestamp_cases L raw w :
  exists r ws, latest_timestamp L raw w = (Ret r, add_events w (map EvWarn ws)).
Proof.
  unfold latest_timestamp. destruct (has_column INCREMENTAL_COLUMN raw).
  - destruct (max_timestamp None _).
    + eexists _, []. rewrite add_events_nil. reflexivity.
    + eexists _, [_]. reflexivity.
  - eexists _, [_]. reflexivity.
Qed.

Lemma same_shape_nonempty df df' :
  same_shape df df' -> df_empty df = false -> df_empty df' = false.
Proof.
  intros [Hc Hr] H. unfold df_empty in *. rewrite Hc.
  destruct (rows df), (rows df'); simpl in *; try discriminate; assumption.
Qed.

Lemma nonempty_rows df rs :
  df_empty df = false -> rs <> [] -> df_empty (mkDF (columns df) rs) = false.
Proof.
  unfold df_empty. cbn [columns rows]. intros H Hrs.
  apply orb_false_iff in H as [Hc _]. rewrite Hc. simpl.
  destruct rs; [congruence | reflexivity].
Qed.

Lemma df_nonempty_rows df : df_empty df = false -> rows df <> [].
Proof.
  unfold df_empty. intros H Hr. rewrite Hr in H. simpl in H.
  now rewrite orb_true_r in H.
Qed.

(** How the quality checks can end on a non-empty frame: with a
    non-empty frame under the same labels and the flag, having logged
    warnings only; or with an exception. *)
Lemma quality_checks_cases df w :
  df_empty df = false ->
  exists o ws,
    quality_checks df w = (o, add_events w (map EvWarn ws)) /\
    ((exists df' b, o = Ret (df', b) /\ columns df' = columns df /\
                    incl (rows df') (rows df) /\
                    df_empty df' = false /\
                    b = (0 <? count_null (column_values unique_key df)) /\
                    (b = true ->
                     In (WMissingPK (count_null (column_values unique_key df))) ws /\
                     In WDQIssues ws /\
                     In NA (column_values unique_key df'))) \/
     (exists e, o = Raise e /\ ~ In WDQIssues ws)).
Proof.
  intro Hne.
  destruct (has_column unique_key df) eqn:Hkey.
  2:{ unfold quality_checks. rewrite Hne, Hkey. unfold bind, raise.
      eexists _, []. rewrite add_events_nil. split; [reflexivity|].
      right. eexists. split; [reflexivity | intros []]. }
  destruct (index_of_has _ _ Hkey) as [i Hi].
  set (m := count_null (column_values unique_key df)).
  assert (Hflag : forall rs ws1,
    (forall r, In r (rows df) -> exists r', In r' rs /\ cell_at i r' = cell_at i r) ->
    (0 <? m) = true ->
    In (WMissingPK m) (missing_key_warning m ++ ws1 ++ issues_warning m) /\
    In WDQIssues (missing_key_warning m ++ ws1 ++ issues_warning m) /\
    In NA (column_values unique_key (mkDF (columns df) rs))).
  { intros rs ws1 Hcov Hm. unfold missing_key_warning, issues_warning.
    rewrite Hm. split; [now left|]. split; [find_in|].
    unfold column_values. cbn [columns rows]. rewrite Hi.
    assert (Hna : exists r, In r (rows df) /\ cell_at i r = NA).
    { apply Nat.ltb_lt in Hm. unfold m, count_null, column_values in Hm.
      rewrite Hi in Hm.
      destruct (filter isnull (map (cell_at i) (rows df))) as [|v vs] eqn:Hf;
        [simpl in Hm; lia|].
      assert (Hv : In v (filter isnull (map (cell_at i) (rows df))))
        by (rewrite Hf; now left).
      apply filter_In in Hv as [Hv Hnull]. apply in_map_iff in Hv as (r & <- & Hr).
      exists r. split; [exact Hr|]. now destruct (cell_at i r). }
    destruct Hna as (r & Hr & Hk). destruct (Hcov r Hr) as (r' & Hr' & Hk').
    apply in_map_iff. exists r'. split; [congruence | exact Hr']. }
  assert (Hdone : forall res ws1,
    (forall w', resolve_duplicates df w' = (Ret res, add_events w' (map EvWarn ws1))) ->
    columns res = columns df -> incl (rows res) (rows df) -> df_empty res = false ->
    ((0 <? m) = true ->
     In (WMissingPK m) (missing_key_warning m ++ ws1 ++ issues_warning m) /\
     In WDQIssues (missing_key_warning m ++ ws1 ++ issues_warning m) /\
     In NA (column_values unique_key res)) ->
    exists o ws,
      quality_checks df w = (o, add_events w (map EvWarn ws)) /\
      ((exists df' b, o = Ret (df', b) /\ columns df' = columns df /\
                      incl (rows df') (rows df) /\
                      df_empty df' = false /\ b = (0 <? m) /\
                      (b = true -> In (WMissingPK m) ws /\ In WDQIssues ws /\
                                   In NA (column_values unique_key df'))) \/
       (exists e, o = Raise e /\ ~ In WDQIssues ws))).
  { intros res ws1 Hres Hcols Hincl Hnonempty Hf.
    eexists _, _. split; [exact (quality_checks_around df w _ _ Hne Hkey Hres)|].
    left. exists res, (0 <? m). repeat split; auto; now apply Hf. }
  destruct (duplicated_rows i (rows df)) as [|d ds] eqn:Hdup.
  - apply (Hdone df []); auto.
    + intro w'. now apply (resolve_duplicates_none df w' i).
    + apply incl_refl.
    + intro Hm. destruct df as [cs rs]. apply (Hflag rs []); [|exact Hm].
      intros r Hr. exists r. auto.
  - assert (Hd : duplicated_rows i (rows df) <> []) by (rewrite Hdup; discriminate).
    destruct (index_of INCREMENTAL_COLUMN (columns df)) as [j|] eqn:Hj.
    + destruct (mixed_types (map (cell_at j) (rows df))) eqn:Hmix.
      * destruct (resolve_duplicates_mixed df w i j Hi Hd Hj Hmix) as (e & ws1 & _).
        assert (Hall : forall w', resolve_duplicates df w'
          = (Raise (TypeError "'<' not supported"),
             add_events w' (map EvWarn [WDuplicatePK (List.length (duplicated_rows i (rows df)))]))).
        { intro w'. unfold resolve_duplicates. rewrite Hi, Hdup.
          unfold bind, warn. rewrite emit_eq. unfold has_column.
          rewrite (index_of_some_has _ _ _ Hj). unfold sort_values.
          rewrite Hj, Hmix. reflexivity. }
        eexists _, _. split; [exact (quality_checks_raises df w _ _ Hne Hkey Hall)|].
        right. eexists. split; [reflexivity|].
        fold m. unfold missing_key_warning. intro Hin.
        destruct (0 <? m); simpl in Hin; intuition discriminate.
      * apply (Hdone (mkDF (columns df) (keep_last i (sort_rows j (rows df)))) _
                 (fun w' => resolve_duplicates_last df w' i j Hi Hd Hj Hmix)).
        -- reflexivity.
        -- intros r Hr. cbn [rows] in Hr. apply keep_last_in in Hr.
           eapply Permutation_in; [apply sort_rows_perm | exact Hr].
        -- apply nonempty_rows; [exact Hne|]. apply keep_last_nonempty.
           intro Hs. pose proof (sort_rows_perm j (rows df)) as Hp.
           rewrite Hs in Hp. apply Permutation_nil in Hp.
           now apply (df_nonempty_rows df).
        -- apply Hflag. intros r Hr. apply keep_last_covers.
           eapply Permutation_in; [symmetry; apply sort_rows_perm | exact Hr].
    + apply (Hdone (mkDF (columns df) (keep_first i [] (rows df))) _
               (fun w' => resolve_duplicates_first df w' i Hi Hd Hj)).
      * reflexivity.
      * intros r Hr. cbn [rows] in Hr. now apply keep_first_in in Hr.
      * apply nonempty_rows; [exact Hne|]. apply keep_first_nonempty.
        now apply df_nonempty_rows.
      * apply Hflag. intros r Hr. apply keep_first_covers; [exact Hr | intros []].
Qed.

(** How [transform_data] can end on a non-empty frame. *)
Lemma transform_data_cases L df w :
  df_empty df = false ->
  exists o ws,
    transform_data L df w = (o, add_events w (map EvWarn ws)) /\
    ((exists df', o = Ret df' /\ df_empty df' = false) \/ (exists e, o = Raise e)).
Proof.
  intro Hne. unfold transform_data. rewrite Hne. unfold bind at 1.
  destruct (clean_column_names_eq df w) as (ws0 & ->).
  unfold bind at 1.
  destruct (convert_data_types_shape L (clean_frame df) (add_events w (map EvWarn ws0)))
    as (df1 & ws1 & -> & Hs1).
  assert (Hne1 : df_empty df1 = false).
  { eapply same_shape_nonempty; [exact Hs1|]. unfold df_empty, clean_frame in *.
    cbn [columns rows]. now rewrite final_names_length, length_map. }
  unfold perform_data_quality_checks, bind.
  destruct (quality_checks_cases df1
              (add_events (add_events w (map EvWarn ws0)) (map EvWarn ws1)) Hne1)
    as (o & ws2 & -> & Ho).
  rewrite !add_events_app, <- !map_app.
  destruct Ho as [(df' & b & -> & _ & _ & Hne' & _) | (e & -> & Hnot)].
  - eexists _, _. split; [reflexivity|]. left. eauto.
  - eexists _, _. split; [reflexivity|]. right. eauto.
Qed.

Lemma update_state_cases E last latest w :
  exists saved ws w',
    update_state E last latest w = (Ret tt, w') /\
    match saved with
    | Some ts =>
        latest = Some ts /\ should_save last latest = true /\ ws = [] /\
        w' = mkWorld (Some ts) (db w) (txn w) (trace w ++ [EvSaveWatermark ts])
    | None => w' = add_events w (map EvWarn ws)
    end.
Proof.
  unfold update_state. destruct latest as [l|].
  - destruct (should_save last (Some l)) eqn:Hs.
    + unfold save_last_run_timestamp. destruct (file_writable E).
      * exists (Some l), []. eexists. split; [reflexivity|]. auto.
      * exists None, [], w. split; [reflexivity|]. now rewrite add_events_nil.
    + destruct (negb (truthy (Some l))).
      * exists None, [WWatermarkNotUpdated]. eexists. split; reflexivity.
      * exists None, [], w. split; [reflexivity|]. now rewrite add_events_nil.
  - exists None, [WWatermarkNotUpdated]. eexists. split; reflexivity.
Qed.

(** Every run follows one of the paths. *)
Lemma run_etl_path L E w :
  exists o w' evs, run_etl L E w = (o, w') /\ run_path L E w o w' evs.
Proof.
  unfold run_etl, try_finally, try_except, get_db_engine.
  destruct (engine_ok E) eqn:Heng.
  2:{ unfold bind, raise, sys_exit, when, ret. eexists _, _, _.
      split; [reflexivity | now constructor]. }
  unfold bind at 1. unfold ret at 1. unfold bind at 1.
  rewrite get_last_run_timestamp_eq. unfold bind at 1.
  destruct (fetch_fire_data_returns L E (read_watermark w) w)
    as (r1 & evs1 & Hfetch & Hall).
  rewrite Hfetch. unfold when.
  destruct r1 as [raw|].
  2:{ unfold sys_exit. rewrite emit_eq, add_events_app. eexists _, _, _.
      split; [reflexivity | now constructor]. }
  destruct (df_empty raw) eqn:Hraw.
  { unfold sys_exit. rewrite emit_eq, add_events_app. eexists _, _, _.
    split; [reflexivity | now apply path_no_new_data with (raw := raw)]. }
  unfold bind at 1.
  destruct (latest_timestamp_cases L raw (add_events w evs1)) as (latest & ws2 & Hlat).
  rewrite Hlat. rewrite add_events_app in Hlat |- *. unfold bind at 1.
  destruct (transform_data_cases L raw (add_events w (evs1 ++ map EvWarn ws2)) Hraw)
    as (o3 & ws3 & Htr & Ho3).
  rewrite Htr. rewrite add_events_app, <- app_assoc in Htr |- *.
  destruct Ho3 as [(df & -> & Hdf) | (e & ->)].
  2:{ unfold sys_exit. rewrite emit_eq, add_events_app, <- !app_assoc.
      eexists _, _, _. split; [reflexivity|].
      eapply path_transform_failed; eassumption. }
  rewrite Hdf. unfold bind at 1.
  destruct (load_data_to_staging_cases E df
              (add_events w (evs1 ++ map EvWarn ws2 ++ map EvWarn ws3)))
    as (o4 & w4 & evs4 & Hload & Hrun4 & Hs4 & Hl4 & Ho4).
  rewrite Hload.
  destruct Ho4 as [[-> Hc4] | (e & -> & Hnc & Hrows & _)].
  - destruct Hc4 as [[Hc4 _] | Hc4]; [congruence|].
    destruct (update_state_cases E (read_watermark w) latest w4)
      as (saved & ws5 & w5 & Hsave & Hsaved).
    rewrite Hsave, emit_eq. eexists _, _, _. split; [reflexivity|].
    eapply path_loaded; eassumption.
  - unfold sys_exit. rewrite emit_eq. eexists _, _, _. split; [reflexivity|].
    eapply path_load_failed; eassumption.
Qed.

Lemma string_leb_neq_ltb s t :
  String.leb s t = true -> s <> t -> String.ltb s t = true.
Proof.
  unfold String.leb, String.ltb. intros Hle Hne.
  destruct (String.compare s t) eqn:Hc; try reflexivity; try discriminate.
  apply String.compare_eq_iff in Hc. contradiction.
Qed.

Lemma should_save_spec last ts :
  should_save last (Some ts) = true -> nonempty ts = true /\ last <> Some ts.
Proof.
  unfold should_save. intro H. apply andb_true_iff in H as [Hn He].
  split; [exact Hn|]. intros ->. simpl in He. now rewrite String.eqb_refl in He.
Qed.

Lemma in_save_events ts saved :
  In (EvSaveWatermark ts) (save_events saved) -> saved = Some ts.
Proof.
  destruct saved as [s|]; simpl; [|contradiction].
  intros [[= ->] | []]. reflexivity.
Qed.

Lemma count_saves_save_events saved : count_saves (save_events saved) <= 1.
Proof. destruct saved; unfold count_saves; simpl; lia. Qed.

(** C2 (as amended).  In every run the watermark file is written at
    most once.  When it is written, the run is one that ends normally,
    the write comes after the commit of the load, and the value written
    is the formatted maximum of the incremental column of the fetched
    batch, non-empty and different from the watermark read at the start
    (the code compares with [!=]): so the write is a strict increase in
    string order whenever that maximum is not before the old watermark,
    which the code itself does not check.  When nothing is written the
    file is as before. *)
Theorem watermark_saved_once_after_commit : forall L E w,
  exists o w' evs,
    run_etl L E w = (o, w') /\ trace w' = (trace w ++ evs)%list /\
    count_saves evs <= 1 /\
    (count_saves evs = 0 -> wm_file w' = wm_file w) /\
    (forall ts, In (EvSaveWatermark ts) evs ->
       o = Ret tt /\ wm_file w' = Some ts /\
       (exists before after,
          evs = (before ++ EvSaveWatermark ts :: after)%list /\
          In EvCommit before /\ count_saves before = 0 /\ count_saves after = 0) /\
       nonempty ts = true /\ read_watermark w <> Some ts /\
       (exists raw w1 w2,
          fetch_fire_data L E (read_watermark w) w = (Ret (Some raw), w1) /\
          latest_timestamp L raw w1 = (Ret (Some ts), w2)) /\
       (forall old, read_watermark w = Some old ->
          String.leb old ts = true -> String.ltb old ts = true)).
Proof.
  intros L E w. destruct (run_etl_path L E w) as (o & w' & evs & Heq & Hpath).
  exists o, w', evs. split; [exact Heq|].
  destruct Hpath as
    [ Hno
    | evs1 _ Hf Hall
    | evs1 raw _ Hf Hall Hraw
    | evs1 raw latest ws2 e ws3 _ Hf Hall _ Hl Ht
    | evs1 raw latest ws2 df ws3 e w4 evs4 _ Hf Hall _ Hl Ht _ _ Hrun4 Hs4 Hload Hnc _
    | evs1 raw latest ws2 df ws3 w4 evs4 saved ws5 w5 _ Hf Hall _ Hl Ht _ _ Hrun4 Hs4
        Hload Hc4 _ Hsaved ].
  - split; [now rewrite app_nil_r|]. split; [unfold count_saves; simpl; lia|].
    split; [reflexivity|]. intros ts [].
  - pose proof (fetch_events_no_saves _ Hall) as Hs1.
    assert (Hs : count_saves (evs1 ++ [EvDispose]) = 0)
      by (rewrite count_saves_app, Hs1; reflexivity).
    split; [reflexivity|]. split; [lia|]. split; [reflexivity|].
    intros ts Hin. now apply (count_saves_in_none _ Hs) in Hin.
  - pose proof (fetch_events_no_saves _ Hall) as Hs1.
    assert (Hs : count_saves (evs1 ++ [EvDispose]) = 0)
      by (rewrite count_saves_app, Hs1; reflexivity).
    split; [reflexivity|]. split; [lia|]. split; [reflexivity|].
    intros ts Hin. now apply (count_saves_in_none _ Hs) in Hin.
  - pose proof (fetch_events_no_saves _ Hall) as Hs1.
    assert (Hs : count_saves (evs1 ++ map EvWarn ws2 ++ map EvWarn ws3 ++ [EvDispose]) = 0)
      by (rewrite !count_saves_app, Hs1, !warnings_no_saves; reflexivity).
    split; [reflexivity|]. split; [lia|]. split; [reflexivity|].
    intros ts Hin. now apply (count_saves_in_none _ Hs) in Hin.
  - pose proof (fetch_events_no_saves _ Hall) as Hs1.
    destruct Hrun4 as [Hwm4 Htr4].
    assert (Hs : count_saves (evs1 ++ map EvWarn ws2 ++ map EvWarn ws3
                                ++ evs4 ++ [EvDispose]) = 0)
      by (rewrite !count_saves_app, Hs1, !warnings_no_saves, Hs4; reflexivity).
    split.
    { cbn [add_events trace]. rewrite Htr4. cbn [add_events trace].
      now rewrite <- !app_assoc. }
    split; [lia|]. split; [intros _; exact Hwm4|].
    intros ts Hin. now apply (count_saves_in_none _ Hs) in Hin.
  - pose proof (fetch_events_no_saves _ Hall) as Hs1.
    destruct Hrun4 as [Hwm4 Htr4].
    set (before := (evs1 ++ map EvWarn ws2 ++ map EvWarn ws3 ++ evs4)%list).
    assert (Hsb : count_saves before = 0)
      by (unfold before; rewrite !count_saves_app, Hs1, !warnings_no_saves, Hs4;
          reflexivity).
    assert (Hcb : In EvCommit before) by (unfold before; find_in).
    assert (Hsa : count_saves (map EvWarn ws5 ++ [EvDispose]) = 0)
      by (rewrite count_saves_app, warnings_no_saves; reflexivity).
    assert (Hevs : (evs1 ++ map EvWarn ws2 ++ map EvWarn ws3 ++ evs4
                      ++ save_events saved ++ map EvWarn ws5 ++ [EvDispose])%list
                   = (before ++ save_events saved
                        ++ map EvWarn ws5 ++ [EvDispose])%list)
      by (unfold before; now rewrite <- !app_assoc).
    rewrite Hevs.
    assert (Htr5 : trace w5
                   = (trace w ++ before ++ save_events saved ++ map EvWarn ws5)%list).
    { destruct saved as [ts|].
      - destruct Hsaved as (_ & _ & -> & ->). cbn [trace save_events map].
        rewrite Htr4. cbn [add_events trace]. unfold before.
        now rewrite app_nil_r, <- !app_assoc.
      - subst w5. cbn [save_events add_events trace]. rewrite Htr4.
        cbn [add_events trace]. unfold before. now rewrite <- !app_assoc. }
    split.
    { cbn [add_events trace]. rewrite Htr5. now rewrite <- !app_assoc. }
    split.
    { rewrite count_saves_app, Hsb, count_saves_app, Hsa.
      pose proof (count_saves_save_events saved). lia. }
    split.
    { intro Hz. destruct saved as [ts|].
      - rewrite !count_saves_app in Hz.
        change (count_saves (save_events (Some ts))) with 1 in Hz. lia.
      - subst w5. exact Hwm4. }
    intros ts Hin.
    apply in_app_or in Hin as [Hin | Hin];
      [now apply (count_saves_in_none _ Hsb) in Hin|].
    apply in_app_or in Hin as [Hin | Hin];
      [|now apply (count_saves_in_none _ Hsa) in Hin].
    apply in_save_events in Hin. subst saved.
    destruct Hsaved as (-> & Hshould & -> & ->).
    apply should_save_spec in Hshould as [Hne Hdiff].
    split; [reflexivity|]. split; [reflexivity|]. split.
    { exists before, [EvDispose]. repeat split; auto. }
    split; [exact Hne|]. split; [exact Hdiff|]. split.
    { eexists _, _, _. split; eassumption. }
    intros old Hold Hle. apply string_leb_neq_ltb; [exact Hle|].
    intros ->. now apply Hdiff.
Qed.

(** Counterexample to C2 as stated ("only when the new value is strictly
    greater ... hence monotonically non-decreasing").  The state file
    holds a watermark with microseconds, 00:00:00.000500; the source
    returns one record stamped 00:00:00.000900, after the watermark.
    The run loads it and ends normally; the maximum of the batch,
    cut to milliseconds, is 00:00:00.000: it differs from the old
    watermark, so it is written, and it is before it. *)
Lemma watermark_can_move_back :
  let E := healthy_env 2000
             (slice_api [incident (Str "9") (Str "2024-06-01T00:00:00.000900") "z"]) in
  let w := world0 (Some "2024-06-01T00:00:00.000500") None in
  fst (run_etl sample_lib E w) = Ret tt /\
  read_watermark w = Some "2024-06-01T00:00:00.000500" /\
  wm_file (snd (run_etl sample_lib E w)) = Some "2024-06-01T00:00:00.000" /\
  String.ltb "2024-06-01T00:00:00.000" "2024-06-01T00:00:00.000500" = true /\
  String.ltb "2024-06-01T00:00:00.000500" "2024-06-01T00:00:00.000900" = true /\
  In (EvSaveWatermark "2024-06-01T00:00:00.000") (trace (snd (run_etl sample_lib E w))).
Proof.
  intros E w. vm_compute. repeat split. repeat (first [now left | right]).
Qed.

(** The same with a source that ignores the filter: the watermark
    2024-06-01 is replaced by 2024-02-01. *)
Lemma watermark_follows_old_records :
  let E := healthy_env 2000 (slice_api old_records) in
  let w := world0 (Some "2024-06-01T00:00:00.000") None in
  fst (run_etl sample_lib E w) = Ret tt /\
  wm_file (snd (run_etl sample_lib E w)) = Some "2024-02-01T00:00:00.000" /\
  String.ltb "2024-02-01T00:00:00.000" "2024-06-01T00:00:00.000" = true.
Proof. intros E w. vm_compute. repeat split. Qed.

(** C3 (as amended).  Missing keys are flagged, not halted on.  On a
    non-empty batch whose key column has missing values the quality
    checks either raise (the sort of step 2 met texts and numbers) or
    return with the flag [issues_found] raised, the failed check and
    the closing warning logged, and a non-empty frame that still holds
    a row without key.  The flag does not leave the function: whenever
    [transform_data] returns a frame in a run, missing keys or not,
    [load_data_to_staging] is then called. *)
Theorem missing_keys_flagged_then_loaded : forall L E w,
  (forall df w0,
     df_empty df = false -> has_column unique_key df = true ->
     0 < count_null (column_values unique_key df) ->
     exists o ws,
       quality_checks df w0 = (o, add_events w0 (map EvWarn ws)) /\
       ((exists df', o = Ret (df', true) /\
                     In (WMissingPK (count_null (column_values unique_key df))) ws /\
                     In WDQIssues ws /\
                     df_empty df' = false /\
                     In NA (column_values unique_key df')) \/
        (exists e, o = Raise e))) /\
  (engine_ok E = true ->
   forall raw w1 latest w2 df w3,
     fetch_fire_data L E (read_watermark w) w = (Ret (Some raw), w1) ->
     df_empty raw = false ->
     latest_timestamp L raw w1 = (Ret latest, w2) ->
     transform_data L raw w2 = (Ret df, w3) ->
     exists evs,
       trace (snd (run_etl L E w)) = (trace w3 ++ evs)%list /\ In EvLoad evs).
Proof.
  intros L E w. split.
  - intros df w0 Hne Hkey Hmiss.
    destruct (quality_checks_cases df w0 Hne) as (o & ws & Heq & Ho).
    exists o, ws. split; [exact Heq|].
    destruct Ho as [(df' & b & -> & _ & _ & Hne' & -> & Hb) | (e & -> & _)]; [|eauto].
    left. exists df'. apply Nat.ltb_lt in Hmiss. rewrite Hmiss in *.
    destruct (Hb eq_refl) as (H1 & H2 & H3). auto.
  - intros Heng raw w1 latest w2 df w3 Hfetch Hraw Hlat Htr.
    destruct (run_etl_path L E w) as (o & w' & evs & Heq & Hpath).
    rewrite Heq. cbn [snd].
    destruct Hpath as
      [ Hno
      | evs1 _ Hf _
      | evs1 raw0 _ Hf _ Hraw0
      | evs1 raw0 latest0 ws2 e ws3 _ Hf _ _ Hl Ht
      | evs1 raw0 latest0 ws2 df0 ws3 e w4 evs4 _ Hf _ _ Hl Ht _ _ Hrun4 _ Hload _ _
      | evs1 raw0 latest0 ws2 df0 ws3 w4 evs4 saved ws5 w5 _ Hf _ _ Hl Ht _ _ Hrun4 _
          Hload _ _ Hsaved ];
      [congruence | rewrite Hfetch in Hf; discriminate Hf | ..];
      rewrite Hfetch in Hf; injection Hf as -> ->; [congruence | ..];
      rewrite Hlat in Hl; injection Hl as -> ->;
      rewrite Htr in Ht; [discriminate Ht | ..];
      injection Ht as -> ->; destruct Hrun4 as [_ Htr4].
    + exists (evs4 ++ [EvDispose])%list. split.
      * cbn [add_events trace] in *. rewrite Htr4. now rewrite <- !app_assoc.
      * find_in.
    + exists (evs4 ++ save_events saved ++ map EvWarn ws5 ++ [EvDispose])%list. split.
      * destruct saved as [ts|].
        -- destruct Hsaved as (_ & _ & -> & ->).
           cbn [add_events trace save_events map] in *.
           rewrite Htr4. now rewrite <- !app_assoc.
        -- subst w5. cbn [add_events trace save_events] in *. rewrite Htr4.
           now rewrite <- !app_assoc.
      * find_in.
Qed.

(** Counterexample to C3 as stated ("the pipeline halts before the
    Upsert Loader is ever invoked"): one of two fetched records has no
    [incident_number].  The failed check is logged and the load step is
    called all the same; it is the database that refuses the row
    without key, and the run ends with status 1. *)
Lemma missing_key_batch_reaches_the_loader :
  let E := healthy_env 2000 (slice_api missing_key_records) in
  let w := world0 None None in
  In (EvWarn (WMissingPK 1)) (trace (snd (run_etl sample_lib E w))) /\
  In EvLoad (trace (snd (run_etl sample_lib E w))) /\
  In EvRollback (trace (snd (run_etl sample_lib E w))) /\
  fst (run_etl sample_lib E w) = Exit 1.
Proof.
  intros E w. vm_compute.
  repeat split; repeat (first [now left | right]).
Qed.

(** Witness of [watermark_saved_once_after_commit]: a first run over
    two records writes the later timestamp, once, after the commit. *)
Lemma watermark_saved_once_after_commit_witness :
  let E := healthy_env 2000 (slice_api old_records) in
  let w := world0 None None in
  exists o w' evs,
    run_etl sample_lib E w = (o, w') /\
    trace w' = evs /\ count_saves evs <= 1 /\
    o = Ret tt /\ wm_file w' = Some "2024-02-01T00:00:00.000" /\
    exists before after,
      evs = (before ++ EvSaveWatermark "2024-02-01T00:00:00.000" :: after)%list /\
      In EvCommit before.
Proof.
  intros E w.
  destruct (watermark_saved_once_after_commit sample_lib E w)
    as (o & w' & evs & Heq & Htr & Hcount & _ & Hsave).
  exists o, w', evs. split; [exact Heq|]. split; [exact Htr|].
  split; [exact Hcount|].
  assert (Hin : In (EvSaveWatermark "2024-02-01T00:00:00.000") evs).
  { vm_compute in Heq. injection Heq as _ Hw. rewrite <- Hw in Htr.
    simpl in Htr. rewrite <- Htr. repeat (first [now left | right]). }
  destruct (Hsave _ Hin) as (Ho & Hwm & (before & after & Hsplit & Hc & _) & _).
  split; [exact Ho|]. split; [exact Hwm|].
  exists before, after. split; assumption.
Defined.

(** Witness of [missing_keys_flagged_then_loaded]: the gate flags a
    frame with a missing key, and the run over a batch with a missing
    key reaches the load step. *)
Lemma missing_keys_flagged_then_loaded_witness :
  let E := healthy_env 2000 (slice_api missing_key_records) in
  let w := world0 None None in
  (exists o ws,
     quality_checks (mkDF ["incident_number"] [[NA]; [Str "1"]]) w
       = (o, add_events w (map EvWarn ws)) /\
     exists df', o = Ret (df', true) /\ In (WMissingPK 1) ws) /\
  (exists w3 evs,
     trace (snd (run_etl sample_lib E w)) = (trace w3 ++ evs)%list /\
     In EvLoad evs).
Proof.
  intros E w.
  destruct (missing_keys_flagged_then_loaded sample_lib E w) as [Hgate Hroute].
  split.
  - destruct (Hgate (mkDF ["incident_number"] [[NA]; [Str "1"]]) w
                eq_refl eq_refl ltac:(vm_compute; lia))
      as (o & ws & Heq & Ho).
    exists o, ws. split; [exact Heq|].
    destruct Ho as [(df' & -> & Hm & _) | (e & ->)].
    + exists df'. split; [reflexivity | exact Hm].
    + vm_compute in Heq. discriminate Heq.
  - pose (r1 := fetch_fire_data sample_lib E (read_watermark w) w).
    pose (raw := DataFrame_of_records missing_key_records).
    pose (r2 := latest_timestamp sample_lib raw (snd r1)).
    pose (r3 := transform_data sample_lib raw (snd r2)).
    destruct (Hroute eq_refl raw (snd r1)
                (Some "2024-02-01T00:00:00.000") (snd r2)
                (mkDF ["incident_number"; "response_timestamp"; "address"]
                   [[Str "1"; Str "2024-01-01T00:00:00.000"; Str "x"];
                    [NA; Str "2024-02-01T00:00:00.000"; Str "y"]])
                (snd r3))
      as (evs & Htr & Hin).
    + vm_compute. reflexivity.
    + reflexivity.
    + vm_compute. reflexivity.
    + vm_compute. reflexivity.
    + exists (snd r3), evs. split; assumption.
Defined.

(* ------------------------------------------------------------------ *)
(** *** Datetime columns at the load interface *)



(* ================================================================== *)
(** * Further properties of the pipeline *)


(* ================================================================== *)
(** * Further properties *)

(* ------------------------------------------------------------------ *)
(** ** etl/extract.py: the requests and what comes back *)

Section FetchRun.
Variable L : PyLib.
Variable E : Env.

Lemma request_events_app limit wh from a b :
  request_events limit wh from (a + b)
  = (request_events limit wh from a ++ request_events limit wh (from + a) b)%list.
Proof.
  unfold request_events. now rewrite seq_app, map_app.
Qed.

(** One run of the loop from iteration [ic]: [n] requests, all but the
    last answered by a full page. *)
Lemma fetch_loop_run fuel : forall ic wh acc w,
  ic + fuel = 10 -> 1 <= fuel ->
  exists n,
    1 <= n <= fuel /\
    (forall k, ic <= k < ic + n - 1 -> full_page E wh k = true) /\
    (full_page E wh (ic + n - 1) = true -> ic + n = 10) /\
    fetch_loop E fuel ic (Z.of_nat ic * BATCH_SIZE E)%Z wh acc w
    = (Ret (if request_fails E wh (ic + n - 1) then None
            else Some (acc ++ List.concat (map (page_of E wh) (seq ic n)))%list),
       add_events w
         (request_events (BATCH_SIZE E) wh ic n
            ++ (if full_page E wh (ic + n - 1)
                then [EvWarn WMaxIterations] else []))).
Proof.
  induction fuel as [|fuel IH]; intros ic wh acc w Hsum Hfuel; [lia|].
  cbn [fetch_loop]. unfold bind at 1. rewrite emit_eq.
  pose proof (eq_refl (api E ic (request_of E wh ic))) as Hapi.
  unfold request_of at 2 in Hapi.
  destruct (api E ic (mkReq (BATCH_SIZE E) (Z.of_nat ic * BATCH_SIZE E) wh))
    as [|d] eqn:Hans.
  - (* the request failed *)
    exists 1. replace (ic + 1 - 1) with ic by lia.
    unfold request_fails, full_page. rewrite Hapi.
    split; [lia|]. split; [intros; lia|]. split; [discriminate|].
    unfold ret. cbn [request_events seq map]. now rewrite app_nil_r.
  - destruct d as [|r d'].
    + (* an empty page *)
      exists 1. replace (ic + 1 - 1) with ic by lia.
      unfold request_fails, full_page, page_of. rewrite Hapi.
      split; [lia|]. split; [intros; lia|]. split; [discriminate|].
      unfold ret. cbn [seq map List.concat request_events].
      unfold page_of. rewrite Hapi. now rewrite !app_nil_r.
    + set (d := r :: d') in *.
      destruct (Z.of_nat (List.length d) <? BATCH_SIZE E)%Z eqn:Hshort.
      * (* a short page *)
        exists 1. replace (ic + 1 - 1) with ic by lia.
        unfold request_fails, full_page, page_of. rewrite Hapi, Hshort.
        split; [lia|]. split; [intros; lia|].
        split; [rewrite andb_false_r; discriminate|].
        unfold ret. cbn [seq map List.concat request_events].
        unfold page_of. rewrite Hapi. now rewrite andb_false_r, !app_nil_r.
      * assert (Hfull : full_page E wh ic = true).
        { unfold full_page. rewrite Hapi, Hshort. reflexivity. }
        destruct (max_iterations <=? ic + 1) eqn:Hcap.
        -- (* the tenth full page *)
           apply Nat.leb_le in Hcap. unfold max_iterations in Hcap.
           exists 1. replace (ic + 1 - 1) with ic by lia.
           unfold request_fails, page_of. rewrite Hapi, Hfull.
           split; [lia|]. split; [intros; lia|]. split; [lia|].
           unfold bind, warn. rewrite emit_eq, add_events_app.
           unfold ret. cbn [seq map List.concat request_events].
           unfold page_of. rewrite Hapi. now rewrite app_nil_r.
        -- apply Nat.leb_gt in Hcap. unfold max_iterations in Hcap.
           replace (Z.of_nat ic * BATCH_SIZE E + BATCH_SIZE E)%Z
             with (Z.of_nat (ic + 1) * BATCH_SIZE E)%Z by lia.
           destruct (IH (ic + 1) wh (acc ++ d)%list (add_events w
                       [EvRequest ic (mkReq (BATCH_SIZE E)
                                        (Z.of_nat ic * BATCH_SIZE E) wh)]))
             as (n & Hn & Hbefore & Hlast & Heq); [lia | lia |].
           exists (S n).
           replace (ic + S n - 1) with (ic + 1 + n - 1) by lia.
           split; [lia|]. split.
           { intros k Hk. destruct (Nat.eq_dec k ic) as [->|Hne]; [exact Hfull|].
             apply Hbefore. lia. }
           split; [intro H; apply Hlast in H; lia|].
           rewrite Heq, add_events_app. f_equal.
           ++ destruct (request_fails E wh (ic + 1 + n - 1)); [reflexivity|].
              f_equal. cbn [seq map List.concat]. unfold page_of at 2. rewrite Hapi.
              replace (S ic) with (ic + 1) by lia. now rewrite app_assoc.
           ++ f_equal. rewrite request_events_cons.
              replace (S ic) with (ic + 1) by lia. reflexivity.
Qed.

(** The whole of [fetch_fire_data] for an accepted watermark. *)
Lemma fetch_fire_data_run ts w :
  accepted L ts = true ->
  exists n,
    1 <= n <= 10 /\
    (forall k, k < n - 1 -> full_page E (where_of ts) k = true) /\
    (full_page E (where_of ts) (n - 1) = true -> n = 10) /\
    fetch_fire_data L E ts w
    = (Ret (if request_fails E (where_of ts) (n - 1) then None
            else Some (frame_of (pages_upto E (where_of ts) n))),
       add_events w
         (token_warning E
            ++ request_events (BATCH_SIZE E) (where_of ts) 0 n
            ++ (if full_page E (where_of ts) (n - 1)
                then [EvWarn WMaxIterations] else []))).
Proof.
  intro Hacc. rewrite fetch_fire_data_unfold, Hacc. unfold paginate, bind.
  destruct (fetch_loop_run 10 0 (where_of ts) [] (add_events w (token_warning E)))
    as (n & Hn & Hbefore & Hlast & Heq); [reflexivity | lia |].
  cbn [Z.of_nat Z.mul] in Heq. unfold max_iterations. rewrite Heq.
  exists n. cbn [Nat.add] in *. split; [lia|].
  split; [intros k Hk; apply Hbefore; lia|]. split; [exact Hlast|].
  rewrite add_events_app. cbn [app]. unfold pages_upto.
  now destruct (request_fails E (where_of ts) (n - 1)).
Qed.

End FetchRun.

(** A run whose fetch gives the failure value ends with status 1 once
    the engine is disposed of. *)
Lemma run_etl_fetch_failed L E w w1 :
  engine_ok E = true ->
  fetch_fire_data L E (read_watermark w) w = (Ret None, w1) ->
  run_etl L E w = (Exit 1, add_events w1 [EvDispose]).
Proof.
  intros Heng Hfetch.
  unfold run_etl, try_finally, try_except, get_db_engine. rewrite Heng.
  unfold bind at 1. unfold ret at 1. unfold bind at 1.
  rewrite get_last_run_timestamp_eq. unfold bind at 1. rewrite Hfetch.
  unfold sys_exit, when. now rewrite emit_eq.
Qed.

(** X1.  For an accepted watermark, [fetch_fire_data] sends the
    requests of iterations 0 to n - 1, each with the batch size as
    limit, the offset advanced by the batch size each time and the same
    filter; it goes on as long as the page is neither empty nor shorter
    than the batch size and stops at the tenth request at the latest,
    where it logs the cap warning if that page is full too.  Unless the
    last request failed it returns all the pages it read, in order, as
    one frame. *)
Theorem fetch_reads_until_a_short_page : forall L E ts w,
  accepted L ts = true ->
  exists n,
    1 <= n <= 10 /\
    (forall k, k < n - 1 -> full_page E (where_of ts) k = true) /\
    (n < 10 -> full_page E (where_of ts) (n - 1) = false) /\
    fetch_fire_data L E ts w
    = (Ret (if request_fails E (where_of ts) (n - 1) then None
            else Some (frame_of (pages_upto E (where_of ts) n))),
       add_events w
         (token_warning E
            ++ request_events (BATCH_SIZE E) (where_of ts) 0 n
            ++ (if full_page E (where_of ts) (n - 1)
                then [EvWarn WMaxIterations] else []))).
Proof.
  intros L E ts w Hacc.
  destruct (fetch_fire_data_run L E ts w Hacc) as (n & Hn & Hbefore & Hlast & Heq).
  exists n. split; [exact Hn|]. split; [exact Hbefore|]. split; [|exact Heq].
  intro Hlt. destruct (full_page E (where_of ts) (n - 1)); [|reflexivity].
  specialize (Hlast eq_refl). lia.
Qed.

(** Witness of [fetch_reads_until_a_short_page]: five records served
    two by two are read in three requests. *)
Lemma fetch_reads_until_a_short_page_witness :
  let E := healthy_env 2 (slice_api (map numbered (seq 0 5))) in
  exists n,
    1 <= n <= 10 /\
    (forall k, k < n - 1 -> full_page E None k = true) /\
    (n < 10 -> full_page E None (n - 1) = false) /\
    fetch_fire_data sample_lib E None (world0 None None)
    = (Ret (if request_fails E None (n - 1) then None
            else Some (frame_of (pages_upto E None n))),
       add_events (world0 None None)
         (token_warning E
            ++ request_events (BATCH_SIZE E) None 0 n
            ++ (if full_page E None (n - 1)
                then [EvWarn WMaxIterations] else []))).
Proof.
  intro E.
  exact (fetch_reads_until_a_short_page sample_lib E None (world0 None None) eq_refl).
Defined.

(** X2.  When the request of iteration [k] fails after [k] full pages,
    [fetch_fire_data] returns the failure value: the pages already read
    are given up, no further request is sent, and the run ends with
    status 1 with the table and the watermark file as they were. *)
Theorem failed_request_aborts_the_run : forall L E w k,
  engine_ok E = true ->
  accepted L (read_watermark w) = true ->
  k < 10 ->
  (forall j, j < k -> full_page E (where_of (read_watermark w)) j = true) ->
  request_fails E (where_of (read_watermark w)) k = true ->
  let evs := (token_warning E
                ++ request_events (BATCH_SIZE E) (where_of (read_watermark w))
                     0 (S k))%list in
  fetch_fire_data L E (read_watermark w) w = (Ret None, add_events w evs) /\
  run_etl L E w = (Exit 1, add_events w (evs ++ [EvDispose])) /\
  db (snd (run_etl L E w)) = db w /\
  wm_file (snd (run_etl L E w)) = wm_file w.
Proof.
  intros L E w k Heng Hacc Hk Hfull Hfail evs.
  destruct (fetch_fire_data_run L E (read_watermark w) w Hacc)
    as (n & Hn & Hbefore & Hlast & Heq).
  set (wh := where_of (read_watermark w)) in *.
  assert (Hnot : full_page E wh k = false).
  { unfold full_page. unfold request_fails in Hfail.
    now destruct (api E k (request_of E wh k)). }
  assert (n = S k) as ->.
  { destruct (Nat.lt_trichotomy (n - 1) k) as [Hlt | [Heqk | Hgt]]; [| lia |].
    - specialize (Hlast (Hfull _ Hlt)). lia.
    - rewrite Hbefore in Hnot by lia. discriminate. }
  replace (S k - 1) with k in Heq by lia. rewrite Hfail, Hnot, app_nil_r in Heq.
  assert (Hrun : run_etl L E w = (Exit 1, add_events w (evs ++ [EvDispose]))).
  { rewrite (run_etl_fetch_failed L E w _ Heng Heq). now rewrite add_events_app. }
  split; [exact Heq|]. split; [exact Hrun|]. now rewrite Hrun.
Qed.

(** Witness of [failed_request_aborts_the_run]: the third request fails
    after two full pages. *)
Lemma failed_request_aborts_the_run_witness :
  let E := healthy_env 2 flaky_api in
  let w := world0 None None in
  fetch_fire_data sample_lib E None w
    = (Ret None, add_events w (request_events 2 None 0 3)) /\
  run_etl sample_lib E w
    = (Exit 1, add_events w (request_events 2 None 0 3 ++ [EvDispose])).
Proof.
  intros E w.
  assert (Hfull : forall j, j < 2 -> full_page E None j = true).
  { intros [|[|j]] Hj; [reflexivity | reflexivity | lia]. }
  destruct (failed_request_aborts_the_run sample_lib E w 2
              eq_refl eq_refl ltac:(lia) Hfull eq_refl) as (Hf & Hr & _).
  split; [exact Hf | exact Hr].
Defined.


(* ------------------------------------------------------------------ *)
(** ** etl/transform.py: column names *)











Lemma count_label_app c a b :
  count_label c (a ++ b) = count_label c a + count_label c b.
Proof. unfold count_label. now rewrite filter_app, length_app. Qed.

Lemma nth_middle_string (a : list string) x b :
  nth (List.length a) (a ++ x :: b) "" = x.
Proof. induction a as [|y a IH]; [reflexivity | exact IH]. Qed.

(** The loop of [clean_column_names], started after the names [prefix]
    with their counts in [seen]. *)
Lemma final_names_renamed rest : forall prefix seen,
  (forall c, seen_get c seen
             = if count_label c prefix =? 0 then None
               else Some (count_label c prefix - 1)) ->
  final_names seen rest
  = map (renamed (prefix ++ rest)) (seq (List.length prefix) (List.length rest)).
Proof.
  induction rest as [|col rest IH]; intros prefix seen Hseen; [reflexivity|].
  cbn [final_names List.length seq map].
  assert (Hhere : renamed (prefix ++ col :: rest) (List.length prefix)
                  = if count_label col prefix =? 0 then col
                    else col ++ "_" ++ str_of_nat (count_label col prefix)).
  { unfold renamed. rewrite nth_middle_string.
    rewrite firstn_app, firstn_all, Nat.sub_diag. cbn [firstn].
    now rewrite app_nil_r. }
  assert (Hnext : forall n,
            (forall c, seen_get c (seen_set col n seen)
                       = if count_label c (prefix ++ [col]) =? 0 then None
                         else Some (count_label c (prefix ++ [col]) - 1)) ->
            final_names (seen_set col n seen) rest
            = map (renamed (prefix ++ col :: rest))
                  (seq (S (List.length prefix)) (List.length rest))).
  { intros n Hn. rewrite (IH (prefix ++ [col])%list _ Hn).
    rewrite <- app_assoc, length_app. cbn [app List.length].
    now rewrite Nat.add_1_r. }
  assert (Hcnt : forall c, count_label c (prefix ++ [col])
                           = count_label c prefix
                             + (if String.eqb c col then 1 else 0)).
  { intro c. rewrite count_label_app. f_equal. unfold count_label.
    cbn [filter]. now destruct (String.eqb c col). }
  rewrite Hhere, Hseen.
  destruct (count_label col prefix =? 0) eqn:Hk.
  - apply Nat.eqb_eq in Hk. f_equal. apply Hnext. intro c.
    rewrite seen_get_set, Hcnt.
    destruct (String.eqb c col) eqn:Hc.
    + apply String.eqb_eq in Hc. subst c. rewrite Hk. reflexivity.
    + rewrite Hseen, !Nat.add_0_r. reflexivity.
  - apply Nat.eqb_neq in Hk.
    replace (count_label col prefix - 1 + 1) with (count_label col prefix) by lia.
    f_equal. apply Hnext. intro c.
    rewrite seen_get_set, Hcnt.
    destruct (String.eqb c col) eqn:Hc.
    + apply String.eqb_eq in Hc. subst c.
      destruct (count_label col prefix + 1 =? 0) eqn:H0;
        [apply Nat.eqb_eq in H0; lia|].
      f_equal. lia.
    + rewrite Hseen, !Nat.add_0_r. reflexivity.
Qed.

Lemma string_length_app a : forall b,
  String.length (a ++ b) = String.length a + String.length b.
Proof.
  induction a as [|c a IH]; intro b; cbn [append String.length]; [reflexivity|].
  now rewrite IH.
Qed.

Lemma append_longer a : forall b, b <> "" -> a ++ b <> a.
Proof.
  intros b Hb Heq. apply (f_equal String.length) in Heq.
  rewrite string_length_app in Heq. destruct b; [congruence|].
  cbn [String.length] in Heq. lia.
Qed.

Lemma skipn_nth_string a : forall (l : list string),
  a < List.length l -> skipn a l = nth a l "" :: skipn (S a) l.
Proof.
  induction a as [|a IH]; intros [|x l] Hlt; cbn [List.length] in Hlt; try lia.
  - reflexivity.
  - cbn [skipn nth]. rewrite IH by lia. reflexivity.
Qed.

(** The warnings of the loop from column [a] on. *)
Lemma rename_warnings_at original news n : forall a,
  List.length original = List.length news -> a + n = List.length news ->
  rename_warnings (skipn a original) (map (renamed news) (seq a n)) (skipn a news)
  = flat_map (rename_warning_at original news) (seq a n).
Proof.
  induction n as [|n IH]; intros a Hlen Han.
  - cbn [seq map flat_map]. now destruct (skipn a original).
  - rewrite (skipn_nth_string a original), (skipn_nth_string a news) by lia.
    cbn [seq map flat_map rename_warnings]. rewrite IH by lia. f_equal.
    unfold rename_warning_at, renamed.
    destruct (count_label (nth a news "") (firstn a news) =? 0).
    + now rewrite String.eqb_refl.
    + destruct (String.eqb _ (nth a news "")) eqn:Heq; [|reflexivity].
      apply String.eqb_eq in Heq. apply append_longer in Heq; [easy|].
      discriminate.
Qed.

(** X4.  [clean_column_names] keeps the rows and renames the columns
    by position: column [i] gets its cleaned name, followed by [_k] if
    [k > 0] earlier columns have the same cleaned name, and one warning
    is logged for each column renamed that way. *)
Theorem clean_column_names_by_position : forall df w,
  let new_columns := map clean_name (columns df) in
  let positions := seq 0 (List.length (columns df)) in
  clean_column_names df w
  = (Ret (mkDF (map (renamed new_columns) positions) (rows df)),
     add_events w
       (map EvWarn
          (flat_map (rename_warning_at (columns df) new_columns) positions))).
Proof.
  intros df w new_columns positions.
  unfold clean_column_names, bind. rewrite warn_all_eq. unfold ret.
  assert (Hfinal : final_names [] new_columns = map (renamed new_columns) positions).
  { rewrite (final_names_renamed new_columns [] []) by reflexivity.
    unfold positions, new_columns. now rewrite length_map. }
  fold new_columns. rewrite Hfinal. f_equal. f_equal. f_equal.
  pose proof (rename_warnings_at (columns df) new_columns
                (List.length (columns df)) 0) as Hw.
  cbn [skipn] in Hw. apply Hw; unfold new_columns; now rewrite length_map.
Qed.

Lemma string_app_assoc a : forall b c : string, a ++ (b ++ c) = (a ++ b) ++ c.
Proof.
  induction a as [|x a IH]; intros b c; cbn [append]; [reflexivity|].
  now rewrite IH.
Qed.

Lemma clean_name_app a b : clean_name (a ++ b) = clean_name a ++ clean_name b.
Proof.
  assert (Hl : forall a b, lower (a ++ b) = lower a ++ lower b).
  { induction a0 as [|c a0 IH]; intro b0; cbn [append lower]; [reflexivity|].
    now rewrite IH. }
  assert (Hr : forall x y a b,
            replace_char x y (a ++ b) = replace_char x y a ++ replace_char x y b).
  { intros x y. induction a0 as [|c a0 IH]; intro b0;
      cbn [append replace_char]; [reflexivity|].
    rewrite IH. destruct (Ascii.eqb c x); [|reflexivity].
    apply string_app_assoc. }
  unfold clean_name. now rewrite Hl, !Hr.
Qed.

(** X5.  The suffix given to a repeated name is not checked against
    the other columns: after two columns cleaned to [c], a column
    named [c_1] keeps its name, which the second column has got as
    well. *)
Theorem renamed_column_can_collide : forall c rs w,
  clean_name c = c ->
  clean_column_names (mkDF [c; c; c ++ "_1"] rs) w
  = (Ret (mkDF [c; c ++ "_1"; c ++ "_1"] rs),
     add_events w [EvWarn (WDuplicateColumnName c (c ++ "_1"))]).
Proof.
  intros c rs w Hc.
  assert (Hc1 : clean_name (c ++ "_1") = c ++ "_1").
  { now rewrite clean_name_app, Hc. }
  assert (Hne : String.eqb (c ++ "_1") c = false).
  { apply String.eqb_neq. now apply append_longer. }
  unfold clean_column_names, bind. rewrite warn_all_eq. unfold ret.
  cbn [columns rows map]. rewrite Hc, Hc1.
  cbn [final_names seen_get seen_set]. rewrite !String.eqb_refl.
  cbn [final_names seen_get seen_set]. rewrite Hne.
  cbn [final_names seen_get seen_set rename_warnings app map].
  change (c ++ "_" ++ str_of_nat (0 + 1)) with (c ++ "_1").
  rewrite !String.eqb_refl, Hne. reflexivity.
Qed.

(** Witness of [renamed_column_can_collide]. *)
Lemma renamed_column_can_collide_witness :
  clean_column_names (mkDF ["id"; "id"; "id_1"] [[Str "a"; Str "b"; Str "c"]])
    (world0 None None)
  = (Ret (mkDF ["id"; "id_1"; "id_1"] [[Str "a"; Str "b"; Str "c"]]),
     add_events (world0 None None)
       [EvWarn (WDuplicateColumnName "id" "id_1")]).
Proof.
  exact (renamed_column_can_collide "id" [[Str "a"; Str "b"; Str "c"]]
           (world0 None None) eq_refl).
Defined.


(* ------------------------------------------------------------------ *)
(** ** etl/transform.py: type conversion, column by column *)

Section ConvertValues.
Variable L : PyLib.

Lemma cell_at_map_labelled col f : f NA = NA ->
  forall cols i r,
    i < List.length cols ->
    cell_at i (map_labelled col f cols r)
    = if String.eqb (nth i cols "") col then f (cell_at i r) else cell_at i r.
Proof.
  intros Hf. unfold cell_at.
  induction cols as [|c cols IH]; intros i r Hi; cbn [List.length] in Hi; [lia|].
  destruct r as [|v r].
  - cbn [map_labelled]. destruct i; cbn [nth]; rewrite Hf; now destruct (String.eqb _ col).
  - cbn [map_labelled]. destruct i as [|i]; cbn [nth]; [reflexivity|].
    apply IH. lia.
Qed.

Lemma column_values_map_labelled c col f df : f NA = NA ->
  column_values c
    (mkDF (columns df) (map (map_labelled col f (columns df)) (rows df)))
  = if String.eqb c col then map f (column_values c df) else column_values c df.
Proof.
  intro Hf. unfold column_values. cbn [columns rows].
  destruct (index_of c (columns df)) as [i|] eqn:Hi.
  - destruct (index_of_spec _ _ _ Hi) as [Hlt Hnth].
    rewrite !map_map.
    destruct (String.eqb c col) eqn:Hc.
    + apply map_ext. intro r. now rewrite cell_at_map_labelled, Hnth, Hc.
    + apply map_ext. intro r. now rewrite cell_at_map_labelled, Hnth, Hc.
  - now destruct (String.eqb c col).
Qed.

Lemma column_values_absent c df :
  has_column c df = false -> column_values c df = [].
Proof.
  intro Hno. unfold column_values.
  destruct (index_of c (columns df)) as [i|] eqn:Hi; [|reflexivity].
  apply index_of_some_has in Hi. unfold has_column in Hno. congruence.
Qed.

Lemma convert_value_cons cd l c v :
  convert_value L (cd :: l) c v
  = if String.eqb c (fst cd) then convert_value L [cd] c v
    else convert_value L l c v.
Proof.
  unfold convert_value, dtype_of. cbn [find].
  now destruct (String.eqb c (fst cd)).
Qed.

Lemma convert_value_absent l c v :
  str_in c (map fst l) = false -> convert_value L l c v = v.
Proof.
  intro Hno. unfold convert_value, dtype_of.
  replace (find (fun cd => String.eqb c (fst cd)) l) with (@None (string * Dtype));
    [reflexivity|].
  induction l as [|cd l IH]; [reflexivity|].
  unfold str_in in Hno. cbn [map existsb] in Hno.
  apply orb_false_iff in Hno as [Hc Hl]. cbn [find]. rewrite Hc. now apply IH.
Qed.

(** One turn of the first loop: the shape, the values of a column
    whose label is not repeated, the warnings. *)
Lemma convert_column_step cd df w c :
  exists df' ws,
    convert_column L cd df w = (Ret df', add_events w (map EvWarn ws)) /\
    same_shape df df' /\
    (count_label c (columns df) <= 1 ->
     column_values c df' = map (convert_value L [cd] c) (column_values c df)) /\
    (forall x, In (WExpectedColumnMissing x) ws
               <-> x = fst cd /\ has_column (fst cd) df = false) /\
    (forall x, ~ In (WDatetimeColumnMissing x) ws).
Proof.
  destruct cd as [col dtype]. unfold convert_column. cbn [fst].
  assert (Hmap : forall f,
    same_shape df (mkDF (columns df) (map (map_labelled col f (columns df)) (rows df)))).
  { intro f. split; [reflexivity|]. cbn [rows]. rewrite map_map.
    apply map_ext. intro r. apply map_labelled_length. }
  assert (Hval : forall v,
    convert_value L [(col, dtype)] c v
    = if String.eqb c col
      then match dtype with
           | DString => astype_string L v
           | _ => to_numeric L v
           end
      else v).
  { intro v. unfold convert_value, dtype_of. cbn [find fst].
    destruct (String.eqb c col); [|reflexivity]. now destruct dtype. }
  assert (Hsame : column_values c df
                  = map (convert_value L [(col, dtype)] c) (column_values c df)
                  \/ String.eqb c col = true).
  { destruct (String.eqb c col) eqn:Hc; [now right | left].
    rewrite <- (map_id (column_values c df)) at 1. apply map_ext.
    intro v. now rewrite Hval. }
  assert (Hnone : forall ws : list Warning,
            (forall x, In x ws -> x = WConvertFailed col) ->
            has_column col df = true ->
            (forall x, In (WExpectedColumnMissing x) ws
                       <-> x = col /\ has_column col df = false) /\
            (forall x, ~ In (WDatetimeColumnMissing x) ws)).
  { intros ws Hws Hhas. split.
    - intro x. split; [intro Hin; apply Hws in Hin; discriminate|].
      intros [_ Hno]. congruence.
    - intros x Hin. apply Hws in Hin. discriminate. }
  assert (Hconv : forall f,
            f NA = NA ->
            (forall v, convert_value L [(col, dtype)] c v
                       = if String.eqb c col then f v else v) ->
            column_values c
              (mkDF (columns df) (map (map_labelled col f (columns df)) (rows df)))
            = map (convert_value L [(col, dtype)] c) (column_values c df)).
  { intros f Hf Hcv. rewrite column_values_map_labelled by exact Hf.
    destruct (String.eqb c col) eqn:Hc.
    - apply map_ext. intro v. now rewrite Hcv.
    - rewrite <- (map_id (column_values c df)) at 1. apply map_ext.
      intro v. now rewrite Hcv. }
  destruct (has_column col df) eqn:Hhas.
  - destruct dtype.
    + eexists _, []. rewrite add_events_nil.
      split; [reflexivity|]. split; [apply Hmap|]. split.
      * intros _. apply Hconv; [reflexivity | exact Hval].
      * apply Hnone; [intros x [] | reflexivity].
    + destruct (count_label col (columns df) =? 1) eqn:Hone.
      * eexists _, []. rewrite add_events_nil.
        split; [reflexivity|]. split; [apply Hmap|]. split.
        -- intros _. apply Hconv; [reflexivity | exact Hval].
        -- apply Hnone; [intros x [] | reflexivity].
      * eexists _, [_]. split; [reflexivity|]. split; [apply same_shape_refl|].
        split.
        -- intro Hle. destruct Hsame as [Hs | Hc]; [exact Hs|].
           apply String.eqb_eq in Hc. subst c.
           pose proof (has_column_count _ _ Hhas) as Hge.
           apply Nat.eqb_neq in Hone. lia.
        -- apply Hnone; [|reflexivity]. intros x [<- | []]. reflexivity.
    + destruct (count_label col (columns df) =? 1) eqn:Hone.
      * eexists _, []. rewrite add_events_nil.
        split; [reflexivity|]. split; [apply Hmap|]. split.
        -- intros _. apply Hconv; [reflexivity | exact Hval].
        -- apply Hnone; [intros x [] | reflexivity].
      * eexists _, [_]. split; [reflexivity|]. split; [apply same_shape_refl|].
        split.
        -- intro Hle. destruct Hsame as [Hs | Hc]; [exact Hs|].
           apply String.eqb_eq in Hc. subst c.
           pose proof (has_column_count _ _ Hhas) as Hge.
           apply Nat.eqb_neq in Hone. lia.
        -- apply Hnone; [|reflexivity]. intros x [<- | []]. reflexivity.
  - eexists _, [_]. split; [reflexivity|]. split; [apply same_shape_refl|].
    split; [|split].
    + intros _. destruct Hsame as [Hs | Hc]; [exact Hs|].
      apply String.eqb_eq in Hc. subst c.
      now rewrite (column_values_absent col df Hhas).
    + intro x. split.
      * intros [Hx | []]. injection Hx as <-. now split.
      * intros [-> _]. now left.
    + intros x [Hx | []]. discriminate.
Qed.

Lemma same_shape_count c df df' :
  same_shape df df' -> count_label c (columns df') = count_label c (columns df).
Proof. intros [Hc _]. now rewrite Hc. Qed.

Lemma same_shape_has c df df' :
  same_shape df df' -> has_column c df' = has_column c df.
Proof. intros [Hc _]. unfold has_column. now rewrite Hc. Qed.

(** The first loop over the entries [l]. *)
Lemma first_pass_values l : forall df w c,
  Pg.nodup_labels (map fst l) = true ->
  exists df' ws,
    for_each (convert_column L) l df w = (Ret df', add_events w (map EvWarn ws)) /\
    same_shape df df' /\
    (count_label c (columns df) <= 1 ->
     column_values c df' = map (convert_value L l c) (column_values c df)) /\
    (forall x, In (WExpectedColumnMissing x) ws
               <-> In x (map fst l) /\ has_column x df = false) /\
    (forall x, ~ In (WDatetimeColumnMissing x) ws).
Proof.
  induction l as [|cd l IH]; intros df w c Hnd.
  - exists df, []. rewrite add_events_nil.
    split; [reflexivity|]. split; [apply same_shape_refl|]. split; [|split].
    + intros _. rewrite <- (map_id (column_values c df)) at 1.
      apply map_ext. intro v. reflexivity.
    + intro x. split; [intros [] | intros [[] _]].
    + intros x [].
  - cbn [for_each]. unfold bind.
    cbn [map Pg.nodup_labels] in Hnd. apply andb_true_iff in Hnd as [Hfresh Hnd].
    apply negb_true_iff in Hfresh.
    destruct (convert_column_step cd df w c)
      as (df1 & ws1 & -> & Hs1 & Hv1 & Hm1 & Hd1).
    destruct (IH df1 (add_events w (map EvWarn ws1)) c Hnd)
      as (df2 & ws2 & -> & Hs2 & Hv2 & Hm2 & Hd2).
    exists df2, (ws1 ++ ws2)%list. rewrite add_events_app, map_app.
    split; [reflexivity|]. split; [eapply same_shape_trans; eassumption|].
    split; [|split].
    + intro Hle. rewrite Hv2 by (now rewrite (same_shape_count c df df1 Hs1)).
      rewrite (Hv1 Hle), map_map. apply map_ext. intro v.
      rewrite (convert_value_cons cd l c).
      destruct (String.eqb c (fst cd)) eqn:Hc.
      * apply String.eqb_eq in Hc. subst c. now apply convert_value_absent.
      * f_equal. rewrite (convert_value_cons cd [] c v), Hc. reflexivity.
    + intro x. rewrite in_app_iff, Hm1, Hm2, (same_shape_has x df df1 Hs1).
      cbn [map In]. split.
      * intros [[-> Hno] | [Hin Hno]]; auto.
      * intros [[<- | Hin] Hno]; auto.
    + intros x Hin. apply in_app_or in Hin as [Hin | Hin];
        [now apply Hd1 in Hin | now apply Hd2 in Hin].
Qed.

(** One turn of the second loop. *)
Lemma convert_datetime_values col df w c :
  exists df' ws,
    convert_datetime L col df w = (Ret df', add_events w (map EvWarn ws)) /\
    same_shape df df' /\
    (well_formed df = true -> count_label c (columns df) <= 1 ->
     column_values c df'
     = if String.eqb c col
       then map format_or_empty (to_datetime L (column_values c df))
       else column_values c df) /\
    (forall x, In (WDatetimeColumnMissing x) ws
               <-> x = col /\ has_column col df = false) /\
    (forall x, ~ In (WExpectedColumnMissing x) ws).
Proof.
  unfold convert_datetime.
  destruct (has_column col df) eqn:Hhas.
  - destruct (count_label col (columns df) =? 1) eqn:Hone.
    + eexists _, []. rewrite add_events_nil.
      split; [reflexivity|]. split; [apply assign_column_shape|].
      split; [|split].
      * intros Hwf _. destruct (String.eqb c col) eqn:Hc.
        -- apply String.eqb_eq in Hc. subst c.
           apply assign_column_same; [exact Hwf | exact Hhas |].
           intro vs. now rewrite length_map, to_datetime_length.
        -- apply assign_column_other. intros ->. now rewrite String.eqb_refl in Hc.
      * intro x. split; [intros [] | intros [_ Hno]; congruence].
      * intros x [].
    + eexists _, [_]. split; [reflexivity|]. split; [apply same_shape_refl|].
      split; [|split].
      * intros _ Hle. destruct (String.eqb c col) eqn:Hc; [|reflexivity].
        apply String.eqb_eq in Hc. subst c.
        pose proof (has_column_count _ _ Hhas) as Hge.
        apply Nat.eqb_neq in Hone. lia.
      * intro x. split; [intros [Hx | []]; discriminate | intros [_ Hno]; congruence].
      * intros x [Hx | []]. discriminate.
  - eexists _, [_]. split; [reflexivity|]. split; [apply same_shape_refl|].
    split; [|split].
    + intros _ _. destruct (String.eqb c col) eqn:Hc; [|reflexivity].
      apply String.eqb_eq in Hc. subst c.
      now rewrite (column_values_absent col df Hhas).
    + intro x. split.
      * intros [Hx | []]. injection Hx as <-. now split.
      * intros [-> _]. now left.
    + intros x [Hx | []]. discriminate.
Qed.

(** The second loop over the labels [l]. *)
Lemma second_pass_values l : forall df w c,
  Pg.nodup_labels l = true ->
  exists df' ws,
    for_each (convert_datetime L) l df w = (Ret df', add_events w (map EvWarn ws)) /\
    same_shape df df' /\
    (well_formed df = true -> count_label c (columns df) <= 1 ->
     column_values c df'
     = if str_in c l
       then map format_or_empty (to_datetime L (column_values c df))
       else column_values c df) /\
    (forall x, In (WDatetimeColumnMissing x) ws
               <-> In x l /\ has_column x df = false) /\
    (forall x, ~ In (WExpectedColumnMissing x) ws).
Proof.
  induction l as [|col l IH]; intros df w c Hnd.
  - exists df, []. rewrite add_events_nil.
    split; [reflexivity|]. split; [apply same_shape_refl|]. split; [|split].
    + reflexivity.
    + intro x. split; [intros [] | intros [[] _]].
    + intros x [].
  - cbn [for_each]. unfold bind.
    cbn [Pg.nodup_labels] in Hnd. apply andb_true_iff in Hnd as [Hfresh Hnd].
    apply negb_true_iff in Hfresh.
    destruct (convert_datetime_values col df w c)
      as (df1 & ws1 & -> & Hs1 & Hv1 & Hm1 & Hd1).
    destruct (IH df1 (add_events w (map EvWarn ws1)) c Hnd)
      as (df2 & ws2 & -> & Hs2 & Hv2 & Hm2 & Hd2).
    exists df2, (ws1 ++ ws2)%list. rewrite add_events_app, map_app.
    split; [reflexivity|]. split; [eapply same_shape_trans; eassumption|].
    split; [|split].
    + intros Hwf Hle.
      rewrite Hv2;
        [| exact (same_shape_well_formed _ _ Hs1 Hwf)
         | now rewrite (same_shape_count c df df1 Hs1)].
      rewrite (Hv1 Hwf Hle). unfold str_in. cbn [existsb]. fold (str_in c l).
      destruct (String.eqb c col) eqn:Hc; [|reflexivity].
      apply String.eqb_eq in Hc. subst c. now rewrite Hfresh.
    + intro x. rewrite in_app_iff, Hm1, Hm2, (same_shape_has x df df1 Hs1).
      cbn [In]. split.
      * intros [[-> Hno] | [Hin Hno]]; auto.
      * intros [[<- | Hin] Hno]; auto.
    + intros x Hin. apply in_app_or in Hin as [Hin | Hin];
        [now apply Hd1 in Hin | now apply Hd2 in Hin].
Qed.

(** Both loops. *)
Lemma convert_data_types_values df w c :
  exists df' ws,
    convert_data_types L df w = (Ret df', add_events w (map EvWarn ws)) /\
    same_shape df df' /\
    (well_formed df = true -> count_label c (columns df) <= 1 ->
     column_values c df' = convert_values L c (column_values c df)) /\
    (forall x, In (WExpectedColumnMissing x) ws
               <-> In x (map fst EXPECTED_DTYPES) /\ has_column x df = false) /\
    (forall x, In (WDatetimeColumnMissing x) ws
               <-> In x DATETIME_COLUMNS /\ has_column x df = false).
Proof.
  unfold convert_data_types, bind.
  destruct (first_pass_values EXPECTED_DTYPES df w c eq_refl)
    as (df1 & ws1 & -> & Hs1 & Hv1 & Hm1 & Hd1).
  destruct (second_pass_values DATETIME_COLUMNS df1
              (add_events w (map EvWarn ws1)) c eq_refl)
    as (df2 & ws2 & -> & Hs2 & Hv2 & Hm2 & Hd2).
  exists df2, (ws1 ++ ws2)%list. rewrite add_events_app, map_app.
  split; [reflexivity|]. split; [eapply same_shape_trans; eassumption|].
  split; [|split].
  - intros Hwf Hle.
    rewrite Hv2;
      [| exact (same_shape_well_formed _ _ Hs1 Hwf)
       | now rewrite (same_shape_count c df df1 Hs1)].
    rewrite (Hv1 Hle). reflexivity.
  - intro x. rewrite in_app_iff, Hm1. split; [|auto].
    intros [H | H]; [exact H | now apply Hd2 in H].
  - intro x. rewrite in_app_iff, Hm2, (same_shape_has x df df1 Hs1).
    split; [|auto]. intros [H | H]; [now apply Hd1 in H | exact H].
Qed.


End ConvertValues.



(** X7.  A column of EXPECTED_DTYPES or DATETIME_COLUMNS that the
    frame lacks only gives a warning: [convert_data_types] logs
    "expected column not found" for exactly the missing entries of
    EXPECTED_DTYPES and "expected datetime column not found" for
    exactly the missing labels of DATETIME_COLUMNS, and returns a frame
    of the same shape. *)
Theorem missing_expected_columns_only_warn : forall L df w,
  exists df' ws,
    convert_data_types L df w = (Ret df', add_events w (map EvWarn ws)) /\
    same_shape df df' /\
    (forall x, In (WExpectedColumnMissing x) ws
               <-> In x (map fst EXPECTED_DTYPES) /\ has_column x df = false) /\
    (forall x, In (WDatetimeColumnMissing x) ws
               <-> In x DATETIME_COLUMNS /\ has_column x df = false).
Proof.
  intros L df w.
  destruct (convert_data_types_values L df w "") as (df' & ws & Heq & Hs & _ & Hm).
  exists df', ws. split; [exact Heq|]. split; [exact Hs | exact Hm].
Qed.


(* ------------------------------------------------------------------ *)
(** ** etl/transform.py: the quality checks *)

Lemma filter_none {A} (f : A -> bool) l :
  (forall x, In x l -> f x = false) -> filter f l = [].
Proof.
  induction l as [|x l IH]; intro H; [reflexivity|].
  cbn [filter]. rewrite (H x (or_introl eq_refl)). apply IH.
  intros y Hy. apply H. now right.
Qed.

(** Among rows with pairwise distinct keys a key is held at most once. *)
Lemma same_key_at_most_once i rs : NoDup (map (cell_at i) rs) ->
  forall k,
    List.length (filter (fun r' => Cell_eqb k (cell_at i r')) rs) <= 1.
Proof.
  induction rs as [|r rs IH]; intros Hnd k; [cbn; lia|].
  cbn [map] in Hnd. inversion Hnd as [|? ? Hnotin Hnd']; subst.
  cbn [filter]. destruct (Cell_eqb k (cell_at i r)) eqn:Hk.
  - apply Cell_eqb_eq in Hk. subst k.
    rewrite filter_none; [cbn; lia|].
    intros x Hx. apply Cell_eqb_neq. intro Heq. apply Hnotin.
    rewrite Heq. now apply in_map.
  - now apply IH.
Qed.

Lemma nodup_no_duplicated_rows i rs :
  NoDup (map (cell_at i) rs) -> duplicated_rows i rs = [].
Proof.
  intro Hnd. unfold duplicated_rows. apply filter_none. intros r _.
  apply Nat.ltb_ge. now apply same_key_at_most_once.
Qed.

(** What the quality checks return on a non-empty frame, when they
    return: the key column is there and no key is left twice. *)
Lemma quality_checks_resolved df w res b w' :
  df_empty df = false ->
  quality_checks df w = (Ret (res, b), w') ->
  exists i,
    index_of unique_key (columns df) = Some i /\
    columns res = columns df /\
    df_empty res = false /\
    duplicated_rows i (rows res) = [].
Proof.
  intros Hne Hq.
  destruct (has_column unique_key df) eqn:Hkey.
  2:{ unfold quality_checks in Hq. rewrite Hne, Hkey in Hq. discriminate. }
  destruct (index_of_has _ _ Hkey) as [i Hi]. exists i. split; [exact Hi|].
  destruct (duplicated_rows i (rows df)) as [|d ds] eqn:Hdup.
  - rewrite (quality_checks_around df w df [] Hne Hkey
               (fun w' => resolve_duplicates_none df w' i Hi Hdup)) in Hq.
    injection Hq as <- _ _. auto.
  - assert (Hd : duplicated_rows i (rows df) <> []) by (rewrite Hdup; discriminate).
    destruct (index_of INCREMENTAL_COLUMN (columns df)) as [j|] eqn:Hj.
    + destruct (mixed_types (map (cell_at j) (rows df))) eqn:Hmix.
      * assert (Hall : forall w', resolve_duplicates df w'
          = (Raise (TypeError "'<' not supported"),
             add_events w'
               (map EvWarn [WDuplicatePK (List.length (duplicated_rows i (rows df)))]))).
        { intro w0. unfold resolve_duplicates. rewrite Hi, Hdup.
          unfold bind, warn. rewrite emit_eq. unfold has_column.
          rewrite (index_of_some_has _ _ _ Hj). unfold sort_values.
          rewrite Hj, Hmix. reflexivity. }
        rewrite (quality_checks_raises df w _ _ Hne Hkey Hall) in Hq. discriminate.
      * rewrite (quality_checks_around df w _ _ Hne Hkey
                   (fun w' => resolve_duplicates_last df w' i j Hi Hd Hj Hmix)) in Hq.
        injection Hq as <- _ _. cbn [columns rows].
        split; [reflexivity|]. split.
        -- apply nonempty_rows; [exact Hne|]. apply keep_last_nonempty.
           intro Hs. pose proof (sort_rows_perm j (rows df)) as Hp.
           rewrite Hs in Hp. apply Permutation_nil in Hp.
           now apply (df_nonempty_rows df).
        -- apply nodup_no_duplicated_rows, keep_last_nodup.
    + rewrite (quality_checks_around df w _ _ Hne Hkey
                 (fun w' => resolve_duplicates_first df w' i Hi Hd Hj)) in Hq.
      injection Hq as <- _ _. cbn [columns rows].
      split; [reflexivity|]. split.
      * apply nonempty_rows; [exact Hne|]. apply keep_first_nonempty.
        now apply df_nonempty_rows.
      * apply nodup_no_duplicated_rows, keep_first_nodup.
Qed.

(** X8.  The quality checks settle: run again on the frame they
    returned, they return it unchanged and log no duplicate any more,
    only the warnings about missing keys, if the frame still holds
    some. *)
Theorem quality_checks_settle : forall df w df' w',
  perform_data_quality_checks df w = (Ret df', w') ->
  forall w2,
    let missing := count_null (column_values unique_key df') in
    perform_data_quality_checks df' w2
    = (Ret df',
       add_events w2
         (map EvWarn (missing_key_warning missing ++ issues_warning missing))).
Proof.
  intros df w df' w' Hp w2 missing.
  unfold perform_data_quality_checks, bind in Hp.
  destruct (quality_checks df w) as [[[res b]| | |] w1] eqn:Hq; try discriminate.
  unfold ret in Hp. cbn [fst] in Hp. injection Hp as -> ->.
  destruct (df_empty df) eqn:Hne.
  - unfold quality_checks in Hq. rewrite Hne in Hq. injection Hq as <- _ _.
    assert (Hm : missing = 0).
    { unfold missing, count_null, column_values.
      destruct (index_of unique_key (columns df)) as [i|] eqn:Hi; [|reflexivity].
      unfold df_empty in Hne. apply orb_true_iff in Hne as [Hc | Hr].
      - apply Nat.eqb_eq in Hc. destruct (columns df); [discriminate Hi | discriminate Hc].
      - apply Nat.eqb_eq in Hr. destruct (rows df); [reflexivity | discriminate Hr]. }
    rewrite Hm. unfold perform_data_quality_checks, bind, quality_checks.
    rewrite Hne. unfold ret. cbn. now rewrite add_events_nil.
  - destruct (quality_checks_resolved df w df' b w' Hne Hq)
      as (i & Hi & Hcols & Hne' & Hnodup).
    assert (Hkey' : has_column unique_key df' = true).
    { unfold has_column. rewrite Hcols. exact (index_of_some_has _ _ _ Hi). }
    rewrite <- Hcols in Hi.
    apply perform_of_quality with (r := (df', 0 <? missing)).
    rewrite (quality_checks_around df' w2 df' [] Hne' Hkey'
               (fun w0 => resolve_duplicates_none df' w0 i Hi Hnodup)).
    reflexivity.
Qed.

(** Witness of [quality_checks_settle]: the frame with key 123 twice. *)
Lemma quality_checks_settle_witness :
  exists df',
    fst (perform_data_quality_checks dup_frame (world0 None None)) = Ret df' /\
    perform_data_quality_checks df' (world0 None None)
    = (Ret df', world0 None None).
Proof.
  eexists. split; [reflexivity|].
  exact (quality_checks_settle dup_frame (world0 None None) _ _ eq_refl
           (world0 None None)).
Defined.

(** X9.  A non-empty batch without the column [incident_number] does
    not pass the quality checks: they raise ValueError at once, and so
    does [transform_data] when no column is cleaned to that name,
    having logged warnings only. *)
Theorem missing_key_column_fails_transform : forall L df w,
  df_empty df = false ->
  has_column unique_key (clean_frame df) = false ->
  (forall df0 w0,
     df_empty df0 = false -> columns df0 = columns (clean_frame df) ->
     perform_data_quality_checks df0 w0
     = (Raise (ValueError "Missing critical column: incident_number"), w0)) /\
  exists ws,
    transform_data L df w
    = (Raise (ValueError "Missing critical column: incident_number"),
       add_events w (map EvWarn ws)).
Proof.
  intros L df w Hne Hno.
  assert (Hdq : forall df0 w0,
            df_empty df0 = false -> columns df0 = columns (clean_frame df) ->
            perform_data_quality_checks df0 w0
            = (Raise (ValueError "Missing critical column: incident_number"), w0)).
  { intros df0 w0 Hne0 Hcols.
    unfold perform_data_quality_checks, quality_checks, bind.
    unfold has_column in *. rewrite Hne0, Hcols, Hno. reflexivity. }
  split; [exact Hdq|].
  unfold transform_data. rewrite Hne. unfold bind at 1.
  destruct (clean_column_names_eq df w) as (ws0 & ->). unfold bind at 1.
  destruct (convert_data_types_shape L (clean_frame df)
              (add_events w (map EvWarn ws0))) as (df1 & ws1 & -> & Hs1).
  rewrite Hdq.
  - exists (ws0 ++ ws1)%list. now rewrite add_events_app, map_app.
  - eapply same_shape_nonempty; [exact Hs1|]. unfold df_empty, clean_frame in *.
    cbn [columns rows]. now rewrite final_names_length, length_map.
  - now destruct Hs1.
Qed.

(** Witness of [missing_key_column_fails_transform]: records with an
    [id] only. *)
Lemma missing_key_column_fails_transform_witness :
  exists ws,
    transform_data sample_lib (mkDF ["ID"] [[Str "1"]]) (world0 None None)
    = (Raise (ValueError "Missing critical column: incident_number"),
       add_events (world0 None None) (map EvWarn ws)).
Proof.
  exact (proj2 (missing_key_column_fails_transform sample_lib
                  (mkDF ["ID"] [[Str "1"]]) (world0 None None) eq_refl eq_refl)).
Defined.


(* ------------------------------------------------------------------ *)
(** ** etl/utils.py and etl/main.py: the watermark *)



Lemma first_char_app a b : a <> "" -> first_char (a ++ b) = first_char a.
Proof. destruct a; [congruence | reflexivity]. Qed.


Lemma all_chars_space_strip s : all_chars is_space s = true -> strip s = "".
Proof.
  intro Hs. unfold strip.
  assert (Hl : lstrip s = "").
  { induction s as [|c s IH]; [reflexivity|]. cbn [all_chars] in Hs.
    apply andb_true_iff in Hs as [Hc Hs]. cbn [lstrip]. rewrite Hc. now apply IH. }
  now rewrite Hl.
Qed.



























(* ------------------------------------------------------------------ *)
(** ** The staging table under INSERT ... ON CONFLICT DO UPDATE *)

Section PutFacts.
Variable cols : list string.
Variable key : string.
Variable tc : list string.
Variable ki : nat.
Hypothesis Hki : index_of key tc = Some ki.

Local Abbreviation merge := (Pg.merge cols key tc).
Local Abbreviation put := (Pg.put cols key tc ki).
Local Abbreviation keyed k := (fun r : Row => Cell_eqb (cell_at ki r) k).


(** Cell by cell: a listed column other than the key takes the new
    value. *)
Lemma cell_at_merge : forall (l : list string) old new j,
  cell_at j (Pg.merge cols key l old new)
  = if (j <? List.length l) && (j <? List.length old) && (j <? List.length new)
       && str_in (nth j l "") cols && negb (String.eqb (nth j l "") key)
    then cell_at j new else cell_at j old.
Proof.
  unfold cell_at.
  induction l as [|c l IH]; intros old new j.
  - cbn [Pg.merge]. now destruct j.
  - destruct old as [|o old].
    + cbn [Pg.merge List.length]. rewrite andb_false_r. reflexivity.
    + destruct new as [|n new].
      * cbn [Pg.merge List.length]. rewrite andb_false_r. reflexivity.
      * cbn [Pg.merge]. destruct j as [|j].
        -- cbn [nth List.length]. cbn [Nat.ltb Nat.leb andb].
           now destruct (str_in c cols && negb (String.eqb c key)).
        -- cbn [nth List.length]. rewrite IH.
           change (S j <? S ?n) with (j <? n). reflexivity.
Qed.

Lemma merge_keeps_key old new :
  cell_at ki (merge old new) = cell_at ki old.
Proof.
  rewrite cell_at_merge. destruct (index_of_spec _ _ _ Hki) as [_ Hnth].
  rewrite Hnth, String.eqb_refl. cbn [negb]. now rewrite andb_false_r.
Qed.

Lemma merge_same : forall (l : list string) x, Pg.merge cols key l x x = x.
Proof.
  induction l as [|c l IH]; intros [|v x]; cbn [Pg.merge]; try reflexivity.
  rewrite IH. now destruct (str_in c cols && negb (String.eqb c key)).
Qed.

Lemma merge_twice : forall (l : list string) old new,
  Pg.merge cols key l (Pg.merge cols key l old new) new
  = Pg.merge cols key l old new.
Proof.
  induction l as [|c l IH]; intros [|o old] [|n new]; cbn [Pg.merge];
    try reflexivity.
  rewrite IH. now destruct (str_in c cols && negb (String.eqb c key)).
Qed.

Lemma Cell_eqb_refl a : Cell_eqb a a = true.
Proof. now apply Cell_eqb_eq. Qed.





(** Putting the same row again changes nothing. *)
Lemma put_again new : forall rs, put new (put new rs) = put new rs.
Proof.
  induction rs as [|r rs IH].
  - cbn [Pg.put]. now rewrite Cell_eqb_refl, merge_same.
  - cbn [Pg.put].
    destruct (Cell_eqb (cell_at ki r) (cell_at ki new)) eqn:Hr.
    + cbn [Pg.put]. now rewrite merge_keeps_key, Hr, merge_twice.
    + cbn [Pg.put]. now rewrite Hr, IH.
Qed.

(** A row that is settled stays so when a row with another key is put. *)
Lemma put_settled a b : forall rs,
  cell_at ki a <> cell_at ki b -> put a rs = rs -> put a (put b rs) = put b rs.
Proof.
  intros rs Hab. induction rs as [|r rs IH]; intro Hst.
  - discriminate Hst.
  - cbn [Pg.put] in Hst |- *.
    destruct (Cell_eqb (cell_at ki r) (cell_at ki a)) eqn:Hra.
    + apply Cell_eqb_eq in Hra.
      assert (Hrb : Cell_eqb (cell_at ki r) (cell_at ki b) = false)
        by (apply Cell_eqb_neq; congruence).
      rewrite Hrb. cbn [Pg.put]. rewrite <- Hra, Cell_eqb_refl.
      injection Hst as Hm. now rewrite Hm.
    + injection Hst as Hst.
      destruct (Cell_eqb (cell_at ki r) (cell_at ki b)) eqn:Hrb.
      * cbn [Pg.put]. rewrite merge_keeps_key, Hra. now rewrite Hst.
      * cbn [Pg.put]. rewrite Hra. now rewrite IH.
Qed.

Lemma put_all_settled a news : forall rs,
  ~ In (cell_at ki a) (map (cell_at ki) news) ->
  put a rs = rs ->
  put a (put_all cols key tc ki news rs) = put_all cols key tc ki news rs.
Proof.
  induction news as [|b news IH]; intros rs Hfresh Hst; [exact Hst|].
  cbn [put_all fold_left map In] in *. apply IH; [tauto|].
  apply put_settled; [|exact Hst]. intro Heq. apply Hfresh. now left.
Qed.

Lemma put_all_settles news : forall rs,
  NoDup (map (cell_at ki) news) ->
  forall a, In a news ->
    put a (put_all cols key tc ki news rs) = put_all cols key tc ki news rs.
Proof.
  induction news as [|b news IH]; intros rs Hnd a Hin; [destruct Hin|].
  cbn [map] in Hnd. inversion Hnd as [|? ? Hfresh Hnd']; subst.
  cbn [put_all fold_left]. destruct Hin as [<- | Hin].
  - apply put_all_settled; [exact Hfresh | apply put_again].
  - now apply IH.
Qed.

Lemma put_all_fixed news : forall rs,
  (forall a, In a news -> put a rs = rs) -> put_all cols key tc ki news rs = rs.
Proof.
  induction news as [|b news IH]; intros rs Hall; [reflexivity|].
  cbn [put_all fold_left]. rewrite (Hall b (or_introl eq_refl)).
  apply IH. intros a Ha. apply Hall. now right.
Qed.

(** Rows with pairwise distinct keys, put twice, are as if put once. *)
Lemma put_all_twice news rs :
  NoDup (map (cell_at ki) news) ->
  put_all cols key tc ki news (put_all cols key tc ki news rs)
  = put_all cols key tc ki news rs.
Proof.
  intro Hnd. apply put_all_fixed. intros a Ha. now apply put_all_settles.
Qed.


Lemma put_all_app a b rs :
  put_all cols key tc ki (a ++ b) rs
  = put_all cols key tc ki b (put_all cols key tc ki a rs).
Proof. unfold put_all. apply fold_left_app. Qed.




End PutFacts.


(* ------------------------------------------------------------------ *)
(** ** etl/utils.py: [upsert_data], when it succeeds *)

Section UpsertFacts.
Variable E : Env.

(** The pages go through when the link holds and the server accepts
    every statement. *)
Lemma execute_values_ok cols key upd pages : forall page w t t',
  txn w = Some t ->
  no_fault E page (List.length pages) = true ->
  run_statements cols key upd pages t = Some t' ->
  execute_values E cols key upd page pages w
  = (Ret tt,
     mkWorld (wm_file w) (db w) (Some t')
       (trace w ++ map EvExecute (seq page (List.length pages)))).
Proof.
  induction pages as [|p pages IH]; intros page w t t' Htxn Hfault Hrun.
  - cbn in Hrun |- *. injection Hrun as <-. unfold ret.
    destruct w. cbn in *. now rewrite app_nil_r, Htxn.
  - cbn [run_statements] in Hrun.
    destruct (Pg.insert_on_conflict cols key upd p t) as [tb|] eqn:Hins;
      [|discriminate].
    unfold no_fault in Hfault. cbn [List.length seq forallb] in Hfault.
    apply andb_true_iff in Hfault as [Hpage Hfault].
    apply negb_true_iff in Hpage.
    cbn [execute_values]. unfold bind, get_world. rewrite Hpage, Htxn, Hins.
    unfold set_txn at 1. rewrite emit_eq, Nat.add_1_r.
    rewrite (IH (S page) _ (Some tb) t'); [|reflexivity | exact Hfault | exact Hrun].
    cbn [add_events wm_file db txn trace List.length seq map].
    now rewrite <- app_assoc.
Qed.

(** Conversely: the pages went through. *)
Lemma execute_values_ret cols key upd pages : forall page w t w',
  txn w = Some t ->
  execute_values E cols key upd page pages w = (Ret tt, w') ->
  no_fault E page (List.length pages) = true /\
  exists t', run_statements cols key upd pages t = Some t'.
Proof.
  induction pages as [|p pages IH]; intros page w t w' Htxn Hex.
  - split; [reflexivity | now exists t].
  - cbn [execute_values] in Hex. unfold bind, get_world in Hex.
    destruct (page_fault E page) eqn:Hpage; [discriminate|].
    rewrite Htxn in Hex.
    destruct (Pg.insert_on_conflict cols key upd p t) as [tb|] eqn:Hins;
      [|discriminate].
    unfold set_txn at 1 in Hex. rewrite emit_eq, Nat.add_1_r in Hex.
    apply IH with (t := Some tb) in Hex as [Hfault [t' Hrun]]; [|reflexivity].
    split.
    + unfold no_fault in *. cbn [List.length seq forallb]. now rewrite Hpage.
    + exists t'. cbn [run_statements]. now rewrite Hins.
Qed.

(** [upsert_data] returns when the connection opens, the link holds,
    the server accepts every statement and the commit. *)
Lemma upsert_data_commits df key w t' :
  df_empty df = false ->
  conn_ok E = true ->
  no_fault E 0 (List.length (pages_of_frame df)) = true ->
  commit_ok E = true ->
  run_statements (cols_to_upsert_of (db w) df) key
    (update_cols_of (db w) df key) (pages_of_frame df) (db w) = Some t' ->
  upsert_data E df key w
  = (Ret tt,
     mkWorld (wm_file w) t' None (trace w ++ upsert_events (db w) df)).
Proof.
  intros Hne Hconn Hfault Hcommit Hrun.
  unfold upsert_data. rewrite Hne, Hconn.
  cbv [try_finally try_except bind get_world set_txn emit when warn ret raise
       conn_commit conn_rollback conn_close set_db].
  fold (db_columns_of (db w) df).
  fold (dropped_cols_of (db w) df). fold (cols_to_upsert_of (db w) df).
  fold (update_cols_of (db w) df key). fold (pages_of_frame df).
  unfold upsert_events.
  destruct (List.length (dropped_cols_of (db w) df) =? 0); cbn [negb];
    cbn [wm_file db txn trace];
    match goal with
    | |- context [execute_values E ?a ?b ?c ?d ?e ?f] =>
        rewrite (execute_values_ok a b c e d f (db w) t' eq_refl Hfault Hrun)
    end;
    cbn [wm_file db txn trace]; rewrite Hcommit; cbn [wm_file db txn trace];
    f_equal; f_equal; now rewrite <- !app_assoc.
Qed.

(** Conversely: what a returning [upsert_data] has done. *)
Lemma upsert_data_committed df key w w' :
  df_empty df = false ->
  upsert_data E df key w = (Ret tt, w') ->
  conn_ok E = true /\
  no_fault E 0 (List.length (pages_of_frame df)) = true /\
  commit_ok E = true /\
  exists t',
    run_statements (cols_to_upsert_of (db w) df) key
      (update_cols_of (db w) df key) (pages_of_frame df) (db w) = Some t' /\
    w' = mkWorld (wm_file w) t' None (trace w ++ upsert_events (db w) df).
Proof.
  intros Hne Hup.
  assert (Hconn : conn_ok E = true).
  { unfold upsert_data in Hup. rewrite Hne in Hup.
    destruct (conn_ok E); [reflexivity | discriminate]. }
  assert (Hex : exists wx w2,
            txn wx = Some (db w) /\
            execute_values E (cols_to_upsert_of (db w) df) key
              (update_cols_of (db w) df key) 0 (pages_of_frame df) wx
            = (Ret tt, w2) /\ commit_ok E = true).
  { unfold upsert_data in Hup. rewrite Hne, Hconn in Hup.
    cbv [try_finally try_except bind get_world set_txn emit when warn ret raise
         conn_commit conn_rollback conn_close set_db] in Hup.
    fold (db_columns_of (db w) df) in Hup.
    fold (dropped_cols_of (db w) df) in Hup.
    fold (cols_to_upsert_of (db w) df) in Hup.
    fold (update_cols_of (db w) df key) in Hup. fold (pages_of_frame df) in Hup.
    destruct (negb (List.length (dropped_cols_of (db w) df) =? 0));
      cbn [wm_file db txn trace] in Hup;
      match type of Hup with
      | context [execute_values E ?a ?b ?c ?d ?e ?f] =>
          destruct (execute_values E a b c d e f) as [[[]| | |] w2] eqn:Hex;
          cbn [wm_file db txn trace] in Hup; try discriminate;
          exists f, w2; (split; [reflexivity|]); (split; [exact Hex|]);
          destruct (txn w2); [|discriminate];
          destruct (commit_ok E); [reflexivity | discriminate]
      end. }
  destruct Hex as (wx & w2 & Htxn & Hex & Hcommit).
  destruct (execute_values_ret _ _ _ _ _ _ _ _ Htxn Hex) as [Hfault [t' Hrun]].
  split; [exact Hconn|]. split; [exact Hfault|]. split; [exact Hcommit|].
  exists t'. split; [exact Hrun|].
  rewrite (upsert_data_commits df key w t' Hne Hconn Hfault Hcommit Hrun) in Hup.
  now injection Hup as <-.
Qed.

End UpsertFacts.


Section StatementFacts.
Variable cols : list string.
Variable key : string.

Lemma cell_at_row_of tc j t :
  j < List.length tc ->
  cell_at j (Pg.row_of tc cols t) = field cols (nth j tc "") t.
Proof.
  intro Hj. unfold cell_at, Pg.row_of, field.
  rewrite (nth_indep _ NA (match index_of "" cols with
                           | Some j0 => nth j0 t NA
                           | None => NA
                           end)) by now rewrite length_map.
  now rewrite (map_nth (fun c => match index_of c cols with
                                  | Some j0 => nth j0 t NA
                                  | None => NA
                                  end)).
Qed.

Lemma key_of_row_of tc ki t :
  index_of key tc = Some ki ->
  cell_at ki (Pg.row_of tc cols t) = field cols key t.
Proof.
  intro Hki. destruct (index_of_spec _ _ _ Hki) as [Hlt Hnth].
  now rewrite cell_at_row_of, Hnth.
Qed.


(** The tuples of one statement: accepted when the keys are in order,
    and then put one after the other. *)
Lemma apply_eq tc ki : index_of key tc = Some ki ->
  forall tuples affected rs,
    Pg.apply cols key tc ki affected tuples rs
    = if keys_fresh cols key affected tuples
      then Some (put_all cols key tc ki (map (Pg.row_of tc cols) tuples) rs)
      else None.
Proof.
  intro Hki. induction tuples as [|t tuples IH]; intros affected rs; [reflexivity|].
  cbn [Pg.apply keys_fresh map put_all fold_left].
  rewrite (key_of_row_of tc ki t Hki).
  destruct (isnull (field cols key t)); [reflexivity|].
  destruct (existsb (Cell_eqb (field cols key t)) affected); [reflexivity|].
  cbn [negb andb]. apply IH.
Qed.

Lemma keys_fresh_spec tuples : forall affected,
  keys_fresh cols key affected tuples = true <->
  Forall (fun t => isnull (field cols key t) = false) tuples /\
  NoDup (map (field cols key) tuples) /\
  (forall t, In t tuples -> ~ In (field cols key t) affected).
Proof.
  induction tuples as [|t tuples IH]; intro affected.
  - cbn. split; [intros _; repeat split; [constructor | constructor | tauto] | reflexivity].
  - cbn [keys_fresh map]. rewrite !andb_true_iff, !negb_true_iff, IH. split.
    + intros [[Hnull Haff] (Hall & Hnd & Hfresh)].
      assert (Hnot : ~ In (field cols key t) affected).
      { intro Hin. apply Bool.not_true_iff_false in Haff. apply Haff.
        apply existsb_exists. exists (field cols key t).
        split; [exact Hin | now apply Cell_eqb_eq]. }
      split; [now constructor|]. split.
      * constructor; [|exact Hnd]. intro Hin. apply in_map_iff in Hin as (t' & Heq & Ht').
        apply (Hfresh t' Ht'). left. now symmetry.
      * intros t' [<- | Ht'] Hin; [tauto|].
        apply (Hfresh t' Ht'). now right.
    + intros (Hall & Hnd & Hfresh).
      inversion Hall as [|? ? Hnull Hall']; subst.
      inversion Hnd as [|? ? Hnotin Hnd']; subst.
      split; [split; [exact Hnull|]|].
      * apply Bool.not_true_iff_false. intro Hex. apply existsb_exists in Hex as (k & Hk & Heq).
        apply Cell_eqb_eq in Heq. subst k. apply (Hfresh t); [now left | exact Hk].
      * split; [exact Hall'|]. split; [exact Hnd'|].
        intros t' Ht' [Heq | Hin].
        -- apply Hnotin. rewrite Heq. now apply in_map.
        -- apply (Hfresh t'); [now right | exact Hin].
Qed.

Lemma str_in_index_of c l : str_in c l = true -> exists i, index_of c l = Some i.
Proof. apply index_of_has. Qed.

(** One statement against a table. *)
Lemma insert_on_conflict_eq upd p tb :
  Pg.insert_on_conflict cols key upd p (Some tb)
  = if statement_ok cols key upd tb
       && forallb (fun t => List.length t =? List.length cols) p
       && keys_fresh cols key [] p
    then match index_of key (tcols tb) with
         | Some ki =>
             Some (mkTable (tcols tb) (tkey tb)
                     (put_all cols key (tcols tb) ki
                        (map (Pg.row_of (tcols tb) cols) p) (trows tb)))
         | None => None
         end
    else None.
Proof.
  unfold Pg.insert_on_conflict, statement_ok.
  destruct cols as [|c0 cs] eqn:Hcols; [reflexivity|]. rewrite <- Hcols.
  replace (negb (List.length cols =? 0)) with true by now rewrite Hcols.
  destruct upd as [|u0 us]; [reflexivity|]. cbn [List.length Nat.eqb negb andb].
  destruct (index_of key (tcols tb)) as [ki|] eqn:Hki.
  2:{ rewrite (index_of_none_has _ _ Hki). reflexivity. }
  rewrite (index_of_some_has _ _ _ Hki). cbn [andb].
  destruct (forallb (fun c => str_in c (tcols tb)) cols); [|reflexivity].
  destruct (Pg.nodup_labels cols); [|reflexivity].
  destruct (String.eqb key (tkey tb)); [|reflexivity].
  destruct (forallb (fun t => List.length t =? List.length cols) p); [|reflexivity].
  cbn [andb]. rewrite (apply_eq (tcols tb) ki Hki).
  now destruct (keys_fresh cols key [] p).
Qed.

Lemma statement_ok_same upd tb tb' :
  tcols tb' = tcols tb -> tkey tb' = tkey tb ->
  statement_ok cols key upd tb' = statement_ok cols key upd tb.
Proof. intros Hc Hk. unfold statement_ok. now rewrite Hc, Hk. Qed.

(** All the statements against a table. *)
Lemma run_statements_eq upd pages : forall tb ki,
  index_of key (tcols tb) = Some ki ->
  statement_ok cols key upd tb = true ->
  run_statements cols key upd pages (Some tb)
  = if batch_ok cols key pages
    then Some (Some (mkTable (tcols tb) (tkey tb)
                       (put_all cols key (tcols tb) ki
                          (map (Pg.row_of (tcols tb) cols) (List.concat pages))
                          (trows tb))))
    else None.
Proof.
  induction pages as [|p pages IH]; intros tb ki Hki Hok.
  - cbn. now destruct tb.
  - cbn [run_statements batch_ok forallb List.concat].
    rewrite insert_on_conflict_eq, Hok, Hki. cbn [andb].
    destruct (forallb (fun t => List.length t =? List.length cols) p && keys_fresh cols key [] p);
      [|reflexivity].
    cbn [andb]. rewrite (IH _ ki); [| exact Hki | exact Hok].
    cbn [tcols tkey trows]. fold (batch_ok cols key pages).
    destruct (batch_ok cols key pages); [|reflexivity].
    now rewrite map_app, put_all_app.
Qed.

(** The first statement is refused when the statement is not in order
    or there is no table. *)
Lemma run_statements_refused upd p pages t :
  match t with
  | Some tb => statement_ok cols key upd tb = false
  | None => True
  end ->
  run_statements cols key upd (p :: pages) t = None.
Proof.
  intro H. cbn [run_statements]. destruct t as [tb|]; [|reflexivity].
  now rewrite insert_on_conflict_eq, H.
Qed.

End StatementFacts.

Lemma pages_of_concat {A} page_size : forall fuel (l : list A),
  List.concat (pages_of fuel page_size l) = l.
Proof.
  induction fuel as [|fuel IH]; intros [|x l]; try reflexivity.
  - cbn. now rewrite app_nil_r.
  - cbn [pages_of List.concat]. rewrite IH. apply firstn_skipn.
Qed.

Lemma pages_of_nonempty {A} page_size fuel (l : list A) :
  l <> [] -> exists p ps, pages_of fuel page_size l = p :: ps.
Proof.
  intro Hl. destruct l as [|x l]; [congruence|].
  destruct fuel; cbn [pages_of]; eauto.
Qed.


Lemma filter_all_length {A} (f : A -> bool) : forall l,
  List.length (filter f l) = List.length l -> filter f l = l.
Proof.
  induction l as [|x l IH]; intro Hlen; [reflexivity|].
  cbn [filter] in *. destruct (f x).
  - cbn [List.length] in Hlen. f_equal. apply IH. lia.
  - pose proof (filter_length_le f l). cbn [List.length] in Hlen. lia.
Qed.


Lemma batch_ok_rows cols key pages :
  batch_ok cols key pages = true ->
  forall t, In t (List.concat pages) ->
    List.length t = List.length cols /\ isnull (field cols key t) = false.
Proof.
  induction pages as [|p pages IH]; intros Hok t Hin; [destruct Hin|].
  cbn [batch_ok forallb] in Hok. apply andb_true_iff in Hok as [Hp Hok].
  apply andb_true_iff in Hp as [Harity Hkeys].
  cbn [List.concat] in Hin. apply in_app_or in Hin as [Hin | Hin].
  - split.
    + rewrite forallb_forall in Harity. now apply Nat.eqb_eq, Harity.
    + apply keys_fresh_spec in Hkeys as (Hall & _).
      rewrite Forall_forall in Hall. now apply Hall.
  - now apply IH.
Qed.

Section UpsertResult.
Variable E : Env.

(** The table a returning [upsert_data] commits, for a frame with one
    cell per column: the rows of the frame put one after the other. *)
Lemma upsert_data_success_facts df key w w' :
  df_empty df = false -> well_formed df = true ->
  upsert_data E df key w = (Ret tt, w') ->
  exists tb ki,
    db w = Some tb /\
    cols_to_upsert_of (db w) df = columns df /\
    statement_ok (columns df) key (update_cols_of (db w) df key) tb = true /\
    index_of key (tcols tb) = Some ki /\
    batch_ok (columns df) key (pages_of_frame df) = true /\
    conn_ok E = true /\ commit_ok E = true /\
    no_fault E 0 (List.length (pages_of_frame df)) = true /\
    w' = mkWorld (wm_file w)
           (Some (mkTable (tcols tb) (tkey tb)
                    (put_all (columns df) key (tcols tb) ki
                       (map (Pg.row_of (tcols tb) (columns df)) (rows df))
                       (trows tb))))
           None (trace w ++ upsert_events (db w) df).
Proof.
  intros Hne Hwf Hup.
  destruct (upsert_data_committed E df key w w' Hne Hup)
    as (Hconn & Hfault & Hcommit & t' & Hrun & ->).
  destruct (pages_of_nonempty 500 (List.length (rows df)) (rows df)
              (df_nonempty_rows df Hne)) as (p & ps & Hpages).
  fold (pages_of_frame df) in Hpages.
  destruct (db w) as [tb|] eqn:Hdb.
  2:{ rewrite Hpages, run_statements_refused in Hrun; [discriminate | exact I]. }
  destruct (statement_ok (cols_to_upsert_of (Some tb) df) key
              (update_cols_of (Some tb) df key) tb) eqn:Hok.
  2:{ rewrite Hpages, run_statements_refused in Hrun; [discriminate | exact Hok]. }
  assert (Hki : exists ki, index_of key (tcols tb) = Some ki).
  { apply index_of_has. unfold statement_ok in Hok.
    repeat (apply andb_true_iff in Hok as [Hok ?]). assumption. }
  destruct Hki as [ki Hki].
  rewrite (run_statements_eq _ _ _ _ tb ki Hki Hok) in Hrun.
  destruct (batch_ok (cols_to_upsert_of (Some tb) df) key (pages_of_frame df))
    eqn:Hbatch; [|discriminate].
  injection Hrun as <-.
  assert (Hcols : cols_to_upsert_of (Some tb) df = columns df).
  { destruct (rows df) as [|r0 rs0] eqn:Hrows;
      [now apply df_nonempty_rows in Hne|].
    assert (Hin : In r0 (List.concat (pages_of_frame df))).
    { unfold pages_of_frame. rewrite pages_of_concat, Hrows. now left. }
    destruct (batch_ok_rows _ _ _ Hbatch r0 Hin) as [Hlen _].
    unfold cols_to_upsert_of in *. apply filter_all_length.
    rewrite <- Hlen. unfold well_formed in Hwf. rewrite Hrows in Hwf.
    cbn [forallb] in Hwf. apply andb_true_iff in Hwf as [Hr0 _].
    now apply Nat.eqb_eq in Hr0. }
  rewrite Hcols in *. exists tb, ki.
  replace (List.concat (pages_of_frame df)) with (rows df)
    by (unfold pages_of_frame; now rewrite pages_of_concat).
  repeat split; auto.
Qed.

(** Conversely, what makes [upsert_data] return. *)
Lemma upsert_data_succeeds df key w tb ki :
  df_empty df = false ->
  db w = Some tb ->
  cols_to_upsert_of (db w) df = columns df ->
  statement_ok (columns df) key (update_cols_of (db w) df key) tb = true ->
  index_of key (tcols tb) = Some ki ->
  batch_ok (columns df) key (pages_of_frame df) = true ->
  conn_ok E = true -> commit_ok E = true ->
  no_fault E 0 (List.length (pages_of_frame df)) = true ->
  upsert_data E df key w
  = (Ret tt,
     mkWorld (wm_file w)
       (Some (mkTable (tcols tb) (tkey tb)
                (put_all (columns df) key (tcols tb) ki
                   (map (Pg.row_of (tcols tb) (columns df)) (rows df))
                   (trows tb))))
       None (trace w ++ upsert_events (db w) df)).
Proof.
  intros Hne Hdb Hcols Hok Hki Hbatch Hconn Hcommit Hfault.
  apply upsert_data_commits; try assumption.
  rewrite Hcols, Hdb.
  rewrite Hdb in Hok.
  rewrite (run_statements_eq _ _ _ _ tb ki Hki Hok), Hbatch.
  unfold pages_of_frame. now rewrite pages_of_concat.
Qed.

End UpsertResult.


Section FieldFacts.
Variable cols : list string.
Variable key : string.
Variable tc : list string.
Variable ki : nat.
Hypothesis Hki : index_of key tc = Some ki.









End FieldFacts.





Lemma key_column_of_rows cols key tc ki rs :
  index_of key tc = Some ki ->
  map (cell_at ki) (map (Pg.row_of tc cols) rs) = map (field cols key) rs.
Proof.
  intro Hki. rewrite map_map. apply map_ext. intro r. now apply key_of_row_of.
Qed.

(** X14.  Loading the same batch again changes nothing: when
    [upsert_data] has returned for a frame (one cell per column) whose
    keys are pairwise distinct, it returns again from any state with
    the table it left, and leaves that table. *)
Theorem upsert_again_changes_nothing : forall E df key w w1,
  df_empty df = false -> well_formed df = true ->
  NoDup (map (field (columns df) key) (rows df)) ->
  upsert_data E df key w = (Ret tt, w1) ->
  forall w2, db w2 = db w1 ->
    exists w3,
      upsert_data E df key w2 = (Ret tt, w3) /\ db w3 = db w1 /\
      trace w3 = (trace w2 ++ upsert_events (db w1) df)%list.
Proof.
  intros E df key w w1 Hne Hwf Hnd Hup w2 Hdb2.
  destruct (upsert_data_success_facts E df key w w1 Hne Hwf Hup)
    as (tb & ki & Hdb & Hcols & Hok & Hki & Hbatch & Hconn & Hcommit & Hfault & ->).
  cbn [db] in *.
  set (tb1 := mkTable (tcols tb) (tkey tb)
                (put_all (columns df) key (tcols tb) ki
                   (map (Pg.row_of (tcols tb) (columns df)) (rows df)) (trows tb)))
    in *.
  assert (Hsame : forall d, db_columns_of (Some tb1) d = db_columns_of (Some tb) d)
    by reflexivity.
  assert (Hcols2 : cols_to_upsert_of (db w2) df = columns df).
  { rewrite Hdb2, <- Hcols, Hdb. reflexivity. }
  assert (Hupd : update_cols_of (db w2) df key = update_cols_of (db w) df key).
  { rewrite Hdb2, Hdb. reflexivity. }
  rewrite (upsert_data_succeeds E df key w2 tb1 ki Hne Hdb2 Hcols2);
    [ | rewrite Hupd; exact Hok | exact Hki | exact Hbatch
      | exact Hconn | exact Hcommit | exact Hfault ].
  eexists. split; [reflexivity|]. cbn [db trace tcols tkey trows]. split.
  - unfold tb1. f_equal. f_equal. apply put_all_twice; [exact Hki|].
    now rewrite (key_column_of_rows _ _ _ _ _ Hki).
  - now rewrite Hdb2.
Qed.

(** Witness of [upsert_again_changes_nothing]. *)
Lemma upsert_again_changes_nothing_witness :
  let E := healthy_env 2000 (slice_api []) in
  let w := world0 None (Some small_table) in
  let w1 := snd (upsert_data E revised_frame unique_key w) in
  exists w3,
    upsert_data E revised_frame unique_key w1 = (Ret tt, w3) /\ db w3 = db w1.
Proof.
  intros E w w1.
  destruct (upsert_again_changes_nothing E revised_frame unique_key w w1
              eq_refl eq_refl ltac:(vm_compute; repeat constructor; simpl;
                                    intuition discriminate)
              eq_refl w1 eq_refl)
    as (w3 & Hup & Hdb & _).
  exists w3. split; [exact Hup | exact Hdb].
Defined.

(** X15.  A batch with a missing value in the key column cannot be
    loaded: whatever the table, [upsert_data] raises and the committed
    table is as before. *)
Theorem missing_key_cannot_be_loaded : forall E df key w,
  df_empty df = false -> well_formed df = true ->
  In NA (column_values key df) ->
  exists e w',
    upsert_data E df key w = (Raise e, w') /\ db w' = db w /\
    wm_file w' = wm_file w.
Proof.
  intros E df key w Hne Hwf Hna.
  destruct (upsert_data_cases E df key w)
    as (o & w' & evs & Hup & [Hwm _] & _ & Ho & _).
  destruct Ho as [[-> _] | (e & -> & Hdb & _)].
  - exfalso.
    destruct (upsert_data_success_facts E df key w w' Hne Hwf Hup)
      as (tb & ki & _ & _ & _ & _ & Hbatch & _).
    unfold column_values in Hna.
    destruct (index_of key (columns df)) as [i|] eqn:Hi; [|destruct Hna].
    apply in_map_iff in Hna as (r & Hr & Hin).
    assert (Hin' : In r (List.concat (pages_of_frame df)))
      by (unfold pages_of_frame; now rewrite pages_of_concat).
    destruct (batch_ok_rows _ _ _ Hbatch r Hin') as [_ Hnull].
    unfold field in Hnull. rewrite Hi, Hr in Hnull. discriminate.
  - exists e, w'. auto.
Qed.

(** Witness of [missing_key_cannot_be_loaded]: 500 keyed rows and one
    without key. *)
Lemma missing_key_cannot_be_loaded_witness :
  let E := healthy_env 2000 (slice_api []) in
  let w := world0 None (Some small_table) in
  exists e w',
    upsert_data E two_page_frame unique_key w = (Raise e, w') /\
    db w' = Some small_table.
Proof.
  intros E w.
  assert (Hna : In NA (column_values unique_key two_page_frame)).
  { unfold column_values, two_page_frame, unique_key.
    cbn [columns rows index_of String.eqb Ascii.eqb Bool.eqb option_map].
    rewrite map_app. apply in_or_app. right. now left. }
  destruct (missing_key_cannot_be_loaded E two_page_frame unique_key w
              eq_refl eq_refl Hna)
    as (e & w' & Hup & Hdb & _).
  exists e, w'. split; [exact Hup | exact Hdb].
Defined.







Section FirstLoad.
Variable E : Env.


End FirstLoad.





(* ------------------------------------------------------------------ *)
(** ** etl/utils.py: the connection of [upsert_data] *)

Lemma when_warn_eq b x w :
  when b (warn x) w = (Ret tt, add_events w (if b then [EvWarn x] else [])).
Proof.
  unfold when, warn. destruct b; [apply emit_eq|].
  unfold ret. now rewrite add_events_nil.
Qed.

Section ConnectionFacts.
Variable E : Env.

(** The statements leave the committed table and the state file alone
    and log one event per page executed. *)
Lemma execute_values_trace cols key upd pages : forall page w,
  exists o w' n,
    execute_values E cols key upd page pages w = (o, w') /\
    wm_file w' = wm_file w /\ db w' = db w /\
    trace w' = (trace w ++ map EvExecute (seq page n))%list /\
    (o = Ret tt \/ exists e, o = Raise e).
Proof.
  induction pages as [|p pages IH]; intros page w.
  - exists (Ret tt), w, 0. cbn. rewrite app_nil_r. repeat split. now left.
  - cbn [execute_values]. unfold bind, get_world.
    destruct (page_fault E page).
    { eexists _, w, 0. cbn. rewrite app_nil_r. repeat split. right. eauto. }
    destruct (txn w) as [working|].
    2:{ eexists _, w, 0. cbn. rewrite app_nil_r. repeat split. right. eauto. }
    destruct (Pg.insert_on_conflict cols key upd p working) as [tb|].
    2:{ eexists _, w, 0. cbn. rewrite app_nil_r. repeat split. right. eauto. }
    unfold set_txn at 1. rewrite emit_eq, Nat.add_1_r.
    match goal with |- context [execute_values E cols key upd (S page) pages ?wx] =>
      destruct (IH (S page) wx) as (o & w' & n & -> & Hwm & Hdb & Htr & Ho) end.
    exists o, w', (S n). split; [reflexivity|].
    cbn [add_events wm_file db txn trace] in Hwm, Hdb, Htr.
    split; [exact Hwm|]. split; [exact Hdb|]. split; [|exact Ho].
    rewrite Htr. cbn [seq map]. now rewrite <- app_assoc.
Qed.

Lemma executes_only n page ev :
  In ev (map EvExecute (seq page n)) -> exists i, ev = EvExecute i.
Proof. intro H. apply in_map_iff in H as (i & <- & _). now exists i. Qed.

End ConnectionFacts.

(** X17.  Every connection that [upsert_data] opens is closed again:
    what it does on it lies between the opening and the closing, ends
    with the commit when it returns and with a rollback when it
    raises, and no transaction is left open. *)
Theorem upsert_closes_the_connection : forall E df key w,
  df_empty df = false -> conn_ok E = true ->
  exists o w' mid,
    upsert_data E df key w = (o, w') /\
    trace w' = (trace w ++ EvConnect :: mid ++ [EvClose])%list /\
    txn w' = None /\
    ~ In EvConnect mid /\ ~ In EvClose mid /\
    ((o = Ret tt /\ exists pre, mid = (pre ++ [EvCommit])%list /\
                                ~ In EvRollback pre) \/
     (exists e pre, o = Raise e /\ mid = (pre ++ [EvRollback])%list /\
                    ~ In EvCommit pre)).
Proof.
  intros E df key w Hne Hconn.
  unfold upsert_data. rewrite Hne, Hconn.
  unfold try_finally, try_except.
  cbv [bind get_world set_txn]. rewrite emit_eq.
  cbn [add_events wm_file db txn trace]. rewrite when_warn_eq.
  set (ws := if negb _ then [EvWarn _] else []).
  unfold add_events. cbn [wm_file db txn trace].
  match goal with |- context [execute_values E ?a ?b ?c ?d ?e ?f] =>
    destruct (execute_values_trace E a b c e d f)
      as (o2 & w2 & n & -> & Hwm2 & Hdb2 & Htr2 & Ho2) end.
  cbn [wm_file db txn trace] in Hwm2, Hdb2, Htr2.
  set (pre := (ws ++ map EvExecute (seq 0 n))%list).
  assert (Hpre : trace w2 = (trace w ++ EvConnect :: pre)%list).
  { rewrite Htr2. unfold pre. now rewrite <- !app_assoc. }
  assert (Hin_pre : forall ev, In ev pre ->
            (exists x, ev = EvWarn x) \/ (exists i, ev = EvExecute i)).
  { intros ev Hin. unfold pre in Hin. apply in_app_or in Hin as [Hin | Hin].
    - left. unfold ws in Hin.
      destruct (negb _) in Hin; [destruct Hin as [<- | []] | destruct Hin]; eauto.
    - right. eapply executes_only. exact Hin. }
  assert (Hnot : forall ev, (forall x, ev <> EvWarn x) ->
                            (forall i, ev <> EvExecute i) -> ~ In ev pre).
  { intros ev H1 H2 Hin. destruct (Hin_pre ev Hin) as [[x Hx] | [i Hi]];
      [now apply (H1 x) | now apply (H2 i)]. }
  destruct Ho2 as [-> | [e ->]].
  - unfold conn_commit, bind, get_world.
    destruct (txn w2) as [working|].
    + destruct (commit_ok E).
      * cbv [set_db emit conn_close bind set_txn]. cbn [wm_file db txn trace].
        eexists _, _, (pre ++ [EvCommit])%list. split; [reflexivity|].
        cbn [trace txn]. rewrite Hpre.
        split; [now rewrite <- !app_assoc|]. split; [reflexivity|].
        split; [|split].
        -- not_on_connection Hnot.
        -- not_on_connection Hnot.
        -- left. split; [reflexivity|]. exists pre. split; [reflexivity|].
           now apply Hnot.
      * rolled_back_and_closed pre Hpre Hnot.
    + rolled_back_and_closed pre Hpre Hnot.
  - rolled_back_and_closed pre Hpre Hnot.
Qed.

(** Witness of [upsert_closes_the_connection]: the batch whose second
    page is refused. *)
Lemma upsert_closes_the_connection_witness :
  let E := healthy_env 2000 (slice_api []) in
  let w := world0 None (Some small_table) in
  exists o w' mid,
    upsert_data E two_page_frame unique_key w = (o, w') /\
    trace w' = (EvConnect :: mid ++ [EvClose])%list /\
    txn w' = None.
Proof.
  intros E w.
  destruct (upsert_closes_the_connection E two_page_frame unique_key w
              eq_refl eq_refl)
    as (o & w' & mid & Hup & Htr & Htxn & _).
  exists o, w', mid. split; [exact Hup|]. split; [exact Htr | exact Htxn].
Defined.


(* ------------------------------------------------------------------ *)
(** ** etl/main.py: how a run ends *)

Lemma not_in_fetch_events evs ev :
  Forall fetch_event evs -> ~ fetch_event ev -> ~ In ev evs.
Proof. intros Hall Hev Hin. rewrite Forall_forall in Hall. now apply Hev, Hall. Qed.

Lemma update_state_unwritable E last latest w :
  file_writable E = false ->
  exists ws, update_state E last latest w = (Ret tt, add_events w (map EvWarn ws)).
Proof.
  intro Hw. unfold update_state, save_last_run_timestamp. rewrite Hw.
  destruct latest as [l|]; [|now exists [WWatermarkNotUpdated]].
  destruct (should_save last (Some l)).
  - exists []. now rewrite add_events_nil.
  - destruct (negb (truthy (Some l))); [now exists [WWatermarkNotUpdated]|].
    exists []. now rewrite add_events_nil.
Qed.

(** The ways a run can end, with what each leaves behind. *)
Lemma run_etl_outcomes : forall L E w,
  exists o w' evs,
    run_etl L E w = (o, w') /\ trace w' = (trace w ++ evs)%list /\
    (o = Ret tt \/ o = Exit 0 \/ o = Exit 1) /\
    (o = Exit 1 ->
     wm_file w' = wm_file w /\ table_rows (db w') = table_rows (db w) /\
     ~ In EvCommit evs /\ count_saves evs = 0) /\
    (o = Exit 0 ->
     wm_file w' = wm_file w /\ db w' = db w /\
     ~ In EvLoad evs /\ ~ In EvCommit evs) /\
    (o = Ret tt -> In EvCommit evs) /\
    (if engine_ok E then exists pre, evs = (pre ++ [EvDispose])%list
     else evs = [] /\ o = Exit 1) /\
    (file_writable E = false -> wm_file w' = wm_file w /\ count_saves evs = 0) /\
    (forall ts, In (EvSaveWatermark ts) evs ->
       wm_file w' = Some ts /\
       exists raw w1 w2, latest_timestamp L raw w1 = (Ret (Some ts), w2)).
Proof.
  intros L E w. destruct (run_etl_path L E w) as (o & w' & evs & Heq & Hpath).
  exists o, w', evs. split; [exact Heq|].
  assert (Hquiet : forall w0 evs0,
            wm_file w0 = wm_file w -> count_saves evs0 = 0 ->
            (file_writable E = false ->
             wm_file w0 = wm_file w /\ count_saves evs0 = 0) /\
            (forall ts, In (EvSaveWatermark ts) evs0 ->
               wm_file w0 = Some ts /\
               exists raw w1 w2, latest_timestamp L raw w1 = (Ret (Some ts), w2))).
  { intros w0 evs0 Hwm Hs. split; [auto|].
    intros ts Hin. now apply (count_saves_in_none _ Hs) in Hin. }
  destruct Hpath as
    [ Hno
    | evs1 Heng Hf Hall
    | evs1 raw Heng Hf Hall Hraw
    | evs1 raw latest ws2 e ws3 Heng Hf Hall _ Hl Ht
    | evs1 raw latest ws2 df ws3 e w4 evs4 Heng Hf Hall _ Hl Ht _ _ Hrun4 Hs4 Hload Hnc Hrows
    | evs1 raw latest ws2 df ws3 w4 evs4 saved ws5 w5 Heng Hf Hall _ Hl Ht _ _ Hrun4 Hs4
        Hload Hc4 Hupd Hsaved ].
  - rewrite Hno. split; [now rewrite app_nil_r|]. split; [auto|].
    split; [intros _; repeat split; intros []|].
    split; [discriminate|]. split; [discriminate|]. split; [auto|].
    now apply Hquiet.
  - rewrite Heng. pose proof (fetch_events_no_saves _ Hall) as Hs1.
    assert (Hs : count_saves (evs1 ++ [EvDispose]) = 0)
      by now rewrite count_saves_app, Hs1.
    split; [reflexivity|]. split; [auto|]. split.
    { intros _. split; [reflexivity|]. split; [reflexivity|]. split; [|exact Hs].
      intro Hin. apply in_app_or in Hin as [Hin | [Hin | []]]; [|discriminate].
      revert Hin. now apply not_in_fetch_events. }
    split; [discriminate|]. split; [discriminate|]. split; [eauto|].
    now apply Hquiet.
  - rewrite Heng. pose proof (fetch_events_no_saves _ Hall) as Hs1.
    assert (Hs : count_saves (evs1 ++ [EvDispose]) = 0)
      by now rewrite count_saves_app, Hs1.
    split; [reflexivity|]. split; [auto|].
    split; [discriminate|]. split.
    { intros _. split; [reflexivity|]. split; [reflexivity|].
      split; intro Hin; (apply in_app_or in Hin as [Hin | [Hin | []]]; [|discriminate]);
        revert Hin; now apply not_in_fetch_events. }
    split; [discriminate|]. split; [eauto|]. now apply Hquiet.
  - rewrite Heng. pose proof (fetch_events_no_saves _ Hall) as Hs1.
    assert (Hs : count_saves (evs1 ++ map EvWarn ws2 ++ map EvWarn ws3
                                ++ [EvDispose]) = 0)
      by now rewrite !count_saves_app, Hs1, !warnings_no_saves.
    split; [reflexivity|]. split; [auto|]. split.
    { intros _. split; [reflexivity|]. split; [reflexivity|]. split; [|exact Hs].
      intro Hin. apply in_app_or in Hin as [Hin | Hin];
        [revert Hin; now apply not_in_fetch_events|].
      apply in_app_or in Hin as [Hin | Hin];
        [revert Hin; now apply warnings_not_in|].
      apply in_app_or in Hin as [Hin | [Hin | []]]; [|discriminate].
      revert Hin. now apply warnings_not_in. }
    split; [discriminate|]. split; [discriminate|]. split; [|now apply Hquiet].
    exists (evs1 ++ map EvWarn ws2 ++ map EvWarn ws3)%list.
    now rewrite <- !app_assoc.
  - rewrite Heng. pose proof (fetch_events_no_saves _ Hall) as Hs1.
    destruct Hrun4 as [Hwm4 Htr4].
    assert (Hs : count_saves (evs1 ++ map EvWarn ws2 ++ map EvWarn ws3
                                ++ evs4 ++ [EvDispose]) = 0)
      by now rewrite !count_saves_app, Hs1, !warnings_no_saves, Hs4.
    split.
    { cbn [add_events trace]. rewrite Htr4. cbn [add_events trace].
      now rewrite <- !app_assoc. }
    split; [auto|]. split.
    { intros _. split; [exact Hwm4|]. split; [exact Hrows|]. split; [|exact Hs].
      intro Hin. apply in_app_or in Hin as [Hin | Hin];
        [revert Hin; now apply not_in_fetch_events|].
      apply in_app_or in Hin as [Hin | Hin];
        [revert Hin; now apply warnings_not_in|].
      apply in_app_or in Hin as [Hin | Hin];
        [revert Hin; now apply warnings_not_in|].
      apply in_app_or in Hin as [Hin | [Hin | []]]; [now apply Hnc | discriminate]. }
    split; [discriminate|]. split; [discriminate|]. split; [|now apply Hquiet].
    exists (evs1 ++ map EvWarn ws2 ++ map EvWarn ws3 ++ evs4)%list.
    now rewrite <- !app_assoc.
  - rewrite Heng. destruct Hrun4 as [Hwm4 Htr4].
    pose proof (fetch_events_no_saves _ Hall) as Hs1.
    assert (Htr5 : trace w5
                   = (trace w ++ evs1 ++ map EvWarn ws2 ++ map EvWarn ws3 ++ evs4
                        ++ save_events saved ++ map EvWarn ws5)%list).
    { destruct saved as [ts|].
      - destruct Hsaved as (_ & _ & -> & ->). cbn [trace save_events map].
        rewrite Htr4. cbn [add_events trace].
        now rewrite app_nil_r, <- !app_assoc.
      - subst w5. cbn [save_events add_events trace]. rewrite Htr4.
        cbn [add_events trace]. now rewrite <- !app_assoc. }
    split.
    { cbn [add_events trace]. rewrite Htr5. now rewrite <- !app_assoc. }
    split; [auto|]. split; [discriminate|]. split; [discriminate|].
    split; [intros _; find_in|]. split.
    { exists (evs1 ++ map EvWarn ws2 ++ map EvWarn ws3 ++ evs4
                ++ save_events saved ++ map EvWarn ws5)%list.
      now rewrite <- !app_assoc. }
    split.
    + intro Hw.
      destruct (update_state_unwritable E (read_watermark w) latest w4 Hw)
        as (ws & Hupd').
      rewrite Hupd' in Hupd. injection Hupd as <-.
      destruct saved as [ts|].
      * exfalso. destruct Hsaved as (_ & _ & _ & Hw5).
        apply (f_equal trace) in Hw5. cbn [add_events trace] in Hw5.
        apply app_inv_head in Hw5. destruct ws as [|x [|? ?]]; discriminate.
      * split; [exact Hwm4|]. cbn [save_events app].
        now rewrite !count_saves_app, Hs1, !warnings_no_saves, Hs4.
    + intros ts Hin.
      assert (Hsaved_ts : saved = Some ts).
      { apply in_app_or in Hin as [Hin | Hin];
          [exfalso; revert Hin; apply count_saves_in_none;
           exact (fetch_events_no_saves _ Hall)|].
        apply in_app_or in Hin as [Hin | Hin];
          [exfalso; revert Hin; apply count_saves_in_none, warnings_no_saves|].
        apply in_app_or in Hin as [Hin | Hin];
          [exfalso; revert Hin; apply count_saves_in_none, warnings_no_saves|].
        apply in_app_or in Hin as [Hin | Hin];
          [exfalso; revert Hin; now apply count_saves_in_none|].
        apply in_app_or in Hin as [Hin | Hin]; [now apply in_save_events|].
        exfalso. apply in_app_or in Hin as [Hin | [Hin | []]]; [|discriminate].
        revert Hin. apply count_saves_in_none, warnings_no_saves. }
      subst saved. destruct Hsaved as (-> & _ & _ & ->).
      split; [reflexivity|]. eauto.
Qed.

(** X18.  [run_etl] always ends, with status 0 or 1, and never lets an
    exception escape.  It ends with status 1 only with the watermark
    file and the rows of the table as they were and nothing committed;
    with status 0 by [sys.exit(0)] only when nothing was fetched, the
    database and the watermark file untouched; and it returns normally
    only after a commit.  An engine that was created is disposed of
    last; without an engine nothing at all is done. *)
Theorem run_ends_with_status_0_or_1 : forall L E w,
  exists o w' evs,
    run_etl L E w = (o, w') /\ trace w' = (trace w ++ evs)%list /\
    (o = Ret tt \/ o = Exit 0 \/ o = Exit 1) /\
    (o = Exit 1 ->
     wm_file w' = wm_file w /\ table_rows (db w') = table_rows (db w) /\
     ~ In EvCommit evs /\ count_saves evs = 0) /\
    (o = Exit 0 ->
     wm_file w' = wm_file w /\ db w' = db w /\
     ~ In EvLoad evs /\ ~ In EvCommit evs) /\
    (o = Ret tt -> In EvCommit evs) /\
    (if engine_ok E then exists pre, evs = (pre ++ [EvDispose])%list
     else evs = [] /\ o = Exit 1).
Proof.
  intros L E w.
  destruct (run_etl_outcomes L E w)
    as (o & w' & evs & Heq & Htr & Ho & H1 & H0 & Hr & Heng & _).
  exists o, w', evs. repeat (split; [assumption|]). exact Heng.
Qed.

(** A run that fetches nothing ends with status 0 once the engine is
    disposed of. *)
Lemma run_etl_no_data L E w raw w1 :
  engine_ok E = true ->
  fetch_fire_data L E (read_watermark w) w = (Ret (Some raw), w1) ->
  df_empty raw = true ->
  run_etl L E w = (Exit 0, add_events w1 [EvDispose]).
Proof.
  intros Heng Hfetch Hraw.
  unfold run_etl, try_finally, try_except, get_db_engine. rewrite Heng.
  unfold bind at 1. unfold ret at 1. unfold bind at 1.
  rewrite get_last_run_timestamp_eq. unfold bind at 1. rewrite Hfetch, Hraw.
  unfold sys_exit, when. now rewrite emit_eq.
Qed.

(** X19.  When the source answers the first request with an empty
    page, the run ends with status 0 after that single request: the
    database is not touched and the watermark stays. *)
Theorem no_new_data_ends_the_run : forall L E w,
  engine_ok E = true ->
  accepted L (read_watermark w) = true ->
  api E 0 (request_of E (where_of (read_watermark w)) 0) = Page [] ->
  run_etl L E w
  = (Exit 0,
     add_events w
       (token_warning E
          ++ [EvRequest 0 (request_of E (where_of (read_watermark w)) 0);
              EvDispose])).
Proof.
  intros L E w Heng Hacc Hpage.
  destruct (fetch_fire_data_run L E (read_watermark w) w Hacc)
    as (n & Hn & Hbefore & Hlast & Heq).
  set (wh := where_of (read_watermark w)) in *.
  assert (Hfull0 : full_page E wh 0 = false).
  { unfold full_page. now rewrite Hpage. }
  assert (n = 1) as ->.
  { destruct (Nat.eq_dec n 1) as [H1 | H1]; [exact H1|].
    rewrite Hbefore in Hfull0 by lia. discriminate. }
  cbn [Nat.sub] in Heq. rewrite Hfull0 in Heq.
  unfold request_fails, pages_upto, page_of in Heq. cbn [seq map List.concat] in Heq.
  rewrite Hpage in Heq. cbn [app frame_of] in Heq.
  rewrite (run_etl_no_data L E w _ _ Heng Heq eq_refl), add_events_app.
  f_equal. f_equal. rewrite app_nil_r, <- app_assoc. reflexivity.
Qed.

(** Witness of [no_new_data_ends_the_run]: a source without records. *)
Lemma no_new_data_ends_the_run_witness :
  let E := healthy_env 2000 (slice_api []) in
  let w := world0 (Some "2024-02-01T00:00:00.000") None in
  run_etl sample_lib E w
  = (Exit 0,
     add_events w
       [EvRequest 0 (mkReq 2000 0
                       (Some "response_timestamp > '2024-02-01T00:00:00.000'"));
        EvDispose]).
Proof.
  intros E w.
  exact (no_new_data_ends_the_run sample_lib E w eq_refl eq_refl eq_refl).
Defined.

(** X20.  A state file that cannot be written does not make the run
    fail: the error is only logged, so a run whose load was committed
    still returns normally, with the watermark file as it was. *)
Theorem unwritable_state_file_is_ignored : forall L E w,
  file_writable E = false ->
  exists o w' evs,
    run_etl L E w = (o, w') /\ trace w' = (trace w ++ evs)%list /\
    wm_file w' = wm_file w /\ count_saves evs = 0 /\
    (In EvCommit evs -> o = Ret tt).
Proof.
  intros L E w Hw.
  destruct (run_etl_outcomes L E w)
    as (o & w' & evs & Heq & Htr & Ho & H1 & H0 & Hr & _ & Hfile & _).
  destruct (Hfile Hw) as [Hwm Hs].
  exists o, w', evs. repeat (split; [assumption|]).
  intro Hc. destruct Ho as [-> | [-> | ->]]; [reflexivity | |].
  - now destruct (H0 eq_refl) as (_ & _ & _ & Hnc).
  - now destruct (H1 eq_refl) as (_ & _ & Hnc & _).
Qed.


(** Witness of [unwritable_state_file_is_ignored]: the load of two
    records is committed, the state file stays absent. *)
Lemma unwritable_state_file_is_ignored_witness :
  let E := readonly_env 2000 (slice_api old_records) in
  let w := world0 None None in
  exists o w' evs,
    run_etl sample_lib E w = (o, w') /\ trace w' = evs /\
    wm_file w' = None /\ count_saves evs = 0 /\
    (In EvCommit evs -> o = Ret tt).
Proof.
  intros E w.
  exact (unwritable_state_file_is_ignored sample_lib E w eq_refl).
Defined.

(* ------------------------------------------------------------------ *)
(** ** The stages of a run, put together *)


Lemma no_duplicated_rows_nodup i : forall rs,
  duplicated_rows i rs = [] -> NoDup (map (cell_at i) rs).
Proof.
  assert (Hcount : forall rs r,
            In r rs -> duplicated_rows i rs = [] ->
            List.length (filter (fun r' => Cell_eqb (cell_at i r) (cell_at i r')) rs)
            <= 1).
  { intros rs r Hin Hdup. unfold duplicated_rows in Hdup.
    destruct (1 <? List.length
                (filter (fun r' => Cell_eqb (cell_at i r) (cell_at i r')) rs))
      eqn:Hlt; [|now apply Nat.ltb_ge in Hlt].
    assert (Hr : In r (filter (fun r0 => 1 <? List.length
                          (filter (fun r' => Cell_eqb (cell_at i r0) (cell_at i r')) rs))
                        rs))
      by (apply filter_In; now split).
    rewrite Hdup in Hr. destruct Hr. }
  induction rs as [|r rs IH]; intro Hdup; [constructor|].
  cbn [map]. constructor.
  - intro Hin. apply in_map_iff in Hin as (x & Hx & Hxin).
    pose proof (Hcount (r :: rs) r (or_introl eq_refl) Hdup) as Hle.
    cbn [filter] in Hle. rewrite Cell_eqb_refl in Hle. cbn [List.length] in Hle.
    assert (Hx' : In x (filter (fun r' => Cell_eqb (cell_at i r) (cell_at i r')) rs)).
    { apply filter_In. split; [exact Hxin|]. rewrite Hx. apply Cell_eqb_refl. }
    destruct (filter _ rs); [destruct Hx' | cbn [List.length] in Hle; lia].
  - apply IH. unfold duplicated_rows. apply filter_none. intros x Hx.
    apply Nat.ltb_ge.
    pose proof (Hcount (r :: rs) x (or_intror Hx) Hdup) as Hle.
    cbn [filter] in Hle.
    destruct (Cell_eqb (cell_at i x) (cell_at i r));
      cbn [List.length] in Hle; lia.
Qed.

(** What [transform_data] returns for a non-empty frame with one cell
    per column: a non-empty frame of that kind with the key column, no
    key twice. *)
Lemma transform_data_returns L raw w df w' :
  df_empty raw = false -> well_formed raw = true ->
  transform_data L raw w = (Ret df, w') ->
  df_empty df = false /\ well_formed df = true /\
  has_column unique_key df = true /\
  NoDup (map (field (columns df) unique_key) (rows df)).
Proof.
  intros Hne Hwf Htr. unfold transform_data in Htr. rewrite Hne in Htr.
  unfold bind at 1 in Htr.
  destruct (clean_column_names_eq raw w) as (ws0 & Hclean). rewrite Hclean in Htr.
  unfold bind at 1 in Htr.
  destruct (convert_data_types_shape L (clean_frame raw)
              (add_events w (map EvWarn ws0))) as (df1 & ws1 & Hconv & Hs1).
  rewrite Hconv in Htr.
  assert (Hne1 : df_empty df1 = false).
  { eapply same_shape_nonempty; [exact Hs1|]. unfold df_empty, clean_frame in *.
    cbn [columns rows]. now rewrite final_names_length, length_map. }
  assert (Hwf1 : well_formed df1 = true).
  { eapply same_shape_well_formed; [exact Hs1|]. now apply clean_frame_shape. }
  unfold perform_data_quality_checks, bind in Htr.
  destruct (quality_checks df1 (add_events (add_events w (map EvWarn ws0))
                                  (map EvWarn ws1)))
    as [[[res b]| | |] wq] eqn:Hq; try discriminate.
  unfold ret in Htr. cbn [fst] in Htr. injection Htr as -> ->.
  destruct (quality_checks_resolved _ _ _ _ _ Hne1 Hq)
    as (i & Hi & Hcols & Hne' & Hnodup).
  destruct (quality_checks_cases df1 (add_events (add_events w (map EvWarn ws0))
                                        (map EvWarn ws1)) Hne1)
    as (o & ws2 & Hq' & Ho).
  rewrite Hq in Hq'. injection Hq' as <- _.
  destruct Ho as [(df' & b' & Heq & _ & Hincl & _) | (e & Heq & _)];
    [|discriminate].
  injection Heq as <- _.
  split; [exact Hne'|]. split; [|split].
  - unfold well_formed in *. rewrite Hcols. apply forallb_forall.
    intros r Hr. rewrite forallb_forall in Hwf1. now apply Hwf1, Hincl.
  - unfold has_column. rewrite Hcols. exact (index_of_some_has _ _ _ Hi).
  - replace (map (field (columns df) unique_key) (rows df))
      with (map (cell_at i) (rows df)).
    + now apply no_duplicated_rows_nodup.
    + apply map_ext. intro r. unfold field. now rewrite Hcols, Hi.
Qed.








(** X23.  What [transform_data] hands to the load: for a non-empty
    frame with one cell per column it logs warnings only and either
    raises or returns a frame that is not empty either, has one cell
    per column and the key column, and holds no key twice (missing
    keys counted as one key). *)
Theorem transformed_batch_has_distinct_keys : forall L raw w,
  df_empty raw = false -> well_formed raw = true ->
  exists o ws,
    transform_data L raw w = (o, add_events w (map EvWarn ws)) /\
    ((exists e, o = Raise e) \/
     (exists df,
        o = Ret df /\ df_empty df = false /\ well_formed df = true /\
        has_column unique_key df = true /\
        NoDup (map (field (columns df) unique_key) (rows df)))).
Proof.
  intros L raw w Hne Hwf.
  destruct (transform_data_cases L raw w Hne) as (o & ws & Htr & Ho).
  exists o, ws. split; [exact Htr|].
  destruct Ho as [(df & -> & _) | He]; [right | now left].
  exists df. split; [reflexivity|].
  exact (transform_data_returns L raw w df _ Hne Hwf Htr).
Qed.

(** Witness of [transformed_batch_has_distinct_keys]: of the two rows
    with key 123 one is left. *)
Lemma transformed_batch_has_distinct_keys_witness :
  exists o ws,
    transform_data sample_lib dup_frame (world0 None None)
    = (o, add_events (world0 None None) (map EvWarn ws)) /\
    ((exists e, o = Raise e) \/
     (exists df,
        o = Ret df /\ df_empty df = false /\ well_formed df = true /\
        has_column unique_key df = true /\
        NoDup (map (field (columns df) unique_key) (rows df)))).
Proof.
  exact (transformed_batch_has_distinct_keys sample_lib dup_frame
           (world0 None None) eq_refl eq_refl).
Defined.

